(** * JobPortal backend: career tools and application lifecycle

    A shallow embedding of the route handlers of [src/routes/career.js]
    (resume analyzer, mock-interview scorer, career stats) and of the
    application routes (apply, withdraw, status update), together with the
    part of the SQL schema those handlers touch.

    Conventions.
    - A JavaScript string is a [string]: a sequence of code units.  The code
      units are those of Latin-1 (0..255); on them [trim], [toLowerCase],
      [split] and the regular-expression classes below follow ECMAScript.
    - A field of the request body is an [option]: [None] when the field is
      absent, [Some s] when it is the string [s].
    - JavaScript numbers that only ever hold small integers are [Z]; the
      numbers of the stats handler are rationals, and its formula is given a
      second time on binary64 numbers.
    - A handler is a function from the request fields and the store to a
      reply and the new store.  Statements run one after the other, as in a
      single request; a statement fails only on a key constraint of the
      schema.  Sending mail does not touch the store and cannot fail the
      request ([sendEmail] catches its own errors), so it is left out. *)

From Stdlib Require Import ZArith QArith Qround Lia List Bool Ascii String NArith.
From Stdlib Require Import Uint63 PrimFloat FloatOps SpecFloat.
Import ListNotations.

Open Scope string_scope.
Open Scope Z_scope.

(* ================================================================== *)
(** ** JavaScript strings *)
(* ================================================================== *)

Module JsString.

Definition code (c : ascii) : N := N_of_ascii c.

Definition between (lo hi n : N) : bool := ((lo <=? n) && (n <=? hi))%N.

(** WhiteSpace and LineTerminator code points (TAB, LF, VT, FF, CR, SP,
    NBSP): what [String.prototype.trim] strips and what [\s] matches. *)
Definition isWhiteSpace (c : ascii) : bool :=
  let n := code c in
  (between 9 13 n || (n =? 32) || (n =? 160))%N.

(** [\d] *)
Definition isDigit (c : ascii) : bool := between 48 57 (code c).

(** [String.prototype.toLowerCase], one code unit at a time: A-Z and the
    Latin-1 capitals (all of U+00C0..U+00DE but the multiplication sign). *)
Definition toLowerChar (c : ascii) : ascii :=
  let n := code c in
  if (between 65 90 n || (between 192 222 n && negb (n =? 215)))%N
  then ascii_of_N (n + 32) else c.

Fixpoint toLowerCase (s : string) : string :=
  match s with
  | EmptyString => EmptyString
  | String c s' => String (toLowerChar c) (toLowerCase s')
  end.

Fixpoint trimStart (s : string) : string :=
  match s with
  | EmptyString => EmptyString
  | String c s' => if isWhiteSpace c then trimStart s' else s
  end.

Fixpoint rev (s : string) : string :=
  match s with
  | EmptyString => EmptyString
  | String c s' => rev s' ++ String c EmptyString
  end.

Definition trimEnd (s : string) : string := rev (trimStart (rev s)).

(** [String.prototype.trim] *)
Definition trim (s : string) : string := trimEnd (trimStart s).

(** [kw] is a prefix of [s]. *)
Fixpoint startsWith (s kw : string) {struct kw} : bool :=
  match kw, s with
  | EmptyString, _ => true
  | String _ _, EmptyString => false
  | String a kw', String b s' => Ascii.eqb a b && startsWith s' kw'
  end.

(** [String.prototype.includes]: [kw] occurs at some position of [s]. *)
Fixpoint includes (s kw : string) : bool :=
  startsWith s kw ||
  match s with
  | EmptyString => false
  | String _ s' => includes s' kw
  end.

(** [Array.prototype.join] *)
Fixpoint join (sep : string) (l : list string) : string :=
  match l with
  | [] => EmptyString
  | [x] => x
  | x :: rest => x ++ sep ++ join sep rest
  end.

(** [s.split(/\s+/)]: the pieces of [s] between maximal runs of white
    space.  [cur] is the piece being read, [inSep] tells that the previous
    code unit was white space (the run has already closed a piece). *)
Fixpoint splitGo (s cur : string) (inSep : bool) : list string :=
  match s with
  | EmptyString => [cur]
  | String c s' =>
      if isWhiteSpace c
      then (if inSep then splitGo s' EmptyString true
            else cur :: splitGo s' EmptyString true)
      else splitGo s' (cur ++ String c EmptyString) false
  end.

Definition splitWhiteSpace (s : string) : list string :=
  splitGo s EmptyString false.

(** [!field] for a field of the request body that is absent ([None]) or
    a string: true when absent or empty. *)
Definition falsy (field : option string) : bool :=
  match field with
  | None => true
  | Some EmptyString => true
  | Some _ => false
  end.

End JsString.

(* ================================================================== *)
(** ** Regular expressions *)
(* ================================================================== *)

Module Regex.
Import JsString.

(** The fragment of the pattern language the handlers use. *)
Inductive regex : Type :=
| Eps
| Chr (c : ascii)                 (* a pattern character *)
| Cls (p : ascii -> bool)         (* \d, \s, [\d,] *)
| Seq (r1 r2 : regex)
| Alt (r1 r2 : regex)             (* r1|r2 *)
| Star (r : regex)                (* r* *)
| Plus (r : regex).               (* r+ *)

(** Canonicalize of the [i] flag (no [u] flag): the upper-case mapping
    when it is a single code unit, except that a non-ASCII code unit never
    folds to an ASCII one.  On Latin-1: a-z and the small letters
    U+00E0..U+00FE (but the division sign) go 32 down, U+00FF goes to
    U+0178, the micro sign to U+039C, sharp s stays. *)
Definition canonicalize (c : ascii) : N :=
  let n := code c in
  if (between 97 122 n || (between 224 254 n && negb (n =? 247)))%N
  then (n - 32)%N
  else if (n =? 255)%N then 376%N
  else if (n =? 181)%N then 924%N
  else n.

Definition chrMatches (ignoreCase : bool) (c x : ascii) : bool :=
  if ignoreCase then (canonicalize c =? canonicalize x)%N
  else Ascii.eqb c x.

(** Greedy iteration: one more round of [step] if it consumes input,
    otherwise on to the continuation.  A round consumes at least one code
    unit, so [length s] rounds of fuel never run out. *)
Fixpoint iter (step : string -> (string -> bool) -> bool)
         (k : string -> bool) (fuel : nat) (s : string) : bool :=
  match fuel with
  | O => k s
  | S fuel' =>
      step s (fun s' => (length s' <? length s)%nat && iter step k fuel' s')
      || k s
  end.

(** Backtracking matcher in continuation style: [m i r s k] holds when
    [r] matches a prefix of [s] and [k] accepts the rest. *)
Fixpoint m (ignoreCase : bool) (r : regex) (s : string)
         (k : string -> bool) {struct r} : bool :=
  match r with
  | Eps => k s
  | Chr c =>
      match s with
      | String x s' => chrMatches ignoreCase c x && k s'
      | EmptyString => false
      end
  | Cls p =>
      match s with
      | String x s' => p x && k s'
      | EmptyString => false
      end
  | Seq r1 r2 => m ignoreCase r1 s (fun s' => m ignoreCase r2 s' k)
  | Alt r1 r2 => m ignoreCase r1 s k || m ignoreCase r2 s k
  | Star r' => iter (m ignoreCase r') k (length s) s
  | Plus r' =>
      m ignoreCase r' s (fun s' => iter (m ignoreCase r') k (length s') s')
  end.

(** [RegExp.prototype.test] on a regular expression whose [lastIndex] is 0:
    a match starting at some position. *)
Fixpoint test (ignoreCase : bool) (r : regex) (s : string) : bool :=
  m ignoreCase r s (fun _ => true) ||
  match s with
  | EmptyString => false
  | String _ s' => test ignoreCase r s'
  end.

(** A literal word as a pattern: its characters in sequence. *)
Fixpoint lit (w : string) : regex :=
  match w with
  | EmptyString => Eps
  | String c w' => Seq (Chr c) (lit w')
  end.

(** [w1|w2|...|wn] *)
Fixpoint alts (ws : list string) : regex :=
  match ws with
  | [] => Eps
  | [w] => lit w
  | w :: ws' => Alt (lit w) (alts ws')
  end.

(** The strings a pattern denotes: the reference the matcher is compared
    with. *)
Inductive matches (ignoreCase : bool) : regex -> string -> Prop :=
| MEps : matches ignoreCase Eps EmptyString
| MChr c x :
    chrMatches ignoreCase c x = true ->
    matches ignoreCase (Chr c) (String x EmptyString)
| MCls (p : ascii -> bool) x :
    p x = true -> matches ignoreCase (Cls p) (String x EmptyString)
| MSeq r1 r2 x y :
    matches ignoreCase r1 x -> matches ignoreCase r2 y ->
    matches ignoreCase (Seq r1 r2) (x ++ y)
| MAltL r1 r2 x : matches ignoreCase r1 x -> matches ignoreCase (Alt r1 r2) x
| MAltR r1 r2 x : matches ignoreCase r2 x -> matches ignoreCase (Alt r1 r2) x
| MStarNil r : matches ignoreCase (Star r) EmptyString
| MStarCons r x y :
    matches ignoreCase r x -> matches ignoreCase (Star r) y ->
    matches ignoreCase (Star r) (x ++ y)
| MPlus r x y :
    matches ignoreCase r x -> matches ignoreCase (Star r) y ->
    matches ignoreCase (Plus r) (x ++ y).

End Regex.

(* ================================================================== *)
(** ** Replies *)
(* ================================================================== *)

(** [res.status(code).json({success: true, ...})] carries a payload,
    [res.status(code).json({success: false, message})] a message.  [Denied]
    is the answer of the role gate, given before the handler runs. *)
Inductive reply (D : Type) : Type :=
| Success (code : Z) (data : D)
| Failure (code : Z) (message : string)
| Denied.

Arguments Success {D} code data.
Arguments Failure {D} code message.
Arguments Denied {D}.

(* ================================================================== *)
(** ** Resume analyzer: POST /analyze-resume *)
(* ================================================================== *)

Module Resume.
Import JsString Regex.

Definition keywords : list string :=
  [ "leadership"; "managed"; "developed"; "implemented"; "achieved";
    "increased"; "reduced"; "improved"; "collaborated"; "designed";
    "led"; "created"; "launched"; "optimized"; "scaled" ].

Definition digitOrComma (c : ascii) : bool :=
  isDigit c || Ascii.eqb c ","%char.

(** [/\d+%|\$\d+|[\d,]+\s*(users|customers|revenue|growth|reduction|increase)/gi] *)
Definition metricPatterns : regex :=
  Alt (Seq (Plus (Cls isDigit)) (Chr "%"))
 (Alt (Seq (Chr "$") (Plus (Cls isDigit)))
      (Seq (Plus (Cls digitOrComma))
      (Seq (Star (Cls isWhiteSpace))
           (alts [ "users"; "customers"; "revenue"; "growth";
                   "reduction"; "increase" ])))).

Definition hasMetrics (resumeText : string) : bool :=
  test true metricPatterns resumeText.

Definition foundKeywords (resumeText : string) : list string :=
  let lowerText := toLowerCase resumeText in
  filter (fun kw => includes lowerText kw) keywords.

Definition missingKeywords (resumeText : string) : list string :=
  let lowerText := toLowerCase resumeText in
  filter (fun kw => negb (includes lowerText kw)) keywords.

(** The double-quote character, for the quotations inside the tips. *)
Definition dq : string := String (ascii_of_nat 34) EmptyString.

Definition tipMetrics : string :=
  "Add quantifiable metrics (e.g., " ++ dq ++ "increased sales by 35%" ++ dq
  ++ " or " ++ dq ++ "managed team of 8 engineers" ++ dq ++ ")".

Definition tipVerbs (missing : list string) : string :=
  "Include action verbs like: " ++ join ", " (firstn 5 missing).

Definition tipExpand : string :=
  "Expand your experience with specific examples and results achieved".

Definition tipProjects : string :=
  "Highlight specific projects or initiatives you led or contributed to".

Definition genericTips : list string :=
  [ "Strong foundation! Consider adding technical skills or certifications relevant to your target role";
    "Include links to portfolio, GitHub, or LinkedIn for additional context";
    "Tailor each bullet point to match keywords from the job description" ].

(** [if (cond) tips.push(tip)] *)
Definition pushIf (cond : bool) (tip : string) (tips : list string)
  : list string :=
  if cond then tips ++ [tip] else tips.

(** The four conditional pushes, in the order of the source. *)
Definition personalizedTips (resumeText : string) : list string :=
  let lowerText := toLowerCase resumeText in
  let tips := [] in
  let tips := pushIf (negb (hasMetrics resumeText)) tipMetrics tips in
  let tips := pushIf (List.length (foundKeywords resumeText) <? 3)%nat
                     (tipVerbs (missingKeywords resumeText)) tips in
  let tips := pushIf (length resumeText <? 150)%nat tipExpand tips in
  let tips := pushIf (negb (includes lowerText "project")
                      && negb (includes lowerText "initiative"))
                     tipProjects tips in
  tips.

Definition tips (resumeText : string) : list string :=
  let tips := personalizedTips resumeText in
  if (List.length tips =? 0)%nat then tips ++ genericTips else tips.

Definition score (resumeText : string) : Z :=
  Z.min 100
    (Z.of_nat (List.length (foundKeywords resumeText)) * 8
     + (if hasMetrics resumeText then 25 else 0)
     + (if (150 <? length resumeText)%nat then 15 else 0)
     + 20).

Record analysis : Type := {
  a_score : Z;
  a_tips : list string;
  a_foundKeywords : list string;
  a_hasMetrics : bool
}.

Definition tooShort : string :=
  "Please provide resume text (minimum 20 characters)".

(** The handler.  [resumeText] is [req.body.resumeText]: [None] when the
    body has no such field, [Some t] when it is the string [t]. *)
Definition analyzeResume (resumeText : option string) : reply analysis :=
  match resumeText with
  | None => Failure 400 tooShort
  | Some text =>
      if falsy resumeText || (length (trim text) <? 20)%nat
      then Failure 400 tooShort
      else Success 200
             {| a_score := score text;
                a_tips := tips text;
                a_foundKeywords := firstn 5 (foundKeywords text);
                a_hasMetrics := hasMetrics text |}
  end.

End Resume.

(* ================================================================== *)
(** ** The store *)
(* ================================================================== *)

(** The tables and columns of the schema that the handlers below read or
    write.  Rows are kept in insertion order.  Timestamps and the columns
    no handler of this development touches are left out; so are the column
    widths.  A statement fails only on a key constraint of the schema. *)
Module Store.

(** [applications]; [status] is the ENUM's label. *)
Record application : Type := {
  application_id : Z;
  app_job_id : Z;
  app_user_id : Z;
  app_resume : option string;
  app_cover_letter : option string;
  app_status : string
}.

(** [jobs]; [job_user_id] is the poster. *)
Record job : Type := {
  job_id : Z;
  job_user_id : Z;
  applications_count : Z
}.

(** [profiles] *)
Record profile : Type := {
  profile_user_id : Z;
  profile_resume : option string
}.

(** [interview_practice] *)
Record practice : Type := {
  ip_user_id : Z;
  ip_prompt : string;
  ip_response : string;
  ip_duration : option Z;
  ip_score : Z
}.

Record db : Type := {
  profiles : list profile;
  jobs : list job;
  applications : list application;
  next_application_id : Z;          (* AUTO_INCREMENT of applications *)
  interview_practice : list practice
}.

Definition set_jobs (d : db) (js : list job) : db :=
  {| profiles := profiles d; jobs := js; applications := applications d;
     next_application_id := next_application_id d;
     interview_practice := interview_practice d |}.

Definition set_applications (d : db) (l : list application) : db :=
  {| profiles := profiles d; jobs := jobs d; applications := l;
     next_application_id := next_application_id d;
     interview_practice := interview_practice d |}.

Definition set_interview_practice (d : db) (l : list practice) : db :=
  {| profiles := profiles d; jobs := jobs d; applications := applications d;
     next_application_id := next_application_id d;
     interview_practice := l |}.

(** The roles of [users.role], as carried by the caller's token. *)
Inductive role : Type := job_seeker | job_poster | alumni | student | admin.

Definition role_eqb (a b : role) : bool :=
  match a, b with
  | job_seeker, job_seeker | job_poster, job_poster | alumni, alumni
  | student, student | admin, admin => true
  | _, _ => false
  end.

(** [req.user], as left by the identity gate. *)
Record caller : Type := { userId : Z; callerRole : role }.

(** Modelled from the spec: the role gate [authorizeRoles] of
    [middleware/auth.js], which is not among the sources: the yes/no
    decision whether the caller's role is in the given set, taken before
    the handler runs. *)
Definition authorizeRoles (allowed : list role) (c : caller) : bool :=
  existsb (role_eqb (callerRole c)) allowed.

(** [SELECT * FROM applications WHERE job_id = ? AND user_id = ?] *)
Definition applicationsOf (d : db) (jobId uid : Z) : list application :=
  filter (fun a => (app_job_id a =? jobId) && (app_user_id a =? uid))
         (applications d).

(** [SELECT * FROM applications WHERE application_id = ?] *)
Definition applicationsById (d : db) (id : Z) : list application :=
  filter (fun a => application_id a =? id) (applications d).

(** [SELECT * FROM jobs WHERE job_id = ?] *)
Definition jobsById (d : db) (jobId : Z) : list job :=
  filter (fun j => job_id j =? jobId) (jobs d).

(** The stored counter of a job. *)
Definition countOf (d : db) (jobId : Z) : option Z :=
  match jobsById d jobId with
  | [] => None
  | j :: _ => Some (applications_count j)
  end.

(** [INSERT INTO applications (job_id, user_id, resume, cover_letter)]:
    refused when the foreign key to [jobs] or the unique key
    [(job_id, user_id)] is violated; [status] takes its default. *)
Definition insertApplication (d : db) (jobId uid : Z)
           (resume cover : option string) : option db :=
  match jobsById d jobId, applicationsOf d jobId uid with
  | _ :: _, [] =>
      Some {| profiles := profiles d; jobs := jobs d;
              applications :=
                applications d ++
                [ {| application_id := next_application_id d;
                     app_job_id := jobId; app_user_id := uid;
                     app_resume := resume; app_cover_letter := cover;
                     app_status := "pending" |} ];
              next_application_id := next_application_id d + 1;
              interview_practice := interview_practice d |}
  | _, _ => None
  end.

(** [UPDATE jobs SET applications_count = f(applications_count)
     WHERE job_id = ?] *)
Definition updateCount (f : Z -> Z) (d : db) (jobId : Z) : db :=
  set_jobs d
    (map (fun j => if job_id j =? jobId
                   then {| job_id := job_id j; job_user_id := job_user_id j;
                           applications_count := f (applications_count j) |}
                   else j)
         (jobs d)).

(** [DELETE FROM applications WHERE application_id = ?] *)
Definition deleteApplication (d : db) (id : Z) : db :=
  set_applications d
    (filter (fun a => negb (application_id a =? id)) (applications d)).

(** [UPDATE applications SET status = ? WHERE application_id = ?] *)
Definition updateStatusOf (d : db) (id : Z) (status : string) : db :=
  set_applications d
    (map (fun a => if application_id a =? id
                   then {| application_id := application_id a;
                           app_job_id := app_job_id a;
                           app_user_id := app_user_id a;
                           app_resume := app_resume a;
                           app_cover_letter := app_cover_letter a;
                           app_status := status |}
                   else a)
         (applications d)).

(** [INSERT INTO interview_practice (user_id, prompt, response, duration,
    score, created_at)] *)
Definition insertPractice (d : db) (p : practice) : db :=
  set_interview_practice d (interview_practice d ++ [p]).

End Store.

(* ================================================================== *)
(** ** Mock interview: POST /mock-interview *)
(* ================================================================== *)

Module Interview.
Import JsString Regex Store.

(** [/situation|context|background/i] and its three siblings. *)
Definition situationWords : list string :=
  [ "situation"; "context"; "background" ].
Definition taskWords : list string :=
  [ "task"; "goal"; "objective"; "challenge" ].
Definition actionWords : list string :=
  [ "action"; "did"; "implemented"; "executed"; "performed" ].
Definition resultWords : list string :=
  [ "result"; "outcome"; "impact"; "achieved"; "accomplished" ].

Definition hasSituation (response : string) : bool :=
  test true (alts situationWords) response.
Definition hasTask (response : string) : bool :=
  test true (alts taskWords) response.
Definition hasAction (response : string) : bool :=
  test true (alts actionWords) response.
Definition hasResult (response : string) : bool :=
  test true (alts resultWords) response.

(** [response.trim().split(/\s+/).length] *)
Definition wordCount (response : string) : Z :=
  Z.of_nat (List.length (splitWhiteSpace (trim response))).

Definition starScore (response : string) : Z :=
  (if hasSituation response then 25 else 0)
  + (if hasTask response then 25 else 0)
  + (if hasAction response then 25 else 0)
  + (if hasResult response then 25 else 0).

(** [Math.min(30, Math.floor(wordCount / 10) * 5)] *)
Definition lengthScore (response : string) : Z :=
  Z.min 30 (wordCount response / 10 * 5).

Definition totalScore (response : string) : Z :=
  Z.min 100 (starScore response + lengthScore response + 10).

Definition pushIf (cond : bool) (entry : string) (l : list string)
  : list string :=
  if cond then l ++ [entry] else l.

Definition feedback (response : string) : list string :=
  let fb := [] in
  let fb := pushIf (negb (hasSituation response))
              "Add context: Describe the situation or background" fb in
  let fb := pushIf (negb (hasTask response))
              "Clarify the task: What was your goal or challenge?" fb in
  let fb := pushIf (negb (hasAction response))
              "Detail your action: What specific steps did you take?" fb in
  let fb := pushIf (negb (hasResult response))
              "Share the result: What was the outcome or impact?" fb in
  let fb := pushIf (wordCount response <? 50)
              "Expand your response with more details and specific examples"
              fb in
  if (List.length fb =? 0)%nat
  then fb ++ [ "Great STAR structure! Keep practicing to improve confidence and delivery";
               "Consider varying your tone and pacing for better engagement" ]
  else fb.

Record starComponents : Type := {
  situation : bool; task : bool; action : bool; result : bool
}.

Record evaluation : Type := {
  e_score : Z;
  e_feedback : list string;
  e_wordCount : Z;
  e_starComponents : starComponents
}.

(** [duration || null]: an absent duration and the number 0 are stored
    as NULL. *)
Definition orNull (duration : option Z) : option Z :=
  match duration with
  | Some 0 => None
  | d => d
  end.

(** The handler.  [prompt] and [response] are the fields of the request
    body, [None] when absent. *)
Definition mockInterview (c : caller) (prompt response : option string)
           (duration : option Z) (d : db) : reply evaluation * db :=
  match prompt, response with
  | Some p, Some r =>
      if falsy prompt || falsy response
      then (Failure 400 "Prompt and response are required", d)
      else
        let d' := insertPractice d
                    {| ip_user_id := userId c; ip_prompt := p;
                       ip_response := r; ip_duration := orNull duration;
                       ip_score := totalScore r |} in
        (Success 200
           {| e_score := totalScore r;
              e_feedback := feedback r;
              e_wordCount := wordCount r;
              e_starComponents :=
                {| situation := hasSituation r; task := hasTask r;
                   action := hasAction r; result := hasResult r |} |},
         d')
  | _, _ => (Failure 400 "Prompt and response are required", d)
  end.

End Interview.

(* ================================================================== *)
(** ** Applications: POST /apply, DELETE /:id, PUT /:id/status *)
(* ================================================================== *)

Module Applications.
Import Store.

(** [POST /apply].  [file] is the name under which the upload middleware
    stored the attached resume, if one was attached. *)
Definition apply (c : caller) (jobId : Z) (cover_letter file : option string)
           (d : db) : reply string * db :=
  let existing := applicationsOf d jobId (userId c) in
  if (0 <? List.length existing)%nat
  then (Failure 400 "Already applied to this job", d)
  else
    let resumePath :=
      match file with
      | Some filename => Some ("/uploads/" ++ filename)
      | None =>
          match filter (fun p => profile_user_id p =? userId c)
                       (profiles d) with
          | [] => None
          | p :: _ => profile_resume p
          end
      end in
    match insertApplication d jobId (userId c) resumePath cover_letter with
    | None => (Failure 500 "Failed to submit application", d)
    | Some d1 =>
        let d2 := updateCount (fun n => n + 1) d1 jobId in
        (Success 201 "Application submitted successfully", d2)
    end.

Definition everyRole : list role :=
  [ job_seeker; student; alumni; job_poster; admin ].

(** [DELETE /:id] *)
Definition withdraw (c : caller) (id : Z) (d : db) : reply string * db :=
  if negb (authorizeRoles everyRole c) then (Denied, d)
  else
    match applicationsById d id with
    | [] => (Failure 404 "Application not found", d)
    | application :: _ =>
        if negb (app_user_id application =? userId c)
           && negb (role_eqb (callerRole c) admin)
        then (Failure 403 "Not authorized to withdraw this application", d)
        else
          let d1 := deleteApplication d id in
          let d2 := updateCount (fun n => Z.max (n - 1) 0) d1
                                (app_job_id application) in
          (Success 200 "Application withdrawn successfully", d2)
    end.

Definition validStatuses : list string :=
  [ "pending"; "reviewed"; "shortlisted"; "rejected"; "accepted" ].

(** [validStatuses.includes(status)]; an absent field is in no list. *)
Definition includesStatus (status : option string) : bool :=
  match status with
  | Some s => existsb (String.eqb s) validStatuses
  | None => false
  end.

(** [SELECT a.*, j.user_id as job_poster_id ... FROM applications a
     JOIN jobs j ON a.job_id = j.job_id JOIN users u ...
     WHERE a.application_id = ?]: each application with that id, paired
    with the poster of its job.  The applicant's row of [users] exists by
    the foreign key of [applications]. *)
Definition applicationsWithPoster (d : db) (id : Z)
  : list (application * Z) :=
  flat_map (fun a => map (fun j => (a, job_user_id j))
                         (jobsById d (app_job_id a)))
           (applicationsById d id).

(** [PUT /:id/status] *)
Definition updateStatus (c : caller) (id : Z) (status : option string)
           (d : db) : reply string * db :=
  if negb (authorizeRoles [job_poster; alumni; admin] c) then (Denied, d)
  else
    match status with
    | Some s =>
        if negb (includesStatus status)
        then (Failure 400 "Invalid status", d)
        else
          match applicationsWithPoster d id with
          | [] => (Failure 404 "Application not found", d)
          | (app, job_poster_id) :: _ =>
              if negb (job_poster_id =? userId c)
                 && negb (role_eqb (callerRole c) admin)
              then (Failure 403 "Not authorized", d)
              else (Success 200 "Application status updated",
                    updateStatusOf d id s)
          end
    | None => (Failure 400 "Invalid status", d)
    end.

End Applications.

(* ================================================================== *)
(** ** Career stats: GET /stats *)
(* ================================================================== *)

(** The numbers of this handler are rationals: [avgScore * 0.3] is taken
    exactly, with 0.3 the fraction 3/10. *)
Module Stats.
Import Store.

Definition total (l : list Z) : Z := fold_right Z.add 0 l.

(** Rounding to the nearest integer, ties away from zero: how the store
    rounds a DECIMAL. *)
Definition roundHalfAway (q : Q) : Z :=
  if Qle_bool 0 q then Qfloor (q + (1 # 2)) else Qceiling (q - (1 # 2)).

(** [AVG(score)]: NULL over no rows, otherwise the quotient to four
    decimal places. *)
Definition sqlAvg (scores : list Z) : option Q :=
  match scores with
  | [] => None
  | _ :: _ =>
      let n := Z.of_nat (List.length scores) in
      Some (inject_Z (roundHalfAway
              (inject_Z (total scores * 10000) / inject_Z n)) / 10000)%Q
  end.

(** [COUNT( * )] and [SUM(CASE WHEN status = ? THEN 1 ELSE 0 END)]; the
    sum is NULL over no rows. *)
Definition sqlCount {A : Type} (rows : list A) : Z :=
  Z.of_nat (List.length rows).

Definition sqlSumStatus (status : string) (rows : list application)
  : option Z :=
  match rows with
  | [] => None
  | _ :: _ =>
      Some (total (map (fun a => if String.eqb (app_status a) status
                                 then 1 else 0) rows))
  end.

(** [x || 0] on a nullable number. *)
Definition orZeroQ (x : option Q) : Q :=
  match x with Some q => q | None => 0%Q end.
Definition orZero (x : option Z) : Z :=
  match x with Some z => z | None => 0 end.

(** [Math.min] and [Math.round] (ties towards positive infinity). *)
Definition jsMin (a b : Q) : Q := if Qle_bool b a then b else a.
Definition jsRound (x : Q) : Z := Qfloor (x + (1 # 2)).

Definition interviewWeight (interviewCount : Z) : Q :=
  jsMin 40 (inject_Z interviewCount * 8).
Definition scoreWeight (avgScore : Q) : Q :=
  jsMin 30 (avgScore * (3 # 10)).
Definition activityWeight (totalApps : Z) : Q :=
  jsMin 30 (inject_Z totalApps * 3).

Definition confidencePulse (interviewCount : Z) (avgScore : Q)
           (totalApps : Z) : Z :=
  jsRound (interviewWeight interviewCount + scoreWeight avgScore
           + activityWeight totalApps).

Record careerStats : Type := {
  s_confidencePulse : Z;
  s_interviewPracticeCount : Z;
  s_averageInterviewScore : Z;
  s_totalApplications : Z;
  s_acceptedApplications : Z;
  s_shortlistedApplications : Z
}.

(** The two aggregate queries of the handler. *)
Definition practiceOf (d : db) (uid : Z) : list practice :=
  filter (fun p => ip_user_id p =? uid) (interview_practice d).
Definition applicationsOfUser (d : db) (uid : Z) : list application :=
  filter (fun a => app_user_id a =? uid) (applications d).

(** [GET /stats] *)
Definition stats (c : caller) (d : db) : reply careerStats :=
  let mine := practiceOf d (userId c) in
  let apps := applicationsOfUser d (userId c) in
  let interviewCount := sqlCount mine in
  let avgScore := orZeroQ (sqlAvg (map ip_score mine)) in
  let totalApps := sqlCount apps in
  Success 200
    {| s_confidencePulse := confidencePulse interviewCount avgScore totalApps;
       s_interviewPracticeCount := interviewCount;
       s_averageInterviewScore := jsRound avgScore;
       s_totalApplications := totalApps;
       s_acceptedApplications := orZero (sqlSumStatus "accepted" apps);
       s_shortlistedApplications := orZero (sqlSumStatus "shortlisted" apps) |}.

End Stats.

(* ================================================================== *)
(** ** The confidence pulse on binary64 numbers *)
(* ================================================================== *)

(** The formula of [GET /stats] once more, on the IEEE 754 double-precision
    numbers of JavaScript, to evaluate it at given inputs.  The counts are
    integers below 2^53; [0.3] is the double nearest to 3/10. *)
Module StatsBinary64.

Definition ofZ (n : Z) : float := PrimFloat.of_uint63 (Uint63.of_Z n).

Definition threeTenths : float := 0x1.3333333333333p-2%float.

(** [Math.min] on two numbers (not NaN). *)
Definition jsMin (a b : float) : float :=
  if PrimFloat.ltb b a then b else a.

(** [Math.round] on a finite number: the integer nearest to it, a tie
    going up; computed on the exact value [m * 2^e] of the double. *)
Definition jsRound (x : float) : option Z :=
  match Prim2SF x with
  | S754_zero _ => Some 0
  | S754_finite sign mant e =>
      let v := if sign then Z.neg mant else Z.pos mant in
      Some (if 0 <=? e then v * 2 ^ e
            else (2 * v + 2 ^ (- e)) / 2 ^ (1 - e))
  | S754_infinity _ => None
  | S754_nan => None
  end.

Definition interviewWeight (interviewCount : Z) : float :=
  jsMin 40%float (PrimFloat.mul (ofZ interviewCount) 8%float).
Definition scoreWeight (avgScore : float) : float :=
  jsMin 30%float (PrimFloat.mul avgScore threeTenths).
Definition activityWeight (totalApps : Z) : float :=
  jsMin 30%float (PrimFloat.mul (ofZ totalApps) 3%float).

Definition confidencePulse (interviewCount : Z) (avgScore : float)
           (totalApps : Z) : option Z :=
  jsRound (PrimFloat.add
             (PrimFloat.add (interviewWeight interviewCount)
                            (scoreWeight avgScore))
             (activityWeight totalApps)).

End StatsBinary64.

(* ================================================================== *)
(** ** Notions used to state the properties *)
(* ================================================================== *)

Module Notions.
Import JsString.

(** [w] occurs in [s] as a substring, letter case aside. *)
Definition occursIgnoringCase (w s : string) : Prop :=
  exists pre x post,
    s = pre ++ x ++ post /\ toLowerCase x = toLowerCase w.

(** A small ASCII letter, and a word made of such letters. *)
Definition isLowerLetter (c : ascii) : bool := between 97 122 (code c).

Fixpoint lowerWord (w : string) : bool :=
  match w with
  | EmptyString => true
  | String c w' => isLowerLetter c && lowerWord w'
  end.

(** Exhaustive check of a predicate over the 256 code units. *)
Definition allBool (f : bool -> bool) : bool := f true && f false.

Definition allAscii (f : ascii -> bool) : bool :=
  allBool (fun b0 => allBool (fun b1 => allBool (fun b2 =>
  allBool (fun b3 => allBool (fun b4 => allBool (fun b5 =>
  allBool (fun b6 => allBool (fun b7 =>
    f (Ascii b0 b1 b2 b3 b4 b5 b6 b7))))))))).

(** Every code unit of [s] is white space. *)
Fixpoint allWhiteSpace (s : string) : bool :=
  match s with
  | EmptyString => true
  | String c s' => isWhiteSpace c && allWhiteSpace s'
  end.

(** The first code unit of [s], if any, is white space. *)
Definition startsWithWhiteSpace (s : string) : bool :=
  match s with
  | EmptyString => false
  | String c _ => isWhiteSpace c
  end.

(** [n] copies of [w]. *)
Fixpoint repeatString (w : string) (n : nat) : string :=
  match n with
  | O => EmptyString
  | S n' => w ++ repeatString w n'
  end.

End Notions.

(* ================================================================== *)
(** ** Sample requests and stores *)
(* ================================================================== *)

Module Samples.
Import Store.

Definition resumeA : string :=
  "I increased revenue by 20% and managed, developed, led project".

Definition resumeShort : string := "   too short      ".

Definition emptyDb : db :=
  {| profiles := []; jobs := []; applications := [];
     next_application_id := 1; interview_practice := [] |}.

Definition seeker : caller := {| userId := 7; callerRole := job_seeker |}.
Definition poster : caller := {| userId := 3; callerRole := job_poster |}.

(** One job (id 5, posted by user 3, counter at 0) and one profile. *)
Definition oneJob : db :=
  {| profiles := [ {| profile_user_id := 7;
                      profile_resume := Some "/uploads/cv.pdf" |} ];
     jobs := [ {| job_id := 5; job_user_id := 3; applications_count := 0 |} ];
     applications := [];
     next_application_id := 1;
     interview_practice := [] |}.

(** The same job with a stale counter of 0 and one application on it. *)
Definition staleCounter : db :=
  {| profiles := [];
     jobs := [ {| job_id := 5; job_user_id := 3; applications_count := 0 |} ];
     applications :=
       [ {| application_id := 1; app_job_id := 5; app_user_id := 7;
            app_resume := None; app_cover_letter := None;
            app_status := "accepted" |} ];
     next_application_id := 2;
     interview_practice := [] |}.

Definition starAnswer : string :=
  Notions.repeatString "situation task action result " 40.

Definition practiceRow (uid score : Z) : practice :=
  {| ip_user_id := uid; ip_prompt := "Tell me about a challenge";
     ip_response := "I did it"; ip_duration := None; ip_score := score |}.

Definition applicationRow (id jobId uid : Z) : application :=
  {| application_id := id; app_job_id := jobId; app_user_id := uid;
     app_resume := None; app_cover_letter := None;
     app_status := "pending" |}.

(** User 7 with five practice rows averaging 99 and ten applications. *)
Definition nearlyPerfect : db :=
  {| profiles := [];
     jobs := map (fun k => {| job_id := k; job_user_id := 3;
                              applications_count := 1 |})
                 [1; 2; 3; 4; 5; 6; 7; 8; 9; 10];
     applications := map (fun k => applicationRow k k 7)
                         [1; 2; 3; 4; 5; 6; 7; 8; 9; 10];
     next_application_id := 11;
     interview_practice :=
       [ practiceRow 7 100; practiceRow 7 100; practiceRow 7 100;
         practiceRow 7 100; practiceRow 7 95 ] |}.

End Samples.

(* ================================================================== *)
(** ** Whole-store notions *)
(* ================================================================== *)

(** What the schema's keys promise about a store, and what it means for
    the counters of the jobs to be right. *)
Module Lifecycle.
Import Store Applications.

(** The resume path [POST /apply] stores: the uploaded file if there is
    one, otherwise the resume of the caller's first profile row. *)
Definition resumePath (c : caller) (file : option string) (d : db)
  : option string :=
  match file with
  | Some filename => Some ("/uploads/" ++ filename)
  | None =>
      match filter (fun p => profile_user_id p =? userId c) (profiles d) with
      | [] => None
      | p :: _ => profile_resume p
      end
  end.

(** The row [POST /apply] inserts. *)
Definition newApplication (c : caller) (jobId : Z)
           (cover_letter file : option string) (d : db) : application :=
  {| application_id := next_application_id d;
     app_job_id := jobId; app_user_id := userId c;
     app_resume := resumePath c file d;
     app_cover_letter := cover_letter;
     app_status := "pending" |}.

(** The store after an accepted [POST /apply]: the new row, the next id,
    and the counter of the job. *)
Definition applied (c : caller) (jobId : Z)
           (cover_letter file : option string) (d : db) : db :=
  updateCount (fun n => n + 1)
    {| profiles := profiles d; jobs := jobs d;
       applications :=
         applications d ++ [newApplication c jobId cover_letter file d];
       next_application_id := next_application_id d + 1;
       interview_practice := interview_practice d |}
    jobId.

(** The store after an accepted [DELETE /:id] of an application of the
    job [jobId]. *)
Definition withdrawn (d : db) (id jobId : Z) : db :=
  updateCount (fun n => Z.max (n - 1) 0) (deleteApplication d id) jobId.

(** The application rows of a job. *)
Definition applicationsOfJob (d : db) (jobId : Z) : list application :=
  filter (fun a => app_job_id a =? jobId) (applications d).

(** PRIMARY KEY and AUTO_INCREMENT of [applications]: the ids differ and
    lie below the next id. *)
Definition idsFresh (d : db) : Prop :=
  NoDup (map application_id (applications d))
  /\ forall a, In a (applications d)
               -> application_id a < next_application_id d.

(** UNIQUE KEY [(job_id, user_id)] of [applications]. *)
Definition onePerPair (d : db) : Prop :=
  forall jobId uid, (List.length (applicationsOf d jobId uid) <= 1)%nat.

(** FOREIGN KEY [applications.job_id -> jobs.job_id]. *)
Definition jobsExist (d : db) : Prop :=
  forall a, In a (applications d) -> jobsById d (app_job_id a) <> [].

(** The ENUM of [applications.status]. *)
Definition statusesValid (d : db) : Prop :=
  forall a, In a (applications d) -> In (app_status a) validStatuses.

Definition wellFormed (d : db) : Prop :=
  idsFresh d /\ onePerPair d /\ jobsExist d /\ statusesValid d.

(** Every job's stored counter is the number of its application rows. *)
Definition countersMatch (d : db) : Prop :=
  forall j, In j (jobs d)
            -> applications_count j
               = Z.of_nat (List.length (applicationsOfJob d (job_id j))).

(** Every stored interview score lies between 10 and 100. *)
Definition scoresInRange (d : db) : Prop :=
  forall p, In p (interview_practice d) -> 10 <= ip_score p <= 100.

(** The feedback entries of the mock interview, by name. *)
Definition fbSituation : string :=
  "Add context: Describe the situation or background".
Definition fbTask : string :=
  "Clarify the task: What was your goal or challenge?".
Definition fbAction : string :=
  "Detail your action: What specific steps did you take?".
Definition fbResult : string :=
  "Share the result: What was the outcome or impact?".
Definition fbExpand : string :=
  "Expand your response with more details and specific examples".
Definition fbGreat : string :=
  "Great STAR structure! Keep practicing to improve confidence and delivery".
Definition fbTone : string :=
  "Consider varying your tone and pacing for better engagement".

(** No code unit of [s] is white space. *)
Fixpoint noWhiteSpace (s : string) : bool :=
  match s with
  | EmptyString => true
  | String c s' => negb (JsString.isWhiteSpace c) && noWhiteSpace s'
  end.

(** A word: not empty and free of white space. *)
Definition isWord (w : string) : bool :=
  negb (String.eqb w EmptyString) && noWhiteSpace w.

(** A gap between two words: a run of white space that is not empty. *)
Definition isGap (g : string) : bool :=
  negb (String.eqb g EmptyString) && Notions.allWhiteSpace g.

(** The text of the word [w] and the words of [rest], each of these after
    a gap of its own. *)
Fixpoint spaced (w : string) (rest : list (string * string)) : string :=
  match rest with
  | [] => w
  | (gap, w') :: rest' => w ++ gap ++ spaced w' rest'
  end.

(** [c] is one of the code units of [s]. *)
Fixpoint occursIn (c : ascii) (s : string) : Prop :=
  match s with
  | EmptyString => False
  | String x s' => x = c \/ occursIn c s'
  end.

End Lifecycle.

(* ================================================================== *)
(** ** Jobs and users: DELETE /jobs/:id, the admin console, the resume *)
(* ================================================================== *)

Module Jobs.
Import Store.

(** [DELETE FROM jobs WHERE job_id = ?]; the rows of [applications] that
    refer to the job go with it (ON DELETE CASCADE). *)
Definition deleteJobRows (d : db) (jobId : Z) : db :=
  {| profiles := profiles d;
     jobs := filter (fun j => negb (job_id j =? jobId)) (jobs d);
     applications :=
       filter (fun a => negb (app_job_id a =? jobId)) (applications d);
     next_application_id := next_application_id d;
     interview_practice := interview_practice d |}.

(** [DELETE /:id] of the job routes. *)
Definition deleteJob (c : caller) (id : Z) (d : db) : reply string * db :=
  if negb (authorizeRoles [job_poster; alumni; admin] c) then (Denied, d)
  else
    match jobsById d id with
    | [] => (Failure 404 "Job not found", d)
    | j :: _ =>
        if negb (job_user_id j =? userId c)
           && negb (role_eqb (callerRole c) admin)
        then (Failure 403 "Not authorized", d)
        else (Success 200 "Job deleted successfully", deleteJobRows d id)
    end.

End Jobs.

Module Admin.
Import Store.

(** [DELETE /jobs/:id] of the admin console: no ownership check, and the
    same answer whether or not the job exists. *)
Definition deleteJob (c : caller) (id : Z) (d : db) : reply string * db :=
  if negb (authorizeRoles [admin] c) then (Denied, d)
  else (Success 200 "Job deleted successfully", Jobs.deleteJobRows d id).

(** [DELETE FROM users WHERE user_id = ?] as the tables of the store see
    it: the user's profile, practice rows, jobs and applications go, and so
    do the applications to the user's jobs (ON DELETE CASCADE, twice). *)
Definition deleteUserRows (d : db) (uid : Z) : db :=
  {| profiles := filter (fun p => negb (profile_user_id p =? uid)) (profiles d);
     jobs := filter (fun j => negb (job_user_id j =? uid)) (jobs d);
     applications :=
       filter (fun a =>
                 negb (app_user_id a =? uid)
                 && negb (existsb (fun j => (job_id j =? app_job_id a)
                                            && (job_user_id j =? uid))
                                  (jobs d)))
              (applications d);
     next_application_id := next_application_id d;
     interview_practice :=
       filter (fun p => negb (ip_user_id p =? uid)) (interview_practice d) |}.

(** [DELETE /users/:id] of the admin console. *)
Definition deleteUser (c : caller) (id : Z) (d : db) : reply string * db :=
  if negb (authorizeRoles [admin] c) then (Denied, d)
  else (Success 200 "User deleted successfully", deleteUserRows d id).

End Admin.

Module Users.
Import Store.

(** [UPDATE profiles SET resume = ? WHERE user_id = ?] *)
Definition setResume (d : db) (uid : Z) (path : string) : db :=
  {| profiles :=
       map (fun p => if profile_user_id p =? uid
                     then {| profile_user_id := profile_user_id p;
                             profile_resume := Some path |}
                     else p)
           (profiles d);
     jobs := jobs d; applications := applications d;
     next_application_id := next_application_id d;
     interview_practice := interview_practice d |}.

(** [POST /upload-resume]; the payload of the answer is [resumePath]. *)
Definition uploadResume (c : caller) (file : option string) (d : db)
  : reply string * db :=
  match file with
  | None => (Failure 400 "No file uploaded", d)
  | Some filename =>
      let resumePath := "/uploads/" ++ filename in
      (Success 200 resumePath, setResume d (userId c) resumePath)
  end.

End Users.

(* ================================================================== *)
(** ** Alumni chapters: create, join, approve or reject, post *)
(* ================================================================== *)

(** The chapter tables, with the columns the chapter handlers below read
    or write; [id], [chapter_id] and [post_id] are AUTO_INCREMENT keys. *)
Module Chapters.
Import JsString Store.

Record chapter : Type := {
  chapter_id : Z;
  chapter_name : string;
  college_name : string;
  created_by : Z;
  member_count : Z
}.

(** [chapter_members]; [m_role] and [m_status] are the ENUMs' labels. *)
Record member : Type := {
  member_id : Z;
  m_chapter_id : Z;
  m_user_id : Z;
  m_role : string;
  m_status : string
}.

Record post : Type := {
  post_id : Z;
  p_chapter_id : Z;
  posted_by : Z;
  p_type : string;
  p_title : string;
  p_description : string
}.

Record cdb : Type := {
  chapters : list chapter;
  members : list member;
  posts : list post;
  next_chapter_id : Z;
  next_member_id : Z;
  next_post_id : Z
}.

(** The answers of the chapter handlers: [Invalid] carries the messages of
    the validators that failed ([errors.array()]). *)
Inductive answer : Type :=
| Ok (code : Z) (message : string)
| OkId (code : Z) (message : string) (id : Z)
| Invalid (errors : list string)
| Fail (code : Z) (message : string).

(** [SELECT * FROM chapter_members WHERE chapter_id = ? AND user_id = ?] *)
Definition membership (d : cdb) (chapterId uid : Z) : list member :=
  filter (fun m => (m_chapter_id m =? chapterId) && (m_user_id m =? uid))
         (members d).

(** [... AND role = 'admin'] *)
Definition adminMembership (d : cdb) (chapterId uid : Z) : list member :=
  filter (fun m => (m_chapter_id m =? chapterId) && (m_user_id m =? uid)
                   && String.eqb (m_role m) "admin")
         (members d).

(** [... AND status = 'approved'] *)
Definition approvedMembership (d : cdb) (chapterId uid : Z) : list member :=
  filter (fun m => (m_chapter_id m =? chapterId) && (m_user_id m =? uid)
                   && String.eqb (m_status m) "approved")
         (members d).

Definition chaptersById (d : cdb) (chapterId : Z) : list chapter :=
  filter (fun ch => chapter_id ch =? chapterId) (chapters d).

(** The stored member counter of a chapter. *)
Definition memberCountOf (d : cdb) (chapterId : Z) : option Z :=
  match chaptersById d chapterId with
  | [] => None
  | ch :: _ => Some (member_count ch)
  end.

(** [INSERT INTO chapter_members (chapter_id, user_id, role, status)]:
    refused when the chapter does not exist (foreign key) or the pair is
    already there (unique key). *)
Definition insertMember (d : cdb) (chapterId uid : Z) (role status : string)
  : option cdb :=
  match chaptersById d chapterId, membership d chapterId uid with
  | _ :: _, [] =>
      Some {| chapters := chapters d;
              members :=
                members d ++
                [ {| member_id := next_member_id d;
                     m_chapter_id := chapterId; m_user_id := uid;
                     m_role := role; m_status := status |} ];
              posts := posts d;
              next_chapter_id := next_chapter_id d;
              next_member_id := next_member_id d + 1;
              next_post_id := next_post_id d |}
  | _, _ => None
  end.

(** [UPDATE alumni_chapters SET member_count = f(member_count)
     WHERE chapter_id = ?] *)
Definition updateMemberCount (f : Z -> Z) (d : cdb) (chapterId : Z) : cdb :=
  {| chapters :=
       map (fun ch => if chapter_id ch =? chapterId
                      then {| chapter_id := chapter_id ch;
                              chapter_name := chapter_name ch;
                              college_name := college_name ch;
                              created_by := created_by ch;
                              member_count := f (member_count ch) |}
                      else ch)
           (chapters d);
     members := members d; posts := posts d;
     next_chapter_id := next_chapter_id d;
     next_member_id := next_member_id d;
     next_post_id := next_post_id d |}.

(** [UPDATE chapter_members SET status = ? WHERE id = ?] *)
Definition setMemberStatus (d : cdb) (memberId : Z) (status : string) : cdb :=
  {| chapters := chapters d;
     members :=
       map (fun m => if member_id m =? memberId
                     then {| member_id := member_id m;
                             m_chapter_id := m_chapter_id m;
                             m_user_id := m_user_id m;
                             m_role := m_role m;
                             m_status := status |}
                     else m)
           (members d);
     posts := posts d;
     next_chapter_id := next_chapter_id d;
     next_member_id := next_member_id d;
     next_post_id := next_post_id d |}.

(** [body(field).notEmpty().withMessage(msg)]: the message, when the field
    is absent or empty. *)
Definition notEmpty (field : option string) (msg : string) : list string :=
  if falsy field then [msg] else [].

(** [POST /]: create a chapter; the creator becomes its first member, an
    approved admin, and the counter is set to 1. *)
Definition createChapter (c : caller) (name college : option string)
           (d : cdb) : answer * cdb :=
  let errors := (notEmpty name "Chapter name is required"
                 ++ notEmpty college "College name is required")%list in
  match name, college with
  | Some chapterName, Some collegeName =>
      if negb (List.length errors =? 0)%nat then (Invalid errors, d)
      else
        let insertId := next_chapter_id d in
        let d1 :=
          {| chapters :=
               chapters d ++
               [ {| chapter_id := insertId; chapter_name := chapterName;
                    college_name := collegeName; created_by := userId c;
                    member_count := 0 |} ];
             members := members d; posts := posts d;
             next_chapter_id := next_chapter_id d + 1;
             next_member_id := next_member_id d;
             next_post_id := next_post_id d |} in
        match insertMember d1 insertId (userId c) "admin" "approved" with
        | None => (Fail 500 "Failed to create chapter", d1)
        | Some d2 =>
            let d3 := updateMemberCount (fun _ => 1) d2 insertId in
            (OkId 201 "Chapter created successfully" insertId, d3)
        end
  | _, _ => (Invalid errors, d)
  end.

(** [POST /:id/join] *)
Definition join (c : caller) (id : Z) (d : cdb) : answer * cdb :=
  let existing := membership d id (userId c) in
  if (0 <? List.length existing)%nat
  then (Fail 400 "Already requested or member", d)
  else
    match insertMember d id (userId c) "member" "pending" with
    | None => (Fail 500 "Failed to join chapter", d)
    | Some d1 => (Ok 201 "Join request submitted successfully", d1)
    end.

(** [['approved', 'rejected'].includes(status)] *)
Definition decisionValid (status : option string) : bool :=
  match status with
  | Some s => String.eqb s "approved" || String.eqb s "rejected"
  | None => false
  end.

(** [PUT /:id/members/:memberId] *)
Definition updateMember (c : caller) (id memberId : Z)
           (status : option string) (d : cdb) : answer * cdb :=
  match status with
  | Some s =>
      if negb (decisionValid status) then (Fail 400 "Invalid status", d)
      else
        let admins := adminMembership d id (userId c) in
        if (List.length admins =? 0)%nat
           && negb (role_eqb (callerRole c) admin)
        then (Fail 403 "Not authorized", d)
        else
          let d1 := setMemberStatus d memberId s in
          let d2 := if String.eqb s "approved"
                    then updateMemberCount (fun n => n + 1) d1 id
                    else d1 in
          (Ok 200 ("Member " ++ s), d2)
  | None => (Fail 400 "Invalid status", d)
  end.

Definition postTypes : list string :=
  [ "job"; "internship"; "announcement"; "event"; "mentoring" ].

(** [body('type').isIn(postTypes)], with the validator's default message. *)
Definition isInTypes (field : option string) : list string :=
  match field with
  | Some t => if existsb (String.eqb t) postTypes then [] else ["Invalid value"]
  | None => ["Invalid value"]
  end.

(** [INSERT INTO chapter_posts ...]: refused when the chapter does not
    exist (foreign key). *)
Definition insertPost (d : cdb) (chapterId uid : Z) (type title descr : string)
  : option (Z * cdb) :=
  match chaptersById d chapterId with
  | [] => None
  | _ :: _ =>
      Some (next_post_id d,
            {| chapters := chapters d; members := members d;
               posts := posts d ++
                        [ {| post_id := next_post_id d;
                             p_chapter_id := chapterId; posted_by := uid;
                             p_type := type; p_title := title;
                             p_description := descr |} ];
               next_chapter_id := next_chapter_id d;
               next_member_id := next_member_id d;
               next_post_id := next_post_id d + 1 |})
  end.

(** [POST /:id/posts] *)
Definition createPost (c : caller) (id : Z) (type title descr : option string)
           (d : cdb) : answer * cdb :=
  let errors := (isInTypes type ++ notEmpty title "Title is required"
                 ++ notEmpty descr "Description is required")%list in
  match type, title, descr with
  | Some ty, Some ti, Some de =>
      if negb (List.length errors =? 0)%nat then (Invalid errors, d)
      else
        let membership := approvedMembership d id (userId c) in
        if (List.length membership =? 0)%nat
           && negb (role_eqb (callerRole c) admin)
        then (Fail 403 "Must be a member to post", d)
        else
          match insertPost d id (userId c) ty ti de with
          | None => (Fail 500 "Failed to create post", d)
          | Some (postId, d1) => (OkId 201 "Post created successfully" postId, d1)
          end
  | _, _, _ => (Invalid errors, d)
  end.

End Chapters.

(* ================================================================== *)
(** ** More sample callers and stores *)
(* ================================================================== *)

Module MoreSamples.
Import Store Chapters.

Definition root : caller := {| userId := 1; callerRole := admin |}.
Definition alum : caller := {| userId := 4; callerRole := alumni |}.

(** One chapter (id 2) founded by user 4, its admin and only member. *)
Definition oneChapter : cdb :=
  {| chapters := [ {| chapter_id := 2; chapter_name := "Class of 2020";
                      college_name := "Tech"; created_by := 4;
                      member_count := 1 |} ];
     members := [ {| member_id := 1; m_chapter_id := 2; m_user_id := 4;
                     m_role := "admin"; m_status := "approved" |} ];
     posts := [];
     next_chapter_id := 3; next_member_id := 2; next_post_id := 1 |}.

Definition noChapters : cdb :=
  {| chapters := []; members := []; posts := [];
     next_chapter_id := 1; next_member_id := 1; next_post_id := 1 |}.

End MoreSamples.

(* ================================================================== *)
(** * Properties *)
(* ================================================================== *)

(** ** Strings *)

Module StringFacts.
Import JsString Notions.

Lemma app_assoc (a b c : string) : (a ++ b) ++ c = a ++ (b ++ c).
Proof. induction a as [|x a IH]; simpl; [reflexivity | now rewrite IH]. Qed.

Lemma app_nil_r (a : string) : a ++ EmptyString = a.
Proof. induction a as [|x a IH]; simpl; [reflexivity | now rewrite IH]. Qed.

Lemma length_app (a b : string) :
  String.length (a ++ b) = (String.length a + String.length b)%nat.
Proof. induction a as [|x a IH]; simpl; [reflexivity | now rewrite IH]. Qed.

Lemma toLowerCase_app (a b : string) :
  toLowerCase (a ++ b) = toLowerCase a ++ toLowerCase b.
Proof. induction a as [|x a IH]; simpl; [reflexivity | now rewrite IH]. Qed.

Lemma toLowerCase_length (a : string) :
  String.length (toLowerCase a) = String.length a.
Proof. induction a as [|x a IH]; simpl; [reflexivity | now rewrite IH]. Qed.

(** A split of the lower-cased text is the image of a split of the text. *)
Lemma toLowerCase_split (s a b : string) :
  toLowerCase s = a ++ b ->
  exists s1 s2, s = s1 ++ s2 /\ toLowerCase s1 = a /\ toLowerCase s2 = b.
Proof.
  revert s. induction a as [|x a IH]; intros s H.
  - exists EmptyString, s. simpl in *. auto.
  - destruct s as [|y s]; simpl in H; [discriminate|].
    injection H as Hx Hs.
    destruct (IH _ Hs) as (s1 & s2 & -> & H1 & H2).
    exists (String y s1), s2. simpl. rewrite Hx, H1. auto.
Qed.

Lemma startsWith_spec (s kw : string) :
  startsWith s kw = true <-> exists post, s = kw ++ post.
Proof.
  revert s. induction kw as [|a kw IH]; intros s; simpl.
  - split; [intros _; now exists s | reflexivity].
  - destruct s as [|b s].
    + split; [discriminate | intros [post H]; discriminate].
    + rewrite andb_true_iff, IH, Ascii.eqb_eq. split.
      * intros [-> [post ->]]. now exists post.
      * intros [post H]. injection H as -> ->. split; [reflexivity|].
        now exists post.
Qed.

Lemma includes_spec (s kw : string) :
  includes s kw = true <-> exists pre post, s = pre ++ kw ++ post.
Proof.
  induction s as [|b s IH].
  - simpl. rewrite orb_false_r, startsWith_spec. split.
    + intros [post H]. now exists EmptyString, post.
    + intros (pre & post & H). destruct pre; [|discriminate].
      now exists post.
  - cbn [includes]. rewrite orb_true_iff, startsWith_spec, IH. split.
    + intros [[post H] | (pre & post & H)].
      * now exists EmptyString, post.
      * exists (String b pre), post. simpl. now rewrite H.
    + intros (pre & post & H). destruct pre as [|x pre].
      * left. now exists post.
      * right. simpl in H. injection H as _ H. now exists pre, post.
Qed.

(** [lower.includes(kw)] on the lower-cased text finds [kw] letter case
    aside. *)
Lemma includes_toLowerCase (s kw : string) :
  includes (toLowerCase s) (toLowerCase kw) = true
  <-> occursIgnoringCase kw s.
Proof.
  rewrite includes_spec. unfold occursIgnoringCase. split.
  - intros (pre & post & H).
    destruct (toLowerCase_split _ _ _ H) as (s1 & s2 & -> & H1 & H2).
    destruct (toLowerCase_split _ _ _ H2) as (x & s3 & -> & Hx & H3).
    now exists s1, x, s3.
  - intros (pre & x & post & -> & Hx).
    exists (toLowerCase pre), (toLowerCase post).
    now rewrite !toLowerCase_app, Hx.
Qed.

(** Reversal, as used by [trimEnd]. *)
Lemma rev_app (a b : string) : rev (a ++ b) = rev b ++ rev a.
Proof.
  induction a as [|x a IH]; simpl.
  - now rewrite app_nil_r.
  - now rewrite IH, app_assoc.
Qed.

Lemma rev_involutive (a : string) : rev (rev a) = a.
Proof.
  induction a as [|x a IH]; simpl; [reflexivity|].
  rewrite rev_app, IH. reflexivity.
Qed.

Lemma allWhiteSpace_rev (a : string) :
  allWhiteSpace (rev a) = allWhiteSpace a.
Proof.
  assert (A : forall x y, allWhiteSpace (x ++ y)
                          = allWhiteSpace x && allWhiteSpace y).
  { intros x y. induction x as [|c x IH]; simpl; [reflexivity|].
    now rewrite IH, andb_assoc. }
  induction a as [|c a IH]; simpl; [reflexivity|].
  rewrite A, IH. simpl. rewrite andb_true_r. apply andb_comm.
Qed.

(** [trimStart] removes a run of white space from the front, and all of
    it. *)
Lemma trimStart_spec (s : string) :
  exists ws, s = ws ++ trimStart s
             /\ allWhiteSpace ws = true
             /\ startsWithWhiteSpace (trimStart s) = false.
Proof.
  induction s as [|c s (ws & E & Hws & Hhead)].
  - now exists EmptyString.
  - simpl. destruct (isWhiteSpace c) eqn:Hc.
    + exists (String c ws). simpl. rewrite Hc, Hws, <- E. auto.
    + exists EmptyString. simpl. auto.
Qed.

(** [trim] removes a run of white space from each end, and all of it: the
    result neither starts nor ends with white space. *)
Lemma trim_spec (s : string) :
  exists ws1 ws2,
    s = ws1 ++ trim s ++ ws2
    /\ allWhiteSpace ws1 = true /\ allWhiteSpace ws2 = true
    /\ startsWithWhiteSpace (trim s) = false
    /\ startsWithWhiteSpace (rev (trim s)) = false.
Proof.
  destruct (trimStart_spec s) as (ws1 & E1 & H1 & Hhead).
  destruct (trimStart_spec (rev (trimStart s))) as (ws2 & E2 & H2 & Hlast).
  exists ws1, (rev ws2). unfold trim, trimEnd.
  assert (E : trimStart s
              = rev (trimStart (rev (trimStart s))) ++ rev ws2).
  { rewrite <- rev_app, <- E2. symmetry. apply rev_involutive. }
  split; [now rewrite <- E|].
  split; [exact H1|]. split; [now rewrite allWhiteSpace_rev|].
  split; [|now rewrite rev_involutive].
  destruct (rev (trimStart (rev (trimStart s)))) as [|c t] eqn:Et;
    [reflexivity|].
  rewrite E in Hhead. exact Hhead.
Qed.


(** [split] yields at least one piece. *)
Lemma splitGo_nonempty (s cur : string) (inSep : bool) :
  splitGo s cur inSep <> [].
Proof.
  revert cur inSep. induction s as [|c s IH]; intros cur inSep; simpl.
  - discriminate.
  - destruct (isWhiteSpace c); [destruct inSep|]; try apply IH.
    discriminate.
Qed.

Lemma allBool_spec (f : bool -> bool) :
  allBool f = true -> forall b, f b = true.
Proof.
  unfold allBool. rewrite andb_true_iff. intros [Ht Hf] []; assumption.
Qed.

Lemma allAscii_spec (f : ascii -> bool) :
  allAscii f = true -> forall c, f c = true.
Proof.
  unfold allAscii. intros H [b0 b1 b2 b3 b4 b5 b6 b7].
  apply (allBool_spec _) with (b := b0) in H.
  apply (allBool_spec _) with (b := b1) in H.
  apply (allBool_spec _) with (b := b2) in H.
  apply (allBool_spec _) with (b := b3) in H.
  apply (allBool_spec _) with (b := b4) in H.
  apply (allBool_spec _) with (b := b5) in H.
  apply (allBool_spec _) with (b := b6) in H.
  apply (allBool_spec _) with (b := b7) in H.
  exact H.
Qed.

(** Lower-casing leaves a word of small letters as it is. *)
Lemma toLowerChar_lower (c : ascii) :
  isLowerLetter c = true -> toLowerChar c = c.
Proof.
  intros H.
  assert (A : allAscii (fun c => implb (isLowerLetter c)
                                   (Ascii.eqb (toLowerChar c) c)) = true)
    by (vm_compute; reflexivity).
  apply allAscii_spec with (c := c) in A.
  rewrite H in A. simpl in A. now apply Ascii.eqb_eq.
Qed.

Lemma toLowerCase_lowerWord (w : string) :
  lowerWord w = true -> toLowerCase w = w.
Proof.
  induction w as [|c w IH]; simpl; [reflexivity|].
  rewrite andb_true_iff. intros [Hc Hw].
  now rewrite toLowerChar_lower, IH.
Qed.

End StringFacts.

(** ** Regular expressions *)

Module RegexFacts.
Import JsString Regex Notions StringFacts.

(** With the [i] flag a small letter of the pattern matches exactly the
    code units that lower-case to it. *)
Lemma chrMatches_lower (c x : ascii) :
  isLowerLetter c = true ->
  chrMatches true c x = Ascii.eqb (toLowerChar x) c.
Proof.
  intros H.
  assert (A : allAscii (fun c => implb (isLowerLetter c)
                (allAscii (fun x => Bool.eqb (chrMatches true c x)
                                      (Ascii.eqb (toLowerChar x) c))))
              = true) by (vm_compute; reflexivity).
  apply allAscii_spec with (c := c) in A. rewrite H in A. simpl in A.
  apply allAscii_spec with (c := x) in A. now apply Bool.eqb_prop.
Qed.

(** A literal word matches the prefixes that lower-case to it. *)
Lemma m_lit (w s : string) (k : string -> bool) :
  lowerWord w = true ->
  (m true (lit w) s k = true
   <-> exists x rest, s = x ++ rest /\ toLowerCase x = w /\ k rest = true).
Proof.
  revert s k. induction w as [|c w IH]; intros s k Hw.
  - simpl. split.
    + intros Hk. exists EmptyString, s. auto.
    + intros (x & rest & -> & Hx & Hk). destruct x; [exact Hk | discriminate].
  - simpl in Hw. apply andb_true_iff in Hw as [Hc Hw]. cbn [lit m].
    destruct s as [|y s].
    + split; [discriminate|].
      intros (x & rest & Hs & Hx & _). destruct x; discriminate.
    + rewrite andb_true_iff, chrMatches_lower by assumption.
      rewrite Ascii.eqb_eq, (IH s k Hw). split.
      * intros [Hy (x & rest & -> & Hx & Hk)].
        exists (String y x), rest. simpl. rewrite Hy, Hx. auto.
      * intros (x & rest & Hs & Hx & Hk). destruct x as [|z x];
          [discriminate|]. simpl in Hs, Hx.
        injection Hs as -> ->. injection Hx as Hz Hx.
        split; [assumption|]. now exists x, rest.
Qed.

(** An alternation of words matches where one of its words does. *)
Lemma m_alts (ws : list string) (s : string) (k : string -> bool) :
  ws <> [] -> forallb lowerWord ws = true ->
  (m true (alts ws) s k = true
   <-> exists w x rest,
         In w ws /\ s = x ++ rest /\ toLowerCase x = w /\ k rest = true).
Proof.
  induction ws as [|w ws IH]; intros Hne Hall; [congruence|].
  simpl in Hall. apply andb_true_iff in Hall as [Hw Hws].
  destruct ws as [|w' ws].
  - cbn [alts]. rewrite m_lit by assumption. split.
    + intros (x & rest & H). exists w, x, rest. simpl. tauto.
    + intros (w0 & x & rest & [<- | []] & H). now exists x, rest.
  - change (alts (w :: w' :: ws)) with (Alt (lit w) (alts (w' :: ws))).
    cbn [m]. rewrite orb_true_iff, m_lit, IH by (assumption || congruence).
    split.
    + intros [(x & rest & H) | (w0 & x & rest & Hin & H)].
      * exists w, x, rest. simpl. tauto.
      * exists w0, x, rest. split; [now right | assumption].
    + intros (w0 & x & rest & [<- | Hin] & H).
      * left. now exists x, rest.
      * right. now exists w0, x, rest.
Qed.

(** [test] finds a match at some position. *)
Lemma test_spec (i : bool) (r : regex) (s : string) :
  test i r s = true
  <-> exists pre rest,
        s = pre ++ rest /\ m i r rest (fun _ => true) = true.
Proof.
  induction s as [|c s IH]; cbn [test].
  - rewrite orb_false_r. split.
    + intros H. now exists EmptyString, EmptyString.
    + intros (pre & rest & Hs & H). destruct pre; [|discriminate].
      simpl in Hs. now subst rest.
  - rewrite orb_true_iff, IH. split.
    + intros [H | (pre & rest & -> & H)].
      * now exists EmptyString, (String c s).
      * now exists (String c pre), rest.
    + intros (pre & rest & Hs & H). destruct pre as [|x pre].
      * left. simpl in Hs. now subst rest.
      * right. simpl in Hs. injection Hs as _ ->. now exists pre, rest.
Qed.

(** A starred pattern denotes the empty string or a non-empty round
    followed by more rounds. *)
Lemma matches_star_inv (i : bool) (r : regex) (x : string) :
  matches i (Star r) x ->
  x = EmptyString
  \/ exists x1 x2, x = x1 ++ x2 /\ x1 <> EmptyString
                   /\ matches i r x1 /\ matches i (Star r) x2.
Proof.
  intros H. remember (Star r) as sr eqn:E.
  induction H as [ | | | | | | r0 | r0 x y Hx _ Hy IH | ]; try discriminate.
  - now left.
  - injection E as ->. destruct x as [|a x].
    + simpl. now apply IH.
    + right. exists (String a x), y. repeat split; [discriminate | | ];
        assumption.
Qed.

Lemma length_app_lt (x rest : string) :
  x <> EmptyString ->
  (String.length rest <? String.length (x ++ rest))%nat = true.
Proof.
  intros Hx. apply Nat.ltb_lt. rewrite length_app.
  destruct x; [congruence | simpl; lia].
Qed.

(** The rounds of a star, given the matcher of the starred pattern. *)
Lemma iter_correct (i : bool) (r : regex) (k : string -> bool) :
  (forall s k', m i r s k' = true
                <-> exists x rest, s = x ++ rest /\ matches i r x
                                   /\ k' rest = true) ->
  forall fuel s,
    (String.length s <= fuel)%nat ->
    (iter (m i r) k fuel s = true
     <-> exists x rest, s = x ++ rest /\ matches i (Star r) x
                        /\ k rest = true).
Proof.
  intros IHr. induction fuel as [|fuel IH]; intros s Hlen.
  - destruct s; [|simpl in Hlen; lia]. simpl. split.
    + intros Hk. exists EmptyString, EmptyString.
      repeat split; [constructor | exact Hk].
    + intros (x & rest & Hs & _ & Hk).
      destruct x; [|discriminate]. simpl in Hs. now subst rest.
  - cbn [iter]. rewrite orb_true_iff, IHr. split.
    + intros [(x1 & rest1 & -> & Hx1 & Hk) | Hk].
      * apply andb_true_iff in Hk as [Hlt Hk]. apply Nat.ltb_lt in Hlt.
        rewrite length_app in Hlt, Hlen.
        apply IH in Hk as (x2 & rest2 & -> & Hx2 & Hk); [|lia].
        exists (x1 ++ x2), rest2. rewrite app_assoc.
        repeat split; [now constructor | exact Hk].
      * exists EmptyString, s. repeat split; [constructor | exact Hk].
    + intros (x & rest & -> & Hx & Hk).
      apply matches_star_inv in Hx
        as [-> | (x1 & x2 & -> & Hne & Hx1 & Hx2)]; [now right|].
      left. exists x1, (x2 ++ rest). rewrite app_assoc.
      repeat split; [exact Hx1|].
      rewrite length_app_lt by assumption. cbn [andb].
      apply IH.
      * rewrite app_assoc, length_app in Hlen.
        destruct x1; [congruence | simpl in Hlen; lia].
      * now exists x2, rest.
Qed.

(** The matcher agrees with the denotation of the pattern: [m] succeeds
    exactly when a prefix in the denotation leaves a rest the continuation
    accepts. *)
Theorem m_correct (i : bool) (r : regex) :
  forall s k,
    m i r s k = true
    <-> exists x rest, s = x ++ rest /\ matches i r x /\ k rest = true.
Proof.
  induction r as [ | c | p | r1 IH1 r2 IH2 | r1 IH1 r2 IH2 | r IH | r IH ];
    intros s k; cbn [m].
  - split.
    + intros Hk. exists EmptyString, s. repeat split; [constructor | exact Hk].
    + intros (x & rest & -> & Hx & Hk). inversion Hx; subst. exact Hk.
  - destruct s as [|a s].
    + split; [discriminate|].
      intros (x & rest & Hs & Hx & _). inversion Hx; subst. discriminate.
    + rewrite andb_true_iff. split.
      * intros [Hc Hk]. exists (String a EmptyString), s.
        repeat split; [now constructor | exact Hk].
      * intros (x & rest & Hs & Hx & Hk). inversion Hx; subst.
        simpl in Hs. injection Hs as -> ->. now split.
  - destruct s as [|a s].
    + split; [discriminate|].
      intros (x & rest & Hs & Hx & _). inversion Hx; subst. discriminate.
    + rewrite andb_true_iff. split.
      * intros [Hc Hk]. exists (String a EmptyString), s.
        repeat split; [now constructor | exact Hk].
      * intros (x & rest & Hs & Hx & Hk). inversion Hx; subst.
        simpl in Hs. injection Hs as -> ->. now split.
  - rewrite IH1. split.
    + intros (x & rest & -> & Hx & Hk).
      apply IH2 in Hk as (y & rest' & -> & Hy & Hk).
      exists (x ++ y), rest'. rewrite app_assoc.
      repeat split; [now constructor | exact Hk].
    + intros (xy & rest & -> & Hxy & Hk). inversion Hxy; subst.
      exists x, (y ++ rest). rewrite app_assoc.
      repeat split; [assumption|]. apply IH2. now exists y, rest.
  - rewrite orb_true_iff, IH1, IH2. split.
    + intros [(x & rest & -> & Hx & Hk) | (x & rest & -> & Hx & Hk)];
        exists x, rest; repeat split;
        [now apply MAltL | exact Hk | now apply MAltR | exact Hk].
    + intros (x & rest & -> & Hx & Hk). inversion Hx; subst;
        [left | right]; now exists x, rest.
  - apply (iter_correct i r k IH). lia.
  - rewrite IH. split.
    + intros (x & rest & -> & Hx & Hk).
      apply (iter_correct i r k IH) in Hk as (y & rest' & -> & Hy & Hk);
        [|lia].
      exists (x ++ y), rest'. rewrite app_assoc.
      repeat split; [now constructor | exact Hk].
    + intros (xy & rest & -> & Hxy & Hk). inversion Hxy; subst.
      exists x, (y ++ rest). rewrite app_assoc.
      repeat split; [assumption|].
      apply (iter_correct i r k IH); [lia|]. now exists y, rest.
Qed.

(** [test] holds exactly when some substring is in the denotation. *)
Theorem test_correct (i : bool) (r : regex) (s : string) :
  test i r s = true
  <-> exists pre x post, s = pre ++ x ++ post /\ matches i r x.
Proof.
  rewrite test_spec. split.
  - intros (pre & rest & -> & H).
    apply m_correct in H as (x & post & -> & Hx & _). now exists pre, x, post.
  - intros (pre & x & post & -> & Hx). exists pre, (x ++ post).
    split; [reflexivity|]. apply m_correct. now exists x, post.
Qed.

(** Testing an alternation of small-letter words is a search for one of
    the words, letter case aside. *)
Lemma test_alts (ws : list string) (s : string) :
  ws <> [] -> forallb lowerWord ws = true ->
  (test true (alts ws) s = true
   <-> exists w, In w ws /\ occursIgnoringCase w s).
Proof.
  intros Hne Hall. rewrite test_spec. unfold occursIgnoringCase. split.
  - intros (pre & rest & -> & H).
    apply (m_alts _ _ _ Hne Hall) in H as (w & x & post & Hin & -> & Hx & _).
    exists w. split; [assumption|]. exists pre, x, post.
    split; [reflexivity|].
    rewrite Hx. symmetry. apply toLowerCase_lowerWord.
    rewrite forallb_forall in Hall. now apply Hall.
  - intros (w & Hin & pre & x & post & -> & Hx).
    exists pre, (x ++ post). split; [reflexivity|].
    apply (m_alts _ _ _ Hne Hall). exists w, x, post.
    repeat split; try assumption.
    rewrite Hx. apply toLowerCase_lowerWord.
    rewrite forallb_forall in Hall. now apply Hall.
Qed.

End RegexFacts.

(** ** Resume analyzer *)

Module ResumeFacts.
Import JsString Regex Notions StringFacts Resume.

Lemma keywords_lower : forallb lowerWord keywords = true.
Proof. reflexivity. Qed.

Lemma keywords_NoDup : NoDup keywords.
Proof.
  unfold keywords.
  repeat (constructor;
          [ simpl; intuition discriminate | ]).
  constructor.
Qed.

(** A keyword is found when it occurs in the text, letter case aside. *)
Lemma foundKeywords_spec (text kw : string) :
  In kw (foundKeywords text)
  <-> In kw keywords /\ occursIgnoringCase kw text.
Proof.
  unfold foundKeywords. rewrite filter_In.
  assert (L : In kw keywords -> toLowerCase kw = kw).
  { intros Hin. apply toLowerCase_lowerWord.
    pose proof keywords_lower as K. rewrite forallb_forall in K.
    now apply K. }
  split; intros [Hin H]; (split; [assumption|]).
  - apply includes_toLowerCase. now rewrite (L Hin).
  - apply includes_toLowerCase in H. now rewrite (L Hin) in H.
Qed.

Lemma missingKeywords_spec (text kw : string) :
  In kw (missingKeywords text)
  <-> In kw keywords /\ ~ occursIgnoringCase kw text.
Proof.
  unfold missingKeywords. rewrite filter_In, negb_true_iff.
  rewrite <- not_true_iff_false.
  assert (L : In kw keywords -> toLowerCase kw = kw).
  { intros Hin. apply toLowerCase_lowerWord.
    pose proof keywords_lower as K. rewrite forallb_forall in K.
    now apply K. }
  split; intros [Hin H]; (split; [assumption|]); intros C; apply H.
  - apply includes_toLowerCase in C. now rewrite (L Hin) in C.
  - apply includes_toLowerCase. now rewrite (L Hin).
Qed.

Lemma filter_partition_length {A : Type} (f : A -> bool) (l : list A) :
  (List.length (filter f l)
   + List.length (filter (fun x => negb (f x)) l))%nat = List.length l.
Proof.
  induction l as [|x l IH]; simpl; [reflexivity|].
  destruct (f x); simpl; lia.
Qed.

Lemma found_missing_length (text : string) :
  (List.length (foundKeywords text)
   + List.length (missingKeywords text))%nat = 15%nat.
Proof.
  unfold foundKeywords, missingKeywords.
  now rewrite filter_partition_length.
Qed.

Lemma foundKeywords_le (text : string) :
  (List.length (foundKeywords text) <= 15)%nat.
Proof. pose proof (found_missing_length text). lia. Qed.

(** A text that passes the length check is not the empty string. *)
Lemma accepted_not_falsy (text : string) :
  (20 <= String.length (trim text))%nat ->
  falsy (Some text) || (String.length (trim text) <? 20)%nat = false.
Proof.
  intros H. apply orb_false_iff. split.
  - destruct text; [simpl in H; lia | reflexivity].
  - apply Nat.ltb_ge. exact H.
Qed.

Lemma score_bounds (text : string) : 20 <= score text <= 100.
Proof.
  unfold score. pose proof (foundKeywords_le text).
  destruct (hasMetrics text), (150 <? String.length text)%nat; lia.
Qed.

Lemma pushIf_nil_inv (c : bool) (t : string) (l : list string) :
  pushIf c t l = [] -> c = false /\ l = [].
Proof.
  unfold pushIf. destruct c; intros H; [|auto].
  destruct l; discriminate.
Qed.

Lemma tips_nonempty (text : string) : tips text <> [].
Proof.
  unfold tips.
  destruct (personalizedTips text) as [|t l] eqn:E; simpl; discriminate.
Qed.

(** C1.  An accepted resume text (trimmed length at least 20) is answered
    with [score = min(100, 8*|foundKeywords| + 25*[hasMetrics]
    + 15*[length > 150] + 20)], where [foundKeywords] are the keywords of
    the fixed list of 15 that occur in the text letter case aside, each
    counted once, and [hasMetrics] is the match of the quantifier pattern;
    the score lies between 0 and 100 and the tips are not empty. *)
Theorem analyzeResume_score (text : string) :
  (20 <= String.length (trim text))%nat ->
  exists r,
    analyzeResume (Some text) = Success 200 r
    /\ a_score r =
         Z.min 100 (8 * Z.of_nat (List.length (foundKeywords text))
                    + (if hasMetrics text then 25 else 0)
                    + (if (150 <? String.length text)%nat then 15 else 0)
                    + 20)
    /\ List.length keywords = 15%nat
    /\ (forall kw, In kw (foundKeywords text)
                   <-> In kw keywords /\ occursIgnoringCase kw text)
    /\ NoDup (foundKeywords text)
    /\ a_hasMetrics r = hasMetrics text
    /\ (hasMetrics text = true
        <-> exists pre x post,
              text = pre ++ x ++ post /\ matches true metricPatterns x)
    /\ 0 <= a_score r <= 100
    /\ a_tips r <> [].
Proof.
  intros H. unfold analyzeResume. rewrite (accepted_not_falsy _ H).
  eexists. split; [reflexivity|]. cbn [a_score a_tips a_hasMetrics].
  pose proof (score_bounds text) as B.
  split; [unfold score; f_equal; lia|].
  split; [reflexivity|].
  split; [intros kw; apply foundKeywords_spec|].
  split; [apply NoDup_filter, keywords_NoDup|].
  split; [reflexivity|].
  split; [apply RegexFacts.test_correct|].
  split; [lia | apply tips_nonempty].
Qed.

(** C6.  A missing resume text, and one whose trimmed length is below 20,
    is rejected with status 400; the reply carries no score, tips or
    keywords. *)
Theorem analyzeResume_rejects (resumeText : option string) :
  (resumeText = None
   \/ exists text, resumeText = Some text
                   /\ (String.length (trim text) < 20)%nat) ->
  analyzeResume resumeText = Failure 400 tooShort
  /\ forall code r, analyzeResume resumeText <> Success code r.
Proof.
  intros H.
  assert (E : analyzeResume resumeText = Failure 400 tooShort).
  { destruct H as [-> | (text & -> & H)]; [reflexivity|].
    unfold analyzeResume. apply Nat.ltb_lt in H. rewrite H.
    now rewrite orb_true_r. }
  split; [exact E|]. intros code r. rewrite E. discriminate.
Qed.

Lemma analyzeResume_rejects_witness :
  (String.length (trim Samples.resumeShort) < 20)%nat
  /\ analyzeResume (Some Samples.resumeShort) = Failure 400 tooShort.
Proof.
  split.
  - vm_compute. lia.
  - apply (analyzeResume_rejects (Some Samples.resumeShort)).
    right. exists Samples.resumeShort. split; [reflexivity|].
    vm_compute. lia.
Defined.

Lemma analyzeResume_score_witness :
  (20 <= String.length (trim Samples.resumeA))%nat
  /\ exists r, analyzeResume (Some Samples.resumeA) = Success 200 r
               /\ a_score r = 77.
Proof.
  assert (H : (20 <= String.length (trim Samples.resumeA))%nat)
    by (vm_compute; lia).
  split; [exact H|].
  destruct (analyzeResume_score Samples.resumeA H) as (r & Hr & Hs & _).
  exists r. split; [exact Hr|]. rewrite Hs. reflexivity.
Defined.

(** The generic tips differ from each of the personalized ones. *)
Lemma generic_not_personal (g t : string) (ms : list string) :
  In g genericTips ->
  In t [tipMetrics; tipVerbs ms; tipExpand; tipProjects] ->
  g <> t.
Proof.
  intros Hg Ht E. subst t.
  cbn [In genericTips] in Hg.
  destruct Hg as [<- | [<- | [<- | []]]];
    destruct Ht as [E | [E | [E | [E | []]]]];
    unfold tipVerbs in E; cbn in E; discriminate E.
Qed.

Lemma missing_five (text : string) :
  (List.length (foundKeywords text) < 3)%nat ->
  exists k1 k2 k3 k4 k5 rest,
    missingKeywords text = k1 :: k2 :: k3 :: k4 :: k5 :: rest.
Proof.
  intros H. pose proof (found_missing_length text) as L.
  destruct (missingKeywords text) as [|k1 [|k2 [|k3 [|k4 [|k5 rest]]]]];
    simpl in L; try lia.
  now exists k1, k2, k3, k4, k5, rest.
Qed.

(** C9.  The tips of an accepted text are the tips of the conditions that
    hold among (a) no metrics, (b) fewer than 3 keywords found, with the
    first 5 missing keywords, (c) length below 150, (d) neither "project"
    nor "initiative" in the text, in this order; when none holds they are
    the three generic tips; no generic tip stands beside a personalized
    one. *)
Theorem tips_order (text : string) :
  (20 <= String.length (trim text))%nat ->
  exists r,
    analyzeResume (Some text) = Success 200 r /\
    let a := negb (hasMetrics text) in
    let b := (List.length (foundKeywords text) <? 3)%nat in
    let c := (String.length text <? 150)%nat in
    let d := negb (includes (toLowerCase text) "project")
             && negb (includes (toLowerCase text) "initiative") in
    let personal :=
      ((if a then [tipMetrics] else [])
       ++ (if b then [tipVerbs (missingKeywords text)] else [])
       ++ (if c then [tipExpand] else [])
       ++ (if d then [tipProjects] else []))%list in
    (d = true <-> ~ occursIgnoringCase "project" text
                  /\ ~ occursIgnoringCase "initiative" text)
    /\ (forall kw, In kw (missingKeywords text)
                   <-> In kw keywords /\ ~ occursIgnoringCase kw text)
    /\ (b = true ->
        exists k1 k2 k3 k4 k5 rest,
          missingKeywords text = k1 :: k2 :: k3 :: k4 :: k5 :: rest
          /\ tipVerbs (missingKeywords text)
             = "Include action verbs like: "
               ++ join ", " [k1; k2; k3; k4; k5])
    /\ (a || b || c || d = true ->
        a_tips r = personal
        /\ forall g, In g genericTips -> ~ In g (a_tips r))
    /\ (a || b || c || d = false -> a_tips r = genericTips)
    /\ List.length genericTips = 3%nat.
Proof.
  intros H. unfold analyzeResume. rewrite (accepted_not_falsy _ H).
  eexists. split; [reflexivity|]. cbn [a_tips]. cbv zeta.
  split; [|split; [|split; [|split; [|split]]]].
  - rewrite andb_true_iff, !negb_true_iff, <- !not_true_iff_false.
    change "project" with (toLowerCase "project") at 1.
    change "initiative" with (toLowerCase "initiative") at 1.
    now rewrite !includes_toLowerCase.
  - intros kw. apply missingKeywords_spec.
  - intros Hb. apply Nat.ltb_lt in Hb.
    destruct (missing_five _ Hb) as (k1 & k2 & k3 & k4 & k5 & rest & E).
    exists k1, k2, k3, k4, k5, rest. split; [exact E|].
    unfold tipVerbs. now rewrite E.
  - intros Hfire.
    assert (E : tips text =
                ((if negb (hasMetrics text) then [tipMetrics] else [])
                 ++ (if (List.length (foundKeywords text) <? 3)%nat
                     then [tipVerbs (missingKeywords text)] else [])
                 ++ (if (String.length text <? 150)%nat
                     then [tipExpand] else [])
                 ++ (if negb (includes (toLowerCase text) "project")
                        && negb (includes (toLowerCase text) "initiative")
                     then [tipProjects] else []))%list).
    { unfold tips, personalizedTips, pushIf.
      destruct (negb (hasMetrics text)),
               (List.length (foundKeywords text) <? 3)%nat,
               (String.length text <? 150)%nat,
               (negb (includes (toLowerCase text) "project")
                && negb (includes (toLowerCase text) "initiative"));
        try reflexivity; discriminate Hfire. }
    split; [exact E|].
    intros g Hg Hin. rewrite E in Hin.
    apply (generic_not_personal g g (missingKeywords text) Hg);
      [|reflexivity].
    rewrite !in_app_iff in Hin. cbn [In].
    destruct Hin as [Hin | [Hin | [Hin | Hin]]];
      match type of Hin with
      | In _ (if ?x then _ else _) => destruct x
      end; cbn [In] in Hin; tauto.
  - intros Hnone.
    apply orb_false_iff in Hnone as [Hnone Hd].
    apply orb_false_iff in Hnone as [Hnone Hc].
    apply orb_false_iff in Hnone as [Ha Hb].
    unfold tips, personalizedTips, pushIf.
    now rewrite Ha, Hb, Hc, Hd.
  - reflexivity.
Qed.

Lemma tips_order_witness :
  (20 <= String.length (trim Samples.resumeA))%nat
  /\ exists r, analyzeResume (Some Samples.resumeA) = Success 200 r
               /\ a_tips r = [tipExpand].
Proof.
  assert (H : (20 <= String.length (trim Samples.resumeA))%nat)
    by (vm_compute; lia).
  split; [exact H|].
  destruct (tips_order Samples.resumeA H) as (r & Hr & _ & _ & _ & Hp & _).
  exists r. split; [exact Hr|].
  destruct (Hp eq_refl) as [E _]. rewrite E. reflexivity.
Defined.

End ResumeFacts.

(** ** Mock interview *)

Module InterviewFacts.
Import JsString Regex Notions StringFacts RegexFacts Store Interview.

(** A STAR component is detected when one of its indicator words occurs
    in the response, letter case aside. *)
Lemma hasSituation_spec (r : string) :
  hasSituation r = true
  <-> exists w, In w situationWords /\ occursIgnoringCase w r.
Proof. apply test_alts; [discriminate | reflexivity]. Qed.

Lemma hasTask_spec (r : string) :
  hasTask r = true <-> exists w, In w taskWords /\ occursIgnoringCase w r.
Proof. apply test_alts; [discriminate | reflexivity]. Qed.

Lemma hasAction_spec (r : string) :
  hasAction r = true
  <-> exists w, In w actionWords /\ occursIgnoringCase w r.
Proof. apply test_alts; [discriminate | reflexivity]. Qed.

Lemma hasResult_spec (r : string) :
  hasResult r = true
  <-> exists w, In w resultWords /\ occursIgnoringCase w r.
Proof. apply test_alts; [discriminate | reflexivity]. Qed.

Lemma wordCount_pos (r : string) : 1 <= wordCount r.
Proof.
  unfold wordCount, splitWhiteSpace.
  pose proof (splitGo_nonempty (trim r) EmptyString false) as H.
  destruct (splitGo (trim r) EmptyString false); [congruence | simpl; lia].
Qed.

Lemma wordCount_nonneg (r : string) : 0 <= wordCount r.
Proof. pose proof (wordCount_pos r). lia. Qed.

Lemma starScore_range (r : string) : 0 <= starScore r <= 100.
Proof.
  unfold starScore.
  destruct (hasSituation r), (hasTask r), (hasAction r), (hasResult r); lia.
Qed.

Lemma lengthScore_range (r : string) : 0 <= lengthScore r <= 30.
Proof.
  unfold lengthScore. pose proof (wordCount_nonneg r) as W.
  assert (0 <= wordCount r / 10) by (apply Z.div_pos; lia). lia.
Qed.

Lemma totalScore_range (r : string) : 10 <= totalScore r <= 100.
Proof.
  unfold totalScore.
  pose proof (starScore_range r). pose proof (lengthScore_range r). lia.
Qed.

Lemma falsy_nonempty (s : string) :
  s <> EmptyString -> falsy (Some s) = false.
Proof. destruct s; [congruence | reflexivity]. Qed.

(** C2.  An accepted submission (prompt and response present and not
    empty) is answered with, and stored with, the score
    [totalScore = min(100, starScore + lengthScore + 10)]: the store after
    the call is the store before it with one more row at the end of
    [interview_practice], which carries the caller, the prompt, the
    response, the duration and that score.  [starScore] has
    25 points for each STAR component whose indicator words occur in the
    response letter case aside, [lengthScore] is
    [min(30, floor(wordCount / 10) * 5)] over the pieces of the trimmed
    response between runs of white space.  The total lies between 0 and
    100, and it is 100 for a response that has an indicator word of each
    of the four components and at least 150 words. *)
Theorem mockInterview_score (c : caller) (p r : string)
        (duration : option Z) (d : db) :
  p <> EmptyString -> r <> EmptyString ->
  exists ev,
    mockInterview c (Some p) (Some r) duration d
    = (Success 200 ev,
       {| profiles := profiles d; jobs := jobs d;
          applications := applications d;
          next_application_id := next_application_id d;
          interview_practice :=
            (interview_practice d ++
             [ {| ip_user_id := userId c; ip_prompt := p;
                  ip_response := r;
                  ip_duration := orNull duration;
                  ip_score := totalScore r |} ])%list |})
    /\ e_score ev = totalScore r
    /\ totalScore r = Z.min 100 (starScore r + lengthScore r + 10)
    /\ starScore r = (if hasSituation r then 25 else 0)
                     + (if hasTask r then 25 else 0)
                     + (if hasAction r then 25 else 0)
                     + (if hasResult r then 25 else 0)
    /\ (hasSituation r = true
        <-> exists w, In w ["situation"; "context"; "background"]
                      /\ occursIgnoringCase w r)
    /\ (hasTask r = true
        <-> exists w, In w ["task"; "goal"; "objective"; "challenge"]
                      /\ occursIgnoringCase w r)
    /\ (hasAction r = true
        <-> exists w, In w ["action"; "did"; "implemented"; "executed";
                            "performed"]
                      /\ occursIgnoringCase w r)
    /\ (hasResult r = true
        <-> exists w, In w ["result"; "outcome"; "impact"; "achieved";
                            "accomplished"]
                      /\ occursIgnoringCase w r)
    /\ wordCount r = Z.of_nat (List.length (splitWhiteSpace (trim r)))
    /\ lengthScore r = Z.min 30 (wordCount r / 10 * 5)
    /\ 0 <= totalScore r <= 100
    /\ (hasSituation r = true -> hasTask r = true ->
        hasAction r = true -> hasResult r = true ->
        150 <= wordCount r -> totalScore r = 100).
Proof.
  intros Hp Hr. unfold mockInterview.
  rewrite (falsy_nonempty _ Hp), (falsy_nonempty _ Hr). cbn [orb].
  eexists. split; [reflexivity|]. cbn [e_score].
  split; [reflexivity|]. split; [reflexivity|]. split; [reflexivity|].
  split; [apply hasSituation_spec|]. split; [apply hasTask_spec|].
  split; [apply hasAction_spec|]. split; [apply hasResult_spec|].
  split; [reflexivity|]. split; [reflexivity|].
  split; [pose proof (totalScore_range r); lia|].
  intros Hs Ht Ha Hres _. unfold totalScore, starScore.
  rewrite Hs, Ht, Ha, Hres. pose proof (lengthScore_range r). lia.
Qed.

Lemma mockInterview_score_witness :
  "Tell me about a challenge" <> EmptyString
  /\ Samples.starAnswer <> EmptyString
  /\ wordCount Samples.starAnswer = 160
  /\ totalScore Samples.starAnswer = 100.
Proof.
  assert (Hp : "Tell me about a challenge" <> EmptyString) by discriminate.
  assert (Hr : Samples.starAnswer <> EmptyString)
    by (vm_compute; discriminate).
  split; [exact Hp|]. split; [exact Hr|].
  split; [vm_compute; reflexivity|].
  destruct (mockInterview_score Samples.seeker _ _ None Samples.emptyDb
                                Hp Hr)
    as (ev & _ & _ & _ & _ & _ & _ & _ & _ & _ & _ & _ & Hfull).
  apply Hfull; vm_compute; (reflexivity || discriminate).
Defined.

(** C7.  A submission whose prompt or response is missing or empty is
    rejected with status 400 and the store is left as it was: no row of
    [interview_practice] is created. *)
Theorem mockInterview_rejects (c : caller) (prompt response : option string)
        (duration : option Z) (d : db) :
  falsy prompt = true \/ falsy response = true ->
  mockInterview c prompt response duration d
  = (Failure 400 "Prompt and response are required", d).
Proof.
  intros H. unfold mockInterview.
  destruct prompt as [p|], response as [r|]; try reflexivity.
  destruct H as [-> | ->]; [reflexivity | now rewrite orb_true_r].
Qed.

Lemma mockInterview_rejects_witness :
  falsy (Some EmptyString) = true
  /\ mockInterview Samples.seeker (Some "Tell me about a challenge")
                   (Some EmptyString) (Some 30) Samples.emptyDb
     = (Failure 400 "Prompt and response are required", Samples.emptyDb).
Proof.
  split; [reflexivity|].
  apply mockInterview_rejects. right. reflexivity.
Defined.

(** C10.  A response of a single space is not empty and is all white
    space; with any present, non-empty prompt it passes the required-field
    check, its word count is 1, and a row with score 10 is stored: the
    store after the call is the store before it with that row added at the
    end of [interview_practice]. *)
Theorem mockInterview_blank_response :
  exists r : string,
    r <> EmptyString
    /\ allWhiteSpace r = true
    /\ trim r = EmptyString
    /\ forall (c : caller) (a : ascii) (p : string) (duration : option Z)
              (d : db),
         exists ev,
           mockInterview c (Some (String a p)) (Some r) duration d
           = (Success 200 ev,
              {| profiles := profiles d; jobs := jobs d;
                 applications := applications d;
                 next_application_id := next_application_id d;
                 interview_practice :=
                   (interview_practice d ++
                    [ {| ip_user_id := userId c;
                         ip_prompt := String a p;
                         ip_response := r;
                         ip_duration := orNull duration;
                         ip_score := 10 |} ])%list |})
           /\ e_wordCount ev = 1
           /\ e_score ev = 10.
Proof.
  exists " ". split; [discriminate|]. split; [reflexivity|].
  split; [reflexivity|].
  intros c a p duration d. eexists. split; [|split].
  - unfold mockInterview. cbn [falsy orb]. reflexivity.
  - reflexivity.
  - reflexivity.
Qed.

End InterviewFacts.

(** ** Applications *)

Module ApplicationsFacts.
Import Store Applications.

Lemma filter_map_preserved {A : Type} (key : A -> bool) (upd : A -> A)
      (l : list A) :
  (forall x, key (upd x) = key x) ->
  filter key (map upd l) = map upd (filter key l).
Proof.
  intros K. induction l as [|x l IH]; simpl; [reflexivity|].
  rewrite K. destruct (key x); simpl; now rewrite IH.
Qed.

(** The counter update touches the counter of the job and nothing else. *)
Lemma jobsById_updateCount (f : Z -> Z) (d : db) (jobId k : Z) :
  jobsById (updateCount f d jobId) k
  = map (fun j => if job_id j =? jobId
                  then {| job_id := job_id j; job_user_id := job_user_id j;
                          applications_count := f (applications_count j) |}
                  else j)
        (jobsById d k).
Proof.
  unfold jobsById, updateCount. cbn [jobs set_jobs].
  apply filter_map_preserved. intros j.
  destruct (job_id j =? jobId); reflexivity.
Qed.

Lemma countOf_updateCount (f : Z -> Z) (d : db) (jobId : Z) :
  countOf (updateCount f d jobId) jobId = option_map f (countOf d jobId).
Proof.
  unfold countOf. rewrite jobsById_updateCount.
  destruct (jobsById d jobId) as [|j l] eqn:E; [reflexivity|].
  assert (Hj : (job_id j =? jobId) = true).
  { assert (In j (jobsById d jobId)) as Hin by (rewrite E; now left).
    unfold jobsById in Hin. now apply filter_In in Hin. }
  cbn [map]. now rewrite Hj.
Qed.

Lemma applications_updateCount (f : Z -> Z) (d : db) (jobId : Z) :
  applications (updateCount f d jobId) = applications d.
Proof. reflexivity. Qed.

(** C4.  When a user applies to an existing job to which they have not
    applied yet, and then applies again to the same job, the first call is
    answered 201 and the second 400 "Already applied to this job"; the
    second call leaves the store as the first left it, with one
    application row of that user for that job and the counter of the job
    one above its value before the first call. *)
Theorem apply_twice (c : caller) (jobId : Z)
        (cover1 file1 cover2 file2 : option string) (d : db) :
  jobsById d jobId <> [] ->
  applicationsOf d jobId (userId c) = [] ->
  exists d1 n,
    apply c jobId cover1 file1 d
    = (Success 201 "Application submitted successfully", d1)
    /\ apply c jobId cover2 file2 d1
       = (Failure 400 "Already applied to this job", d1)
    /\ List.length (applicationsOf d1 jobId (userId c)) = 1%nat
    /\ List.length (applications d1) = S (List.length (applications d))
    /\ countOf d jobId = Some n
    /\ countOf d1 jobId = Some (n + 1).
Proof.
  intros Hjob Hnew.
  assert (Hn : exists n, countOf d jobId = Some n).
  { unfold countOf. destruct (jobsById d jobId) as [|j l]; [congruence|].
    now exists (applications_count j). }
  destruct Hn as [n Hn].
  unfold apply at 1. rewrite Hnew. cbn [List.length Nat.ltb Nat.leb].
  unfold insertApplication. rewrite Hnew.
  destruct (jobsById d jobId) as [|j l] eqn:Ej; [congruence|].
  eexists. exists n. split; [reflexivity|].
  match goal with
  | |- apply _ _ _ _ (updateCount ?f ?d1 _) = _ /\ _ =>
      set (f1 := f); set (dIns := d1)
  end.
  assert (Hrows : applicationsOf (updateCount f1 dIns jobId) jobId (userId c)
                  = [ {| application_id := next_application_id d;
                         app_job_id := jobId; app_user_id := userId c;
                         app_resume :=
                           match file1 with
                           | Some filename => Some ("/uploads/" ++ filename)
                           | None =>
                               match filter (fun p => profile_user_id p
                                                      =? userId c)
                                            (profiles d) with
                               | [] => None
                               | p :: _ => profile_resume p
                               end
                           end;
                         app_cover_letter := cover1;
                         app_status := "pending" |} ]).
  { unfold applicationsOf. rewrite applications_updateCount.
    subst dIns. cbn [applications]. rewrite filter_app.
    unfold applicationsOf in Hnew. rewrite Hnew.
    cbn [filter app_job_id app_user_id app]. now rewrite !Z.eqb_refl. }
  split; [|split; [|split; [|split]]].
  - unfold apply. now rewrite Hrows.
  - now rewrite Hrows.
  - rewrite applications_updateCount. subst dIns. cbn [applications].
    rewrite length_app. simpl. lia.
  - exact Hn.
  - rewrite countOf_updateCount.
    assert (E : countOf dIns jobId = countOf d jobId) by reflexivity.
    rewrite E, Hn. subst f1. reflexivity.
Qed.

Lemma apply_twice_witness :
  jobsById Samples.oneJob 5 <> []
  /\ applicationsOf Samples.oneJob 5 7 = []
  /\ exists d1,
       apply Samples.seeker 5 (Some "Dear team") None Samples.oneJob
       = (Success 201 "Application submitted successfully", d1)
       /\ apply Samples.seeker 5 None (Some "cv2.pdf") d1
          = (Failure 400 "Already applied to this job", d1)
       /\ countOf d1 5 = Some 1.
Proof.
  assert (Hj : jobsById Samples.oneJob 5 <> []) by (vm_compute; discriminate).
  assert (Ha : applicationsOf Samples.oneJob 5 (userId Samples.seeker) = [])
    by reflexivity.
  split; [exact Hj|]. split; [exact Ha|].
  destruct (apply_twice Samples.seeker 5 (Some "Dear team") None None
                        (Some "cv2.pdf") Samples.oneJob Hj Ha)
    as (d1 & n & H1 & H2 & _ & _ & Hn & Hn1).
  exists d1. split; [exact H1|]. split; [exact H2|].
  rewrite Hn1. vm_compute in Hn. injection Hn as <-. reflexivity.
Defined.

(** The guard of [apply] keeps at most one application per job and user. *)
Lemma apply_at_most_one (c : caller) (jobId : Z)
      (cover file : option string) (d : db) :
  (forall j u, (List.length (applicationsOf d j u) <= 1)%nat) ->
  forall j u,
    (List.length (applicationsOf (snd (apply c jobId cover file d)) j u)
     <= 1)%nat.
Proof.
  intros Inv j u. unfold apply.
  destruct (applicationsOf d jobId (userId c)) as [|a0 l0] eqn:Hex;
    cbn [List.length Nat.ltb Nat.leb]; [|apply Inv].
  unfold insertApplication. rewrite Hex.
  destruct (jobsById d jobId) as [|j0 js]; cbn [snd]; [apply Inv|].
  unfold applicationsOf. rewrite applications_updateCount.
  cbn [applications]. rewrite filter_app, length_app.
  cbn [filter app_job_id app_user_id].
  destruct ((jobId =? j) && (userId c =? u)) eqn:E.
  - apply andb_true_iff in E as [Ej Eu].
    apply Z.eqb_eq in Ej, Eu. subst j u.
    unfold applicationsOf in Hex. rewrite Hex. simpl. lia.
  - cbn [List.length]. specialize (Inv j u).
    unfold applicationsOf in Inv. lia.
Qed.

Lemma everyRole_allowed (c : caller) : authorizeRoles everyRole c = true.
Proof. unfold authorizeRoles. destruct (callerRole c); reflexivity. Qed.

Lemma role_eqb_eq (a b : role) : role_eqb a b = true <-> a = b.
Proof. destruct a, b; simpl; split; congruence. Qed.

Lemma applicationsById_delete (d : db) (id : Z) :
  applicationsById (deleteApplication d id) id = [].
Proof.
  unfold applicationsById, deleteApplication. cbn [applications set_applications].
  induction (applications d) as [|a l IH]; simpl; [reflexivity|].
  destruct (application_id a =? id) eqn:E; simpl; [exact IH|].
  now rewrite E.
Qed.

(** C5.  Withdrawing an existing application, as its owner or as an
    admin, is answered 200, removes the rows with that id and no other,
    and sets the counter of its job to [max(counter - 1, 0)]: one less for
    a counter of at least 1, still 0 for a counter of 0, never negative. *)
Theorem withdraw_decrements (c : caller) (id : Z) (d : db)
        (a : application) (rest : list application) :
  applicationsById d id = a :: rest ->
  app_user_id a = userId c \/ callerRole c = admin ->
  exists d',
    withdraw c id d = (Success 200 "Application withdrawn successfully", d')
    /\ applicationsById d' id = []
    /\ applications d'
       = filter (fun x => negb (application_id x =? id)) (applications d)
    /\ forall n, countOf d (app_job_id a) = Some n ->
         countOf d' (app_job_id a) = Some (Z.max (n - 1) 0)
         /\ (1 <= n -> countOf d' (app_job_id a) = Some (n - 1))
         /\ (n = 0 -> countOf d' (app_job_id a) = Some 0)
         /\ (forall n', countOf d' (app_job_id a) = Some n' -> 0 <= n').
Proof.
  intros Hsel Hauth. unfold withdraw.
  rewrite everyRole_allowed, Hsel. cbn [negb].
  assert (G : negb (app_user_id a =? userId c)
              && negb (role_eqb (callerRole c) admin) = false).
  { destruct Hauth as [-> | ->]; [now rewrite Z.eqb_refl|].
    now rewrite andb_false_r. }
  rewrite G. eexists. split; [reflexivity|].
  split; [apply applicationsById_delete|].
  split; [reflexivity|].
  intros n Hn. rewrite countOf_updateCount.
  assert (E : countOf (deleteApplication d id) (app_job_id a)
              = countOf d (app_job_id a)) by reflexivity.
  rewrite E, Hn. cbn [option_map].
  split; [reflexivity|]. split; [intros; f_equal; lia|].
  split; [intros; f_equal; lia|].
  intros n' H'. injection H' as <-. lia.
Qed.

Lemma withdraw_decrements_witness :
  applicationsById Samples.staleCounter 1
  = [ {| application_id := 1; app_job_id := 5; app_user_id := 7;
         app_resume := None; app_cover_letter := None;
         app_status := "accepted" |} ]
  /\ exists d',
       withdraw Samples.seeker 1 Samples.staleCounter
       = (Success 200 "Application withdrawn successfully", d')
       /\ applications d' = []
       /\ countOf d' 5 = Some 0.
Proof.
  assert (Hs : applicationsById Samples.staleCounter 1
               = [ {| application_id := 1; app_job_id := 5; app_user_id := 7;
                      app_resume := None; app_cover_letter := None;
                      app_status := "accepted" |} ]) by reflexivity.
  split; [exact Hs|].
  destruct (withdraw_decrements Samples.seeker 1 Samples.staleCounter _ _ Hs
                                (or_introl eq_refl))
    as (d' & Hw & _ & Happs & Hcount).
  exists d'. split; [exact Hw|]. split; [rewrite Happs; reflexivity|].
  destruct (Hcount 0 eq_refl) as (_ & _ & H0 & _). now apply H0.
Defined.

Lemma includesStatus_spec (status : option string) :
  includesStatus status = true
  <-> exists s, status = Some s /\ In s validStatuses.
Proof.
  unfold includesStatus. destruct status as [s|].
  - rewrite existsb_exists. split.
    + intros (x & Hin & E). apply String.eqb_eq in E. subst x.
      now exists s.
    + intros (x & E & Hin). injection E as <-. exists s.
      split; [assumption | apply String.eqb_refl].
  - split; [discriminate | intros (s & E & _); discriminate].
Qed.

(** The status update keeps the rows selected by id, with their jobs. *)
Lemma applicationsWithPoster_updateStatusOf (d : db) (id : Z) (s : string) :
  applicationsWithPoster (updateStatusOf d id s) id
  = map (fun ap =>
           ({| application_id := application_id (fst ap);
               app_job_id := app_job_id (fst ap);
               app_user_id := app_user_id (fst ap);
               app_resume := app_resume (fst ap);
               app_cover_letter := app_cover_letter (fst ap);
               app_status := s |}, snd ap))
        (applicationsWithPoster d id).
Proof.
  unfold applicationsWithPoster, applicationsById, updateStatusOf, jobsById.
  cbn [applications set_applications jobs].
  induction (applications d) as [|a l IH]; [reflexivity|].
  cbn [map filter].
  destruct (application_id a =? id) eqn:E.
  - cbn [application_id]. rewrite E. cbn [flat_map app_job_id].
    rewrite map_app, IH, map_map. reflexivity.
  - rewrite E. exact IH.
Qed.

Lemma applicationsById_updateStatusOf (d : db) (id : Z) (s : string)
      (x : application) :
  In x (applicationsById (updateStatusOf d id s) id) -> app_status x = s.
Proof.
  unfold applicationsById, updateStatusOf. cbn [applications set_applications].
  rewrite filter_In, in_map_iff. intros [(a & E & _) Hid].
  destruct (application_id a =? id) eqn:Ea.
  - now subst x.
  - subst x. congruence.
Qed.

Lemma updateStatus_authorized (c : caller) (id : Z) (d : db) (s : string)
      (a : application) (posterId : Z) (rest : list (application * Z)) :
  authorizeRoles [job_poster; alumni; admin] c = true ->
  In s validStatuses ->
  applicationsWithPoster d id = (a, posterId) :: rest ->
  posterId = userId c \/ callerRole c = admin ->
  updateStatus c id (Some s) d
  = (Success 200 "Application status updated", updateStatusOf d id s).
Proof.
  intros Hgate Hs Hsel Hauth. unfold updateStatus.
  rewrite Hgate. cbn [negb].
  assert (Hin : includesStatus (Some s) = true)
    by (apply includesStatus_spec; now exists s).
  rewrite Hin, Hsel. cbn [negb].
  assert (G : negb (posterId =? userId c)
              && negb (role_eqb (callerRole c) admin) = false).
  { destruct Hauth as [-> | ->]; [now rewrite Z.eqb_refl|].
    now rewrite andb_false_r. }
  now rewrite G.
Qed.

(** C8.  For a caller who passes the role gate, the status update accepts
    the five statuses pending, reviewed, shortlisted, rejected, accepted
    and answers every other value (and a missing one) with 400 "Invalid
    status", leaving the store as it is.  For the poster of the job or an
    admin, each of the five is written over the row whatever status the
    row has, and a later call may write any of the five again: no order
    of transitions is enforced. *)
Theorem updateStatus_any_order (c : caller) (id : Z) (d : db) :
  authorizeRoles [job_poster; alumni; admin] c = true ->
  (forall status,
      includesStatus status = true
      <-> exists s, status = Some s
                    /\ In s ["pending"; "reviewed"; "shortlisted";
                             "rejected"; "accepted"])
  /\ (forall status,
        includesStatus status = false
        <-> updateStatus c id status d = (Failure 400 "Invalid status", d))
  /\ (forall s a posterId rest,
        In s validStatuses ->
        applicationsWithPoster d id = (a, posterId) :: rest ->
        posterId = userId c \/ callerRole c = admin ->
        let d1 := updateStatusOf d id s in
        updateStatus c id (Some s) d
        = (Success 200 "Application status updated", d1)
        /\ applicationsById d1 id <> []
        /\ (forall x, In x (applicationsById d1 id) -> app_status x = s)
        /\ forall s', In s' validStatuses ->
             let d2 := updateStatusOf d1 id s' in
             updateStatus c id (Some s') d1
             = (Success 200 "Application status updated", d2)
             /\ forall x, In x (applicationsById d2 id)
                          -> app_status x = s').
Proof.
  intros Hgate. split; [apply includesStatus_spec|]. split.
  - intros status. unfold updateStatus. rewrite Hgate. cbn [negb].
    destruct status as [s|]; [|split; reflexivity].
    destruct (includesStatus (Some s)) eqn:E; cbn [negb].
    + split; [discriminate|].
      destruct (applicationsWithPoster d id) as [|[a p] l];
        [discriminate|].
      destruct (negb (p =? userId c) && negb (role_eqb (callerRole c) admin));
        discriminate.
    + split; reflexivity.
  - intros s a posterId rest Hs Hsel Hauth d1.
    split; [now apply (updateStatus_authorized c id d s a posterId rest)|].
    split.
    { subst d1. intros E.
      assert (W : applicationsWithPoster (updateStatusOf d id s) id = []).
      { unfold applicationsWithPoster. now rewrite E. }
      rewrite applicationsWithPoster_updateStatusOf, Hsel in W.
      discriminate W. }
    split; [apply applicationsById_updateStatusOf|].
    intros s' Hs' d2. split; [|apply applicationsById_updateStatusOf].
    subst d1 d2.
    eapply updateStatus_authorized; try eassumption.
    rewrite applicationsWithPoster_updateStatusOf, Hsel. reflexivity.
Qed.

Lemma updateStatus_any_order_witness :
  authorizeRoles [job_poster; alumni; admin] Samples.poster = true
  /\ updateStatus Samples.poster 1 (Some "pending") Samples.staleCounter
     = (Success 200 "Application status updated",
        updateStatusOf Samples.staleCounter 1 "pending")
  /\ updateStatus Samples.poster 1 (Some "hired") Samples.staleCounter
     = (Failure 400 "Invalid status", Samples.staleCounter).
Proof.
  assert (Hg : authorizeRoles [job_poster; alumni; admin] Samples.poster
               = true) by reflexivity.
  split; [exact Hg|].
  destruct (updateStatus_any_order Samples.poster 1 Samples.staleCounter Hg)
    as (_ & Hbad & Hgood).
  split.
  - refine (proj1 (Hgood "pending" _ 3 [] _ eq_refl (or_introl eq_refl))).
    simpl. tauto.
  - apply Hbad. reflexivity.
Defined.

End ApplicationsFacts.

(** ** Career stats *)

Module StatsFacts.
Import Store Stats.

Lemma jsMin_le_l (a b : Q) : (jsMin a b <= a)%Q.
Proof.
  unfold jsMin. destruct (Qle_bool b a) eqn:E.
  - now apply Qle_bool_iff.
  - apply Qle_refl.
Qed.

(** The three weights sum to at most 40 + 30 + 30. *)
Lemma weights_le (n : Z) (avg : Q) (apps : Z) :
  (interviewWeight n + scoreWeight avg + activityWeight apps <= 100)%Q.
Proof.
  unfold interviewWeight, scoreWeight, activityWeight.
  pose proof (jsMin_le_l 40 (inject_Z n * 8)) as H1.
  pose proof (jsMin_le_l 30 (avg * (3 # 10))) as H2.
  pose proof (jsMin_le_l 30 (inject_Z apps * 3)) as H3.
  setoid_replace 100%Q with (40 + 30 + 30)%Q by reflexivity.
  apply Qplus_le_compat; [apply Qplus_le_compat|]; assumption.
Qed.

Lemma jsRound_le (x : Q) (k : Z) : (x <= inject_Z k)%Q -> jsRound x <= k.
Proof.
  intros H. unfold jsRound.
  assert (L : (inject_Z (Qfloor (x + (1 # 2))) < inject_Z (k + 1))%Q).
  { eapply Qle_lt_trans; [apply Qfloor_le|].
    apply Qle_lt_trans with (inject_Z k + (1 # 2))%Q.
    - apply Qplus_le_compat; [exact H | apply Qle_refl].
    - rewrite inject_Z_plus. apply Qplus_lt_r. reflexivity. }
  rewrite <- Zlt_Qlt in L. lia.
Qed.

Lemma jsRound_ge (x : Q) (k : Z) :
  (inject_Z k - (1 # 2) <= x)%Q <-> k <= jsRound x.
Proof.
  unfold jsRound. split.
  - intros H.
    assert (L : (inject_Z k <= x + (1 # 2))%Q).
    { setoid_replace (inject_Z k) with (inject_Z k - (1 # 2) + (1 # 2))%Q
        by ring.
      apply Qplus_le_compat; [exact H | apply Qle_refl]. }
    apply Qfloor_resp_le in L. now rewrite Qfloor_Z in L.
  - intros H.
    assert (L : (inject_Z k <= x + (1 # 2))%Q).
    { eapply Qle_trans; [|apply Qfloor_le]. now rewrite <- Zle_Qle. }
    setoid_replace x with (x + (1 # 2) - (1 # 2))%Q by ring.
    apply Qplus_le_compat; [exact L | apply Qle_refl].
Qed.

Lemma confidencePulse_le (n : Z) (avg : Q) (apps : Z) :
  confidencePulse n avg apps <= 100.
Proof. apply jsRound_le, weights_le. Qed.

(** C3, as amended.  [GET /stats] answers with
    [confidencePulse = round(min(40, interviewCount*8)
    + min(30, avgScore*0.3) + min(30, totalApplications*3))] over the
    caller's practice rows and applications; it is 0 for a user with no
    practice row and no application, at most 100 for all inputs, and it is
    100 exactly when the three weights sum to at least 99.5: when all
    three caps are reached (5 interviews averaging 100 and 10
    applications), and also just below them. *)
Theorem confidencePulse_saturation :
  (forall c d,
      exists st,
        stats c d = Success 200 st
        /\ s_confidencePulse st
           = jsRound
               (jsMin 40 (inject_Z (sqlCount (practiceOf d (userId c))) * 8)
                + jsMin 30 (orZeroQ (sqlAvg (map ip_score
                                               (practiceOf d (userId c))))
                            * (3 # 10))
                + jsMin 30 (inject_Z (sqlCount
                                        (applicationsOfUser d (userId c)))
                            * 3))
        /\ (practiceOf d (userId c) = [] ->
            applicationsOfUser d (userId c) = [] ->
            s_confidencePulse st = 0)
        /\ s_confidencePulse st <= 100)
  /\ confidencePulse 0 0 0 = 0
  /\ (forall n avg apps, confidencePulse n avg apps <= 100)
  /\ (forall n avg apps,
        confidencePulse n avg apps = 100
        <-> (199 # 2 <= interviewWeight n + scoreWeight avg
                        + activityWeight apps)%Q)
  /\ (forall n avg apps,
        5 <= n -> (100 <= avg)%Q -> 10 <= apps ->
        confidencePulse n avg apps = 100)
  /\ confidencePulse 5 100 10 = 100
  /\ confidencePulse 5 99 10 = 100.
Proof.
  assert (Iff : forall n avg apps,
             confidencePulse n avg apps = 100
             <-> (199 # 2 <= interviewWeight n + scoreWeight avg
                             + activityWeight apps)%Q).
  { intros n avg apps. pose proof (confidencePulse_le n avg apps) as U.
    unfold confidencePulse in *.
    setoid_replace (199 # 2)%Q with (inject_Z 100 - (1 # 2))%Q
      by reflexivity.
    rewrite jsRound_ge. lia. }
  split; [|split; [|split; [|split; [|split; [|split]]]]].
  - intros c d. eexists. split; [reflexivity|]. cbn [s_confidencePulse].
    split; [reflexivity|]. split; [|apply confidencePulse_le].
    intros -> ->. reflexivity.
  - reflexivity.
  - apply confidencePulse_le.
  - exact Iff.
  - intros n avg apps Hn Havg Happs. apply Iff.
    assert (E1 : (interviewWeight n == 40)%Q).
    { unfold interviewWeight, jsMin.
      destruct (Qle_bool (inject_Z n * 8) 40) eqn:E; [|reflexivity].
      apply Qle_bool_iff in E. apply Qle_antisym; [exact E|].
      setoid_replace 40%Q with (inject_Z 5 * 8)%Q by reflexivity.
      apply Qmult_le_compat_r; [now rewrite <- Zle_Qle | discriminate]. }
    assert (E2 : (scoreWeight avg == 30)%Q).
    { unfold scoreWeight, jsMin.
      destruct (Qle_bool (avg * (3 # 10)) 30) eqn:E; [|reflexivity].
      apply Qle_bool_iff in E. apply Qle_antisym; [exact E|].
      setoid_replace 30%Q with (100 * (3 # 10))%Q by reflexivity.
      apply Qmult_le_compat_r; [exact Havg | discriminate]. }
    assert (E3 : (activityWeight apps == 30)%Q).
    { unfold activityWeight, jsMin.
      destruct (Qle_bool (inject_Z apps * 3) 30) eqn:E; [|reflexivity].
      apply Qle_bool_iff in E. apply Qle_antisym; [exact E|].
      setoid_replace 30%Q with (inject_Z 10 * 3)%Q by reflexivity.
      apply Qmult_le_compat_r; [now rewrite <- Zle_Qle | discriminate]. }
    rewrite E1, E2, E3. discriminate.
  - reflexivity.
  - reflexivity.
Qed.

Lemma confidencePulse_saturation_witness :
  practiceOf Samples.oneJob 7 = []
  /\ applicationsOfUser Samples.oneJob 7 = []
  /\ exists st, stats Samples.seeker Samples.oneJob = Success 200 st
                /\ s_confidencePulse st = 0.
Proof.
  split; [reflexivity|]. split; [reflexivity|].
  destruct confidencePulse_saturation as (Hstats & _).
  destruct (Hstats Samples.seeker Samples.oneJob) as (st & Hs & _ & Hz & _).
  exists st. split; [exact Hs|]. apply Hz; reflexivity.
Defined.

(** C3 as first stated fails: with 5 interviews averaging 99 and 10
    applications the pulse is 100 although the score weight, 297/10, is
    below its cap of 30; so the pulse is 100 without all three caps being
    reached.  The store [Samples.nearlyPerfect] is such a case. *)
Lemma confidencePulse_saturates_below_caps :
  confidencePulse 5 99 10 = 100
  /\ (scoreWeight 99 == 297 # 10)%Q
  /\ (scoreWeight 99 < 30)%Q
  /\ ~ (confidencePulse 5 99 10 = 100
        <-> (interviewWeight 5 == 40 /\ scoreWeight 99 == 30
             /\ activityWeight 10 == 30)%Q)
  /\ exists st, stats Samples.seeker Samples.nearlyPerfect = Success 200 st
                /\ s_confidencePulse st = 100
                /\ s_interviewPracticeCount st = 5
                /\ s_averageInterviewScore st = 99
                /\ s_totalApplications st = 10.
Proof.
  split; [reflexivity|]. split; [reflexivity|]. split; [reflexivity|]. split.
  - intros [H _]. destruct (H eq_refl) as (_ & E & _). discriminate E.
  - eexists. split; [reflexivity|]. repeat split.
Qed.

(** On binary64 numbers the same inputs give the same pulse, with the
    score weight below 30. *)
Lemma confidencePulse_binary64_below_caps :
  StatsBinary64.confidencePulse 5 99%float 10 = Some 100
  /\ PrimFloat.ltb (StatsBinary64.scoreWeight 99%float) 30%float = true.
Proof. split; vm_compute; reflexivity. Qed.

(** The binary64 evaluation agrees with the exact one at the inputs the
    specification names. *)
Lemma confidencePulse_binary64_examples :
  StatsBinary64.confidencePulse 0 0%float 0 = Some (confidencePulse 0 0 0)
  /\ StatsBinary64.confidencePulse 5 100%float 10
     = Some (confidencePulse 5 100 10)
  /\ StatsBinary64.confidencePulse 5 99%float 10
     = Some (confidencePulse 5 99 10).
Proof. repeat split; vm_compute; reflexivity. Qed.

End StatsFacts.

(** ** Worked examples *)

Module Examples.
Import JsString Regex Store.

Example trim_example : trim "  ab c  " = "ab c".
Proof. reflexivity. Qed.

Example split_example :
  splitWhiteSpace " a  b " = [EmptyString; "a"; "b"; EmptyString].
Proof. reflexivity. Qed.

Example wordCount_examples :
  Interview.wordCount "I did it" = 3
  /\ Interview.wordCount "  two   words  " = 2
  /\ Interview.wordCount " " = 1.
Proof. repeat split. Qed.

Example metric_examples :
  Resume.hasMetrics "grew sales by 35%" = true
  /\ Resume.hasMetrics "saved $5" = true
  /\ Resume.hasMetrics "served 1,000   CUSTOMERS daily" = true
  /\ Resume.hasMetrics "12 %" = false
  /\ Resume.hasMetrics "many users" = false.
Proof. repeat split. Qed.

Example resume_example :
  Resume.analyzeResume (Some Samples.resumeA)
  = Success 200
      {| Resume.a_score := 77;
         Resume.a_tips := [Resume.tipExpand];
         Resume.a_foundKeywords := ["managed"; "developed"; "increased"; "led"];
         Resume.a_hasMetrics := true |}.
Proof. reflexivity. Qed.

Example interview_example :
  Interview.totalScore "I did it" = 35
  /\ Interview.totalScore Samples.starAnswer = 100.
Proof. split; vm_compute; reflexivity. Qed.

End Examples.

(** ** Mock interview: feedback, score steps, blank responses *)

Module InterviewMore.
Import JsString Regex Notions StringFacts RegexFacts Store Interview Lifecycle.
Import InterviewFacts.

(** X1.  The feedback of the mock interview lists, in the order situation,
    task, action, result, one entry for each STAR component that was not
    detected, then the advice to expand when the response has fewer than 50
    words; only when nothing of this applies it is the pair of generic
    praises.  It is never empty, has at most five entries, and the praise
    is given exactly when all four components are detected in a response
    of at least 50 words, which then scores 100. *)
Theorem feedback_structure (r : string) :
  let specific :=
    ((if hasSituation r then [] else [fbSituation])
     ++ (if hasTask r then [] else [fbTask])
     ++ (if hasAction r then [] else [fbAction])
     ++ (if hasResult r then [] else [fbResult])
     ++ (if wordCount r <? 50 then [fbExpand] else []))%list in
  (specific <> [] -> feedback r = specific)
  /\ (specific = [] -> feedback r = [fbGreat; fbTone])
  /\ feedback r <> []
  /\ (List.length (feedback r) <= 5)%nat
  /\ (feedback r = [fbGreat; fbTone]
      <-> hasSituation r = true /\ hasTask r = true /\ hasAction r = true
          /\ hasResult r = true /\ 50 <= wordCount r)
  /\ (feedback r = [fbGreat; fbTone] -> totalScore r = 100).
Proof.
  cbv zeta. unfold feedback, pushIf, totalScore, starScore.
  pose proof (lengthScore_range r) as L.
  destruct (hasSituation r), (hasTask r), (hasAction r), (hasResult r),
    (wordCount r <? 50) eqn:W;
    (apply Z.ltb_lt in W || apply Z.ltb_ge in W); cbn [app List.length Nat.eqb];
    (split; [first [intros _; reflexivity | intros N; now contradiction N]|]);
    (split; [first [intros _; reflexivity | intros N; discriminate N]|]);
    (split; [discriminate|]);
    (split; [cbn; lia|]);
    (split; [split; [first [intros N; discriminate N
                           | intros _; repeat split; lia]
                    | first [ intros _; reflexivity
                            | intros (A & B & C & D & E);
                              first [discriminate | lia] ]]|]);
    first [intros N; discriminate N | intros _; lia].
Qed.

Lemma feedback_structure_witness :
  feedback "I did it"
  = [fbSituation; fbTask; fbResult; fbExpand].
Proof.
  refine (proj1 (feedback_structure "I did it") _). vm_compute. discriminate.
Defined.

(** X2.  The interview score moves in steps of 5 from 10 to 100: the
    length part is 5 points for every full ten words, capped at 30, so it is
    0 below 10 words and at its cap from 60 words on, and the STAR part is a
    multiple of 25. *)
Theorem totalScore_steps (r : string) :
  (exists k, totalScore r = 5 * k /\ 2 <= k <= 20)
  /\ lengthScore r = 5 * Z.min 6 (wordCount r / 10)
  /\ (lengthScore r = 0 <-> wordCount r < 10)
  /\ (lengthScore r = 30 <-> 60 <= wordCount r)
  /\ (exists n, starScore r = 25 * n /\ 0 <= n <= 4)
  /\ 1 <= wordCount r.
Proof.
  pose proof (wordCount_pos r) as W.
  assert (Q : 0 <= wordCount r / 10) by (apply Z.div_pos; lia).
  assert (L : lengthScore r = 5 * Z.min 6 (wordCount r / 10))
    by (unfold lengthScore; lia).
  assert (S : exists n, starScore r = 25 * n /\ 0 <= n <= 4).
  { unfold starScore.
    destruct (hasSituation r), (hasTask r), (hasAction r), (hasResult r);
      [exists 4 | exists 3 | exists 3 | exists 2 | exists 3 | exists 2
       | exists 2 | exists 1 | exists 3 | exists 2 | exists 2 | exists 1
       | exists 2 | exists 1 | exists 1 | exists 0]; lia. }
  split; [|split; [exact L|split; [|split; [|split; [exact S | exact W]]]]].
  - destruct S as (n & Hs & Hn). unfold totalScore. rewrite Hs, L.
    exists (Z.min 20 (5 * n + Z.min 6 (wordCount r / 10) + 2)). lia.
  - rewrite L. split; intros H.
    + assert (wordCount r / 10 = 0) as E by lia.
      apply Z.div_small_iff in E; lia.
    + rewrite Z.div_small by lia. reflexivity.
  - rewrite L. split; intros H.
    + assert (6 <= wordCount r / 10) as E by lia.
      pose proof (Z.mul_div_le (wordCount r) 10 ltac:(lia)). lia.
    + assert (6 <= wordCount r / 10)
        by (apply Z.div_le_lower_bound; lia).
      lia.
Qed.








(** *** Counting words *)

Lemma noWhiteSpace_app (a b : string) :
  noWhiteSpace (a ++ b) = noWhiteSpace a && noWhiteSpace b.
Proof.
  induction a as [|c a IH]; simpl; [reflexivity|].
  now rewrite IH, andb_assoc.
Qed.

Lemma noWhiteSpace_rev (a : string) : noWhiteSpace (rev a) = noWhiteSpace a.
Proof.
  induction a as [|c a IH]; simpl; [reflexivity|].
  rewrite noWhiteSpace_app, IH. simpl. rewrite andb_true_r. apply andb_comm.
Qed.

Lemma isWord_inv (w : string) :
  isWord w = true -> w <> EmptyString /\ noWhiteSpace w = true.
Proof.
  unfold isWord. rewrite andb_true_iff, negb_true_iff, String.eqb_neq. tauto.
Qed.

Lemma trimStart_blank_app (pre s : string) :
  allWhiteSpace pre = true -> trimStart (pre ++ s) = trimStart s.
Proof.
  induction pre as [|c pre IH]; simpl; [reflexivity|].
  rewrite andb_true_iff. intros [-> H]. now apply IH.
Qed.

Lemma trimStart_fixed (s : string) :
  startsWithWhiteSpace s = false -> trimStart s = s.
Proof. destruct s as [|c s]; simpl; [reflexivity | now intros ->]. Qed.

Lemma startsWithWhiteSpace_app (a b : string) :
  a <> EmptyString ->
  startsWithWhiteSpace (a ++ b) = startsWithWhiteSpace a.
Proof. destruct a; [congruence | reflexivity]. Qed.

Lemma rev_nonempty (a : string) : a <> EmptyString -> rev a <> EmptyString.
Proof.
  destruct a as [|c a]; [congruence|]. simpl. intros _.
  destruct (rev a); discriminate.
Qed.

Lemma noWhiteSpace_head (a : string) :
  noWhiteSpace a = true -> startsWithWhiteSpace a = false.
Proof.
  destruct a as [|c a]; simpl; [reflexivity|].
  rewrite andb_true_iff, negb_true_iff. tauto.
Qed.

(** A text that neither starts nor ends with white space is what [trim]
    leaves of it and of any white space around it. *)
Lemma trim_padded (pre t post : string) :
  allWhiteSpace pre = true -> allWhiteSpace post = true ->
  t <> EmptyString ->
  startsWithWhiteSpace t = false -> startsWithWhiteSpace (rev t) = false ->
  trim (pre ++ t ++ post) = t.
Proof.
  intros Hpre Hpost Hne Hhead Hlast. unfold trim, trimEnd.
  rewrite (trimStart_blank_app pre _ Hpre).
  rewrite (trimStart_fixed (t ++ post))
    by (rewrite startsWithWhiteSpace_app; assumption).
  rewrite rev_app, (trimStart_blank_app (rev post))
    by (now rewrite allWhiteSpace_rev).
  rewrite (trimStart_fixed _ Hlast). apply rev_involutive.
Qed.

Lemma isGap_inv (g : string) :
  isGap g = true -> g <> EmptyString /\ allWhiteSpace g = true.
Proof.
  unfold isGap. rewrite andb_true_iff, negb_true_iff, String.eqb_neq. tauto.
Qed.

(** Words with gaps between them: first and last code unit. *)
Lemma spaced_ends (rest : list (string * string)) (w : string) :
  isWord w = true ->
  forallb (fun gw => isGap (fst gw) && isWord (snd gw)) rest = true ->
  spaced w rest <> EmptyString
  /\ startsWithWhiteSpace (spaced w rest) = false
  /\ rev (spaced w rest) <> EmptyString
  /\ startsWithWhiteSpace (rev (spaced w rest)) = false.
Proof.
  revert w. induction rest as [|[g w'] rest IH]; intros w Hw Hall.
  - apply isWord_inv in Hw as [Hw Hn]. cbn [spaced]. repeat split.
    + exact Hw.
    + now apply noWhiteSpace_head.
    + now apply rev_nonempty.
    + apply noWhiteSpace_head. now rewrite noWhiteSpace_rev.
  - cbn [forallb fst snd] in Hall.
    apply andb_true_iff in Hall as [Hgw Hall].
    apply andb_true_iff in Hgw as [_ Hw'].
    destruct (IH w' Hw' Hall) as (_ & _ & Hr & Hl).
    apply isWord_inv in Hw as [Hw Hn]. cbn [spaced].
    repeat split.
    + destruct w; [congruence | discriminate].
    + rewrite startsWithWhiteSpace_app by assumption.
      now apply noWhiteSpace_head.
    + rewrite !rev_app. destruct (rev (spaced w' rest));
        [congruence | discriminate].
    + rewrite !rev_app, app_assoc, startsWithWhiteSpace_app by assumption.
      exact Hl.
Qed.

(** Reading a word, and reading a separator. *)
Lemma splitGo_word (w s cur : string) (b : bool) :
  w <> EmptyString -> noWhiteSpace w = true ->
  splitGo (w ++ s) cur b = splitGo s (cur ++ w) false.
Proof.
  revert cur b. induction w as [|c w IH]; intros cur b Hne Hn; [congruence|].
  simpl in Hn. apply andb_true_iff in Hn as [Hc Hn].
  apply negb_true_iff in Hc. cbn [append splitGo]. rewrite Hc.
  destruct w as [|c' w].
  - reflexivity.
  - rewrite IH by (discriminate || assumption).
    now rewrite app_assoc.
Qed.

Lemma splitGo_blank_inSep (sep s cur : string) :
  allWhiteSpace sep = true ->
  splitGo (sep ++ s) EmptyString true = splitGo s EmptyString true.
Proof.
  induction sep as [|c sep IH]; simpl; [reflexivity|].
  rewrite andb_true_iff. intros [-> H]. now apply IH.
Qed.

Lemma splitGo_sep (sep s cur : string) :
  sep <> EmptyString -> allWhiteSpace sep = true ->
  splitGo (sep ++ s) cur false = cur :: splitGo s EmptyString true.
Proof.
  intros Hne H. destruct sep as [|c sep]; [congruence|].
  simpl in H. apply andb_true_iff in H as [Hc H].
  cbn [append splitGo]. rewrite Hc. f_equal.
  now apply (splitGo_blank_inSep sep s cur).
Qed.

Lemma splitGo_spaced (rest : list (string * string)) (w : string)
      (b : bool) :
  isWord w = true ->
  forallb (fun gw => isGap (fst gw) && isWord (snd gw)) rest = true ->
  splitGo (spaced w rest) EmptyString b = w :: map snd rest.
Proof.
  revert w b. induction rest as [|[g w'] rest IH]; intros w b Hw Hall.
  - apply isWord_inv in Hw as [Hw Hn]. cbn [spaced map].
    rewrite <- (app_nil_r w) at 1.
    rewrite splitGo_word by assumption. reflexivity.
  - cbn [forallb fst snd] in Hall.
    apply andb_true_iff in Hall as [Hgw Hall].
    apply andb_true_iff in Hgw as [Hg Hw'].
    apply isGap_inv in Hg as [Hg Hb].
    apply isWord_inv in Hw as [Hw Hn]. cbn [spaced map snd].
    rewrite splitGo_word by assumption. cbn [append].
    rewrite splitGo_sep by assumption.
    now rewrite (IH w' true Hw' Hall).
Qed.

(** X4.  The word count of the mock interview is the number of words: for
    one or more words (not empty, free of white space), each two
    neighbours separated by a non-empty run of white space of its own (the
    runs may differ from gap to gap, a space here and a tab there), with
    any white space before and after, the pieces [split] yields are the
    words, in order, and the word count is their number. *)
Theorem wordCount_words (w : string) (rest : list (string * string))
        (pre post : string) :
  isWord w = true ->
  forallb (fun gw => isGap (fst gw) && isWord (snd gw)) rest = true ->
  allWhiteSpace pre = true -> allWhiteSpace post = true ->
  splitWhiteSpace (trim (pre ++ spaced w rest ++ post)) = w :: map snd rest
  /\ wordCount (pre ++ spaced w rest ++ post)
     = Z.of_nat (S (List.length rest)).
Proof.
  intros Hw Hall Hpre Hpost.
  destruct (spaced_ends rest w Hw Hall) as (J1 & J2 & _ & J4).
  assert (E : splitWhiteSpace (trim (pre ++ spaced w rest ++ post))
              = w :: map snd rest).
  { rewrite trim_padded by assumption. now apply splitGo_spaced. }
  split; [exact E|]. unfold wordCount. rewrite E.
  cbn [List.length]. now rewrite length_map.
Qed.

Lemma wordCount_words_witness :
  wordCount ("  I  did" ++ String (ascii_of_nat 9) "it ") = 3
  /\ splitWhiteSpace (trim ("  I  did" ++ String (ascii_of_nat 9) "it "))
     = ["I"; "did"; "it"].
Proof.
  destruct (wordCount_words "I"
              [("  ", "did"); (String (ascii_of_nat 9) EmptyString, "it")]
              "  " " ")
    as [H1 H2]; try reflexivity.
  split; [exact H2 | exact H1].
Defined.

End InterviewMore.
(** ** Resume analyzer: longer texts, metrics, overlapping keywords *)

Module ResumeMore.
Import JsString Regex Notions StringFacts RegexFacts Resume Lifecycle.
Import ResumeFacts InterviewMore.

Lemma occursIgnoringCase_extend (kw pre text post : string) :
  occursIgnoringCase kw text ->
  occursIgnoringCase kw (pre ++ text ++ post).
Proof.
  intros (p & x & q & -> & Hx). exists (pre ++ p), x, (q ++ post).
  split; [|exact Hx]. now rewrite !app_assoc.
Qed.

Lemma filter_length_le {A : Type} (f g : A -> bool) (l : list A) :
  (forall x, In x l -> f x = true -> g x = true) ->
  (List.length (filter f l) <= List.length (filter g l))%nat.
Proof.
  induction l as [|x l IH]; intros H; simpl; [lia|].
  assert (IH' : (List.length (filter f l) <= List.length (filter g l))%nat)
    by (apply IH; intros y Hy; apply H; now right).
  destruct (f x) eqn:Fx.
  - rewrite (H x (or_introl eq_refl) Fx). simpl. lia.
  - destruct (g x); simpl; lia.
Qed.

Lemma foundKeywords_extend (pre text post : string) :
  (List.length (foundKeywords text)
   <= List.length (foundKeywords (pre ++ text ++ post)))%nat.
Proof.
  unfold foundKeywords. apply filter_length_le. intros kw Hin H.
  assert (F : In kw (foundKeywords text))
    by (unfold foundKeywords; apply filter_In; now split).
  apply foundKeywords_spec in F as [_ F].
  apply (occursIgnoringCase_extend kw pre text post) in F.
  assert (G : In kw (foundKeywords (pre ++ text ++ post)))
    by (apply foundKeywords_spec; now split).
  unfold foundKeywords in G. now apply filter_In in G.
Qed.

Lemma hasMetrics_extend (pre text post : string) :
  hasMetrics text = true -> hasMetrics (pre ++ text ++ post) = true.
Proof.
  unfold hasMetrics. rewrite !test_correct.
  intros (p & x & q & -> & Hx). exists (pre ++ p), x, (q ++ post).
  split; [|exact Hx]. now rewrite !app_assoc.
Qed.

(** What [trimStart] leaves of a text keeps a core that does not start
    with white space, and all that follows it. *)
Lemma trimStart_keeps (a core b : string) :
  core <> EmptyString -> startsWithWhiteSpace core = false ->
  exists a', trimStart (a ++ core ++ b) = a' ++ core ++ b.
Proof.
  intros Hne Hhead. induction a as [|c a (a' & IH)].
  - exists EmptyString. simpl. apply trimStart_fixed.
    now rewrite InterviewMore.startsWithWhiteSpace_app.
  - simpl. destruct (isWhiteSpace c).
    + now exists a'.
    + now exists (String c a).
Qed.

Lemma rev_length (a : string) : String.length (rev a) = String.length a.
Proof.
  induction a as [|c a IH]; simpl; [reflexivity|].
  rewrite length_app, IH. simpl. lia.
Qed.

(** Text around a text never shortens what [trim] leaves. *)
Lemma trim_length_extend (pre text post : string) :
  (String.length (trim text)
   <= String.length (trim (pre ++ text ++ post)))%nat.
Proof.
  destruct (trim_spec text) as (w1 & w2 & E & _ & _ & Hhead & Hlast).
  destruct (trim text) as [|c core0] eqn:T; [simpl; lia|].
  set (core := String c core0) in *.
  assert (Hne : core <> EmptyString) by discriminate.
  assert (X : pre ++ text ++ post = (pre ++ w1) ++ core ++ (w2 ++ post))
    by (rewrite E, !app_assoc; reflexivity).
  rewrite X. unfold trim, trimEnd.
  destruct (trimStart_keeps (pre ++ w1) core (w2 ++ post) Hne Hhead)
    as (a' & ->).
  assert (R : rev (a' ++ core ++ w2 ++ post)
              = rev (w2 ++ post) ++ rev core ++ rev a')
    by (rewrite !rev_app, !app_assoc; reflexivity).
  rewrite R.
  destruct (trimStart_keeps (rev (w2 ++ post)) (rev core) (rev a')
                            (rev_nonempty core Hne) Hlast)
    as (b' & ->).
  rewrite rev_length, !length_app, rev_length. lia.
Qed.

(** X5.  Adding text before or after a resume never lowers its score: an
    accepted text stays accepted, every keyword found is still found, the
    metrics stay detected, and the score is at least what it was. *)
Theorem score_extend (pre text post : string) :
  (20 <= String.length (trim text))%nat ->
  exists r r',
    analyzeResume (Some text) = Success 200 r
    /\ analyzeResume (Some (pre ++ text ++ post)) = Success 200 r'
    /\ a_score r <= a_score r'
    /\ (forall kw, In kw (foundKeywords text)
                   -> In kw (foundKeywords (pre ++ text ++ post)))
    /\ (a_hasMetrics r = true -> a_hasMetrics r' = true).
Proof.
  intros H.
  assert (H' : (20 <= String.length (trim (pre ++ text ++ post)))%nat)
    by (pose proof (trim_length_extend pre text post); lia).
  unfold analyzeResume.
  rewrite (accepted_not_falsy _ H), (accepted_not_falsy _ H').
  eexists. eexists. split; [reflexivity|]. split; [reflexivity|].
  cbn [a_score a_hasMetrics]. split; [|split].
  - unfold score. pose proof (foundKeywords_extend pre text post) as F.
    assert (M : (if hasMetrics text then 25 else 0)
                <= (if hasMetrics (pre ++ text ++ post) then 25 else 0)).
    { destruct (hasMetrics text) eqn:E.
      - now rewrite (hasMetrics_extend pre text post E).
      - destruct (hasMetrics (pre ++ text ++ post)); lia. }
    assert (L : (if (150 <? String.length text)%nat then 15 else 0)
                <= (if (150 <? String.length (pre ++ text ++ post))%nat
                    then 15 else 0)).
    { destruct (150 <? String.length text)%nat eqn:E.
      - apply Nat.ltb_lt in E.
        assert ((150 <? String.length (pre ++ text ++ post))%nat = true) as ->
          by (apply Nat.ltb_lt; rewrite !length_app; lia).
        lia.
      - destruct (150 <? String.length (pre ++ text ++ post))%nat; lia. }
    lia.
  - intros kw Hin. apply foundKeywords_spec in Hin as [Hk Ho].
    apply foundKeywords_spec. split; [exact Hk|].
    now apply occursIgnoringCase_extend.
  - apply hasMetrics_extend.
Qed.

Lemma score_extend_witness :
  exists r r',
    analyzeResume (Some Samples.resumeA) = Success 200 r
    /\ analyzeResume (Some ("Summary: " ++ Samples.resumeA ++ " team."))
       = Success 200 r'
    /\ a_score r <= a_score r'.
Proof.
  destruct (score_extend "Summary: " Samples.resumeA " team.")
    as (r & r' & H1 & H2 & H3 & _).
  - vm_compute. lia.
  - now exists r, r'.
Defined.

(** *** Metrics *)

Lemma occursIn_app (c : ascii) (a b : string) :
  occursIn c (a ++ b) <-> occursIn c a \/ occursIn c b.
Proof.
  induction a as [|x a IH]; simpl; [tauto|]. rewrite IH. tauto.
Qed.

Lemma matches_seq_inv (i : bool) (r1 r2 : regex) (x : string) :
  matches i (Seq r1 r2) x ->
  exists x1 x2, x = x1 ++ x2 /\ matches i r1 x1 /\ matches i r2 x2.
Proof.
  intros H. inversion H; subst.
  do 2 eexists. split; [reflexivity|]. split; eassumption.
Qed.

Lemma matches_alt_inv (i : bool) (r1 r2 : regex) (x : string) :
  matches i (Alt r1 r2) x -> matches i r1 x \/ matches i r2 x.
Proof. intros H. inversion H; subst; tauto. Qed.

Lemma matches_plus_cls_inv (i : bool) (p : ascii -> bool) (x : string) :
  matches i (Plus (Cls p)) x ->
  exists d rest, x = String d rest /\ p d = true.
Proof.
  intros H. inversion H as [ | | | | | | | | r x1 x2 H1 H2 ]; subst.
  inversion H1; subst.
  do 2 eexists. split; [reflexivity | assumption].
Qed.

Lemma matches_chr_inv (i : bool) (c : ascii) (x : string) :
  matches i (Chr c) x ->
  exists a, x = String a EmptyString /\ chrMatches i c a = true.
Proof.
  intros H. inversion H; subst.
  eexists. split; [reflexivity | assumption].
Qed.

(** Every string of the metric pattern has a digit or a comma. *)
Lemma metricPatterns_digit (x : string) :
  matches true metricPatterns x ->
  exists c, occursIn c x /\ digitOrComma c = true.
Proof.
  unfold metricPatterns. intros H.
  apply matches_alt_inv in H as [H | H];
    [|apply matches_alt_inv in H as [H | H]];
    apply matches_seq_inv in H as (x1 & x2 & -> & H1 & H2).
  - apply matches_plus_cls_inv in H1 as (d & rest & -> & Hd).
    exists d. split; [now left|]. unfold digitOrComma. now rewrite Hd.
  - apply matches_chr_inv in H1 as (a & -> & _).
    apply matches_plus_cls_inv in H2 as (d & rest & -> & Hd).
    exists d. split; [right; now left|]. unfold digitOrComma. now rewrite Hd.
  - apply matches_plus_cls_inv in H1 as (d & rest & -> & Hd).
    exists d. split; [now left | exact Hd].
Qed.

(** X6.  Metrics are detected only in a text that has a digit or a comma;
    a digit followed by a percent sign, or a dollar sign followed by a
    digit, anywhere in the text is enough; and a text without detected
    metrics gets the advice on metrics as its first tip. *)
Theorem hasMetrics_digits (text : string) :
  (hasMetrics text = true ->
   exists c, occursIn c text /\ (isDigit c = true \/ c = ","%char))
  /\ (forall pre post d, isDigit d = true ->
        hasMetrics (pre ++ String d (String "%" post)) = true)
  /\ (forall pre post d, isDigit d = true ->
        hasMetrics (pre ++ String "$" (String d post)) = true)
  /\ (hasMetrics text = false ->
      exists rest, tips text = tipMetrics :: rest).
Proof.
  split; [|split; [|split]].
  - unfold hasMetrics. rewrite test_correct.
    intros (pre & x & post & -> & H).
    apply metricPatterns_digit in H as (c & Hc & Hd). exists c. split.
    + rewrite !occursIn_app. tauto.
    + unfold digitOrComma in Hd. apply orb_true_iff in Hd as [Hd | Hd].
      * now left.
      * right. apply Ascii.eqb_eq in Hd. exact Hd.
  - intros pre post d Hd. unfold hasMetrics. apply test_correct.
    exists pre, (String d (String "%" EmptyString)), post.
    split; [reflexivity|]. unfold metricPatterns. apply MAltL.
    apply (MSeq true _ _ (String d EmptyString) (String "%" EmptyString)).
    + apply (MPlus true _ (String d EmptyString) EmptyString);
        [now constructor | constructor].
    + now constructor.
  - intros pre post d Hd. unfold hasMetrics. apply test_correct.
    exists pre, (String "$" (String d EmptyString)), post.
    split; [reflexivity|]. unfold metricPatterns. apply MAltR, MAltL.
    apply (MSeq true _ _ (String "$" EmptyString) (String d EmptyString)).
    + now constructor.
    + apply (MPlus true _ (String d EmptyString) EmptyString);
        [now constructor | constructor].
  - intros H. unfold tips, personalizedTips, pushIf. rewrite H. cbn [negb].
    destruct (List.length (foundKeywords text) <? 3)%nat,
             (String.length text <? 150)%nat,
             (negb (includes (toLowerCase text) "project")
              && negb (includes (toLowerCase text) "initiative"));
      eexists; reflexivity.
Qed.

Lemma hasMetrics_digits_witness :
  hasMetrics "grew the team by 7% in a year" = true.
Proof.
  apply (proj1 (proj2 (hasMetrics_digits EmptyString)) "grew the team by "
               " in a year" "7"%char).
  reflexivity.
Defined.

(** *** Keywords inside keywords *)

Lemma two_members {A : Type} (a b : A) (l : list A) :
  In a l -> In b l -> a <> b -> (2 <= List.length l)%nat.
Proof.
  intros Ha Hb Hne. destruct l as [|x [|y l]]; simpl in *; try lia.
  destruct Ha as [<- | []], Hb as [<- | []]. congruence.
Qed.

(** X7.  Keywords are searched as substrings, not as words: a text with
    "scaled" in it, in any letter case, is also found to have "led", so it
    has two keywords and a score of at least 36. *)
Theorem scaled_brings_led (text : string) :
  occursIgnoringCase "scaled" text ->
  In "scaled" (foundKeywords text)
  /\ In "led" (foundKeywords text)
  /\ 36 <= score text.
Proof.
  intros H.
  assert (L : occursIgnoringCase "led" text).
  { destruct H as (pre & x & post & -> & Hx).
    change (toLowerCase "scaled") with ("sca" ++ "led") in Hx.
    apply toLowerCase_split in Hx as (x1 & x2 & -> & _ & H2).
    exists (pre ++ x1), x2, post. split; [|exact H2].
    now rewrite !app_assoc. }
  assert (S : In "scaled" (foundKeywords text))
    by (apply foundKeywords_spec; split; [simpl; tauto | exact H]).
  assert (D : In "led" (foundKeywords text))
    by (apply foundKeywords_spec; split; [simpl; tauto | exact L]).
  split; [exact S|]. split; [exact D|].
  assert (N : (2 <= List.length (foundKeywords text))%nat)
    by (apply (two_members "scaled" "led"); [assumption.. | discriminate]).
  unfold score. pose proof (foundKeywords_le text).
  destruct (hasMetrics text), (150 <? String.length text)%nat; lia.
Qed.

Lemma scaled_brings_led_witness :
  In "led" (foundKeywords "We SCALED the service to three regions").
Proof.
  apply (scaled_brings_led "We SCALED the service to three regions").
  exists "We ", "SCALED", " the service to three regions".
  split; reflexivity.
Defined.

End ResumeMore.
(** ** Career stats: monotonicity, averages, counts *)

From Stdlib Require Import Lqa.

Module StatsMore.
Import Store Stats Lifecycle.
Import StatsFacts.

Lemma jsMin_cases (a b : Q) :
  ((b <= a)%Q /\ jsMin a b = b) \/ ((a < b)%Q /\ jsMin a b = a).
Proof.
  unfold jsMin. destruct (Qle_bool b a) eqn:E.
  - left. split; [now apply Qle_bool_iff | reflexivity].
  - right. split; [|reflexivity]. apply Qnot_le_lt. intros H.
    apply Qle_bool_iff in H. congruence.
Qed.

Lemma jsMin_mono (a b b' : Q) : (b <= b')%Q -> (jsMin a b <= jsMin a b')%Q.
Proof.
  intros H.
  destruct (jsMin_cases a b) as [[H1 ->] | [H1 ->]],
           (jsMin_cases a b') as [[H2 ->] | [H2 ->]]; lra.
Qed.

Lemma jsMin_nonneg (a b : Q) : (0 <= a)%Q -> (0 <= b)%Q -> (0 <= jsMin a b)%Q.
Proof. intros Ha Hb. destruct (jsMin_cases a b) as [[_ ->] | [_ ->]]; lra. Qed.

Lemma jsRound_mono (x y : Q) : (x <= y)%Q -> jsRound x <= jsRound y.
Proof.
  intros H. unfold jsRound. apply Qfloor_resp_le. lra.
Qed.

Lemma inject_Z_le (x y : Z) : x <= y -> (inject_Z x <= inject_Z y)%Q.
Proof. intros H. now rewrite <- Zle_Qle. Qed.

(** X8.  The confidence pulse never goes down when the user practises
    more, averages higher or applies more, and it is not negative for
    counts and an average that are not negative.  The interview weight is at
    its cap of 40 from 5 interviews on, the activity weight at its cap of 30
    from 10 applications on, the score weight at its cap of 30 from an
    average of 100 on, and not before. *)
Theorem confidencePulse_monotone :
  (forall n n' avg avg' apps apps',
      n <= n' -> (avg <= avg')%Q -> apps <= apps' ->
      confidencePulse n avg apps <= confidencePulse n' avg' apps')
  /\ (forall n avg apps,
        0 <= n -> (0 <= avg)%Q -> 0 <= apps ->
        0 <= confidencePulse n avg apps)
  /\ (forall n, (interviewWeight n == 40)%Q <-> 5 <= n)
  /\ (forall apps, (activityWeight apps == 30)%Q <-> 10 <= apps)
  /\ (forall avg, (scoreWeight avg == 30)%Q <-> (100 <= avg)%Q).
Proof.
  split; [|split; [|split; [|split]]].
  - intros n n' avg avg' apps apps' Hn Havg Happs.
    unfold confidencePulse, interviewWeight, scoreWeight, activityWeight.
    apply jsRound_mono.
    pose proof (jsMin_mono 40 (inject_Z n * 8) (inject_Z n' * 8)) as A.
    pose proof (jsMin_mono 30 (avg * (3 # 10)) (avg' * (3 # 10))) as B.
    pose proof (jsMin_mono 30 (inject_Z apps * 3) (inject_Z apps' * 3)) as C.
    apply inject_Z_le in Hn, Happs.
    assert (A' := A ltac:(lra)). assert (B' := B ltac:(lra)).
    assert (C' := C ltac:(lra)). lra.
  - intros n avg apps Hn Havg Happs.
    unfold confidencePulse, interviewWeight, scoreWeight, activityWeight.
    apply inject_Z_le in Hn, Happs.
    change (inject_Z 0) with 0%Q in Hn, Happs.
    pose proof (jsMin_nonneg 40 (inject_Z n * 8)) as A.
    pose proof (jsMin_nonneg 30 (avg * (3 # 10))) as B.
    pose proof (jsMin_nonneg 30 (inject_Z apps * 3)) as C.
    assert (A' := A ltac:(lra) ltac:(lra)).
    assert (B' := B ltac:(lra) ltac:(lra)).
    assert (C' := C ltac:(lra) ltac:(lra)).
    change 0 with (jsRound 0). apply jsRound_mono. lra.
  - intros n. unfold interviewWeight.
    destruct (jsMin_cases 40 (inject_Z n * 8)) as [[H ->] | [H ->]].
    + split.
      * intros E. assert (Q : (inject_Z 5 <= inject_Z n)%Q)
          by (change (inject_Z 5) with 5%Q; lra).
        now rewrite <- Zle_Qle in Q.
      * intros Hn. apply inject_Z_le in Hn.
        change (inject_Z 5) with 5%Q in Hn. lra.
    + split; [intros _ | intros _; reflexivity].
      destruct (Z_le_gt_dec 5 n) as [L | G]; [exact L|].
      assert (Q : (inject_Z n <= inject_Z 4)%Q) by (apply inject_Z_le; lia).
      change (inject_Z 4) with 4%Q in Q. lra.
  - intros apps. unfold activityWeight.
    destruct (jsMin_cases 30 (inject_Z apps * 3)) as [[H ->] | [H ->]].
    + split.
      * intros E. assert (Q : (inject_Z 10 <= inject_Z apps)%Q)
          by (change (inject_Z 10) with 10%Q; lra).
        now rewrite <- Zle_Qle in Q.
      * intros Hn. apply inject_Z_le in Hn.
        change (inject_Z 10) with 10%Q in Hn. lra.
    + split; [intros _ | intros _; reflexivity].
      destruct (Z_le_gt_dec 10 apps) as [L | G]; [exact L|].
      assert (Q : (inject_Z apps <= inject_Z 9)%Q) by (apply inject_Z_le; lia).
      change (inject_Z 9) with 9%Q in Q. lra.
  - intros avg. unfold scoreWeight.
    destruct (jsMin_cases 30 (avg * (3 # 10))) as [[H ->] | [H ->]].
    + split; intros E; lra.
    + split; [intros _; lra | intros _; reflexivity].
Qed.

Lemma confidencePulse_monotone_witness :
  confidencePulse 2 60 3 <= confidencePulse 3 60 3
  /\ 0 <= confidencePulse 2 60 3.
Proof.
  destruct confidencePulse_monotone as (M & N & _).
  split.
  - apply M; [lia | apply Qle_refl | lia].
  - apply N; [lia | discriminate | lia].
Defined.

(** *** Averages *)

Lemma total_bounds (lo hi : Z) (l : list Z) :
  (forall x, In x l -> lo <= x <= hi) ->
  lo * Z.of_nat (List.length l) <= total l <= hi * Z.of_nat (List.length l).
Proof.
  induction l as [|x l IH]; intros H; [simpl; lia|].
  assert (Hx : lo <= x <= hi) by (apply H; now left).
  assert (Hl : lo * Z.of_nat (List.length l) <= total l
               <= hi * Z.of_nat (List.length l))
    by (apply IH; intros y Hy; apply H; now right).
  cbn [total fold_right List.length]. fold (total l). lia.
Qed.

(** The stored average of scores between 10 and 100 lies between 10 and
    100, and so does its rounding. *)
Lemma sqlAvg_bounds (l : list Z) :
  l <> [] -> (forall x, In x l -> 10 <= x <= 100) ->
  exists a, sqlAvg l = Some a /\ (10 <= a <= 100)%Q
            /\ 10 <= jsRound a <= 100.
Proof.
  intros Hne H. pose proof (total_bounds 10 100 l H) as T.
  set (n := Z.of_nat (List.length l)) in *.
  assert (Hn : 0 < n) by (subst n; destruct l; [congruence | simpl; lia]).
  set (q := (inject_Z (total l * 10000) / inject_Z n)%Q).
  assert (E : sqlAvg l = Some (inject_Z (roundHalfAway q) / 10000)%Q)
    by (destruct l; [congruence | reflexivity]).
  assert (Npos : (0 < inject_Z n)%Q)
    by (change 0%Q with (inject_Z 0); now rewrite <- Zlt_Qlt).
  assert (Q1 : (inject_Z 100000 <= q)%Q).
  { unfold q. apply Qle_shift_div_l; [exact Npos|].
    rewrite <- inject_Z_mult, <- Zle_Qle. lia. }
  assert (Q2 : (q <= inject_Z 1000000)%Q).
  { unfold q. apply Qle_shift_div_r; [exact Npos|].
    rewrite <- inject_Z_mult, <- Zle_Qle. lia. }
  assert (R : roundHalfAway q = jsRound q).
  { unfold roundHalfAway.
    assert (Qle_bool 0 q = true) as ->; [|reflexivity].
    apply Qle_bool_iff. change (inject_Z 100000) with 100000%Q in Q1. lra. }
  assert (R1 : 100000 <= jsRound q).
  { apply jsRound_ge. lra. }
  assert (R2 : jsRound q <= 1000000) by now apply jsRound_le.
  exists (inject_Z (jsRound q) / 10000)%Q. split.
  - now rewrite E, R.
  - apply inject_Z_le in R1, R2.
    change (inject_Z 100000) with 100000%Q in R1.
    change (inject_Z 1000000) with 1000000%Q in R2.
    assert (A : (10 <= inject_Z (jsRound q) / 10000 <= 100)%Q).
    { split.
      - apply Qle_shift_div_l; [reflexivity | lra].
      - apply Qle_shift_div_r; [reflexivity | lra]. }
    split; [exact A|]. split.
    + apply jsRound_ge. change (inject_Z 10) with 10%Q. lra.
    + apply jsRound_le. change (inject_Z 100) with 100%Q. lra.
Qed.

Lemma mockInterview_store (c : caller) (prompt response : option string)
      (duration : option Z) (d : db) :
  snd (Interview.mockInterview c prompt response duration d) = d
  \/ exists p r,
       prompt = Some p /\ response = Some r
       /\ p <> EmptyString /\ r <> EmptyString
       /\ snd (Interview.mockInterview c prompt response duration d)
          = insertPractice d {| ip_user_id := userId c; ip_prompt := p;
                                ip_response := r;
                                ip_duration := Interview.orNull duration;
                                ip_score := Interview.totalScore r |}.
Proof.
  unfold Interview.mockInterview.
  destruct prompt as [p|], response as [r|]; try (now left).
  destruct p as [|a p]; [now left|]. destruct r as [|b r]; [now left|].
  right. exists (String a p), (String b r).
  repeat split; try discriminate.
Qed.

(** X9.  Every score the mock interview stores lies between 10 and 100: a
    store with only such scores keeps only such scores, whatever is
    submitted.  On such a store the average interview score of the stats
    is 0 for a user without practice and between 10 and 100 otherwise. *)
Theorem scores_stay_in_range (c : caller) (d : db) :
  scoresInRange d ->
  (forall c' prompt response duration,
      scoresInRange (snd (Interview.mockInterview c' prompt response
                                                  duration d)))
  /\ exists st,
       stats c d = Success 200 st
       /\ (practiceOf d (userId c) = [] ->
           s_averageInterviewScore st = 0
           /\ s_interviewPracticeCount st = 0)
       /\ (practiceOf d (userId c) <> [] ->
           10 <= s_averageInterviewScore st <= 100).
Proof.
  intros H. split.
  - intros c' prompt response duration.
    destruct (mockInterview_store c' prompt response duration d)
      as [-> | (p & r & _ & _ & _ & _ & ->)]; [exact H|].
    unfold scoresInRange, insertPractice. cbn [interview_practice set_interview_practice].
    intros x Hx. apply in_app_iff in Hx as [Hx | [<- | []]]; [now apply H|].
    cbn [ip_score]. apply InterviewFacts.totalScore_range.
  - eexists. split; [reflexivity|]. cbn [s_averageInterviewScore s_interviewPracticeCount].
    split.
    + intros ->. split; reflexivity.
    + intros Hne.
      destruct (sqlAvg_bounds (map ip_score (practiceOf d (userId c))))
        as (a & -> & _ & B).
      * destruct (practiceOf d (userId c)); [congruence | discriminate].
      * intros x Hx. apply in_map_iff in Hx as (p & <- & Hp).
        apply H. unfold practiceOf in Hp. now apply filter_In in Hp.
      * exact B.
Qed.

Lemma scores_stay_in_range_witness :
  scoresInRange Samples.nearlyPerfect
  /\ exists st, stats Samples.seeker Samples.nearlyPerfect = Success 200 st
                /\ 10 <= s_averageInterviewScore st <= 100.
Proof.
  assert (H : scoresInRange Samples.nearlyPerfect).
  { intros p Hp. simpl in Hp.
    repeat (destruct Hp as [<- | Hp]; [simpl; lia|]). destruct Hp. }
  split; [exact H|].
  destruct (scores_stay_in_range Samples.seeker Samples.nearlyPerfect H)
    as (_ & st & Hs & _ & Hb).
  exists st. split; [exact Hs|]. apply Hb. discriminate.
Defined.

(** *** Counts *)



(** *** Practice and stats *)

Lemma practiceOf_insert (d : db) (p : practice) (uid : Z) :
  practiceOf (insertPractice d p) uid
  = (practiceOf d uid ++ (if ip_user_id p =? uid then [p] else []))%list.
Proof.
  unfold practiceOf, insertPractice. cbn [interview_practice set_interview_practice].
  rewrite filter_app. cbn [filter]. reflexivity.
Qed.

(** X11.  An accepted mock interview raises the caller's practice count in
    the stats by one and leaves the caller's application counts as they
    are; the stats of every other user are not changed by it, and a
    rejected submission changes nobody's stats. *)
Theorem mockInterview_then_stats (c : caller) (p r : string)
        (duration : option Z) (d : db) :
  p <> EmptyString -> r <> EmptyString ->
  let d' := snd (Interview.mockInterview c (Some p) (Some r) duration d) in
  (exists st st',
      stats c d = Success 200 st /\ stats c d' = Success 200 st'
      /\ s_interviewPracticeCount st' = s_interviewPracticeCount st + 1
      /\ s_totalApplications st' = s_totalApplications st
      /\ s_acceptedApplications st' = s_acceptedApplications st
      /\ s_shortlistedApplications st' = s_shortlistedApplications st)
  /\ (forall other, userId other <> userId c -> stats other d' = stats other d)
  /\ (forall other prompt response,
        JsString.falsy prompt = true \/ JsString.falsy response = true ->
        stats other (snd (Interview.mockInterview c prompt response
                                                  duration d))
        = stats other d).
Proof.
  intros Hp Hr d'.
  assert (E : d' = insertPractice d
                     {| ip_user_id := userId c; ip_prompt := p;
                        ip_response := r;
                        ip_duration := Interview.orNull duration;
                        ip_score := Interview.totalScore r |}).
  { subst d'. unfold Interview.mockInterview.
    now rewrite (InterviewFacts.falsy_nonempty _ Hp),
                (InterviewFacts.falsy_nonempty _ Hr). }
  split; [|split].
  - do 2 eexists. split; [reflexivity|]. split; [reflexivity|].
    cbn [s_interviewPracticeCount s_totalApplications s_acceptedApplications
         s_shortlistedApplications].
    rewrite E. split; [|repeat split].
    unfold sqlCount. rewrite practiceOf_insert. cbn [ip_user_id].
    rewrite Z.eqb_refl, length_app. simpl. lia.
  - intros other Hne. rewrite E. unfold stats.
    rewrite practiceOf_insert. cbn [ip_user_id].
    assert ((userId c =? userId other) = false) as ->
      by (apply Z.eqb_neq; congruence).
    rewrite app_nil_r. reflexivity.
  - intros other prompt response H.
    destruct (mockInterview_store c prompt response duration d)
      as [-> | (p0 & r0 & -> & -> & Hp0 & Hr0 & _)]; [reflexivity|].
    rewrite (InterviewFacts.falsy_nonempty _ Hp0),
            (InterviewFacts.falsy_nonempty _ Hr0) in H.
    destruct H; discriminate.
Qed.

Lemma mockInterview_then_stats_witness :
  exists st',
    stats Samples.seeker
          (snd (Interview.mockInterview Samples.seeker (Some "Why us?")
                  (Some "I did it") None Samples.nearlyPerfect))
    = Success 200 st'
    /\ s_interviewPracticeCount st' = 6.
Proof.
  destruct (mockInterview_then_stats Samples.seeker "Why us?" "I did it" None
                                     Samples.nearlyPerfect)
    as ((st & st' & H1 & H2 & H3 & _) & _); [discriminate | discriminate |].
  exists st'. split; [exact H2|]. rewrite H3.
  injection H1 as <-. reflexivity.
Defined.

End StatsMore.
(** ** Applications: what the handlers answer and what they keep *)

Module ApplicationsMore.
Import Store Applications Lifecycle.
Import ApplicationsFacts.

(** The three ways [POST /apply] ends. *)
Lemma apply_outcomes (c : caller) (jobId : Z) (cover file : option string)
      (d : db) :
  (applicationsOf d jobId (userId c) <> []
   /\ apply c jobId cover file d
      = (Failure 400 "Already applied to this job", d))
  \/ (applicationsOf d jobId (userId c) = [] /\ jobsById d jobId = []
      /\ apply c jobId cover file d
         = (Failure 500 "Failed to submit application", d))
  \/ (applicationsOf d jobId (userId c) = [] /\ jobsById d jobId <> []
      /\ apply c jobId cover file d
         = (Success 201 "Application submitted successfully",
            applied c jobId cover file d)).
Proof.
  unfold apply.
  destruct (applicationsOf d jobId (userId c)) as [|a0 l0] eqn:Hex.
  - right. cbn [List.length Nat.ltb Nat.leb].
    unfold insertApplication. rewrite Hex.
    destruct (jobsById d jobId) as [|j js] eqn:Hj.
    + left. repeat split.
    + right. repeat split. discriminate.
  - left. split; [discriminate | reflexivity].
Qed.

(** The ways [DELETE /:id] ends. *)
Lemma withdraw_outcomes (c : caller) (id : Z) (d : db) :
  (applicationsById d id = []
   /\ withdraw c id d = (Failure 404 "Application not found", d))
  \/ exists a rest,
       applicationsById d id = a :: rest
       /\ ((app_user_id a <> userId c /\ callerRole c <> admin
            /\ withdraw c id d
               = (Failure 403 "Not authorized to withdraw this application",
                  d))
           \/ ((app_user_id a = userId c \/ callerRole c = admin)
               /\ withdraw c id d
                  = (Success 200 "Application withdrawn successfully",
                     withdrawn d id (app_job_id a)))).
Proof.
  unfold withdraw. rewrite everyRole_allowed. cbn [negb].
  destruct (applicationsById d id) as [|a rest] eqn:E.
  - now left.
  - right. exists a, rest. split; [reflexivity|].
    destruct (app_user_id a =? userId c) eqn:U; cbn [negb andb].
    + right. apply Z.eqb_eq in U. split; [now left | reflexivity].
    + apply Z.eqb_neq in U.
      destruct (role_eqb (callerRole c) admin) eqn:R; cbn [negb].
      * right. apply role_eqb_eq in R. split; [now right | reflexivity].
      * left. repeat split; [exact U|].
        intros A. apply role_eqb_eq in A. congruence.
Qed.

(** X12.  Applying to a job that does not exist is answered 500 "Failed
    to submit application" and stores nothing: the foreign key of the
    schema refuses the row, and no counter is touched. *)
Theorem apply_missing_job (c : caller) (jobId : Z)
        (cover file : option string) (d : db) :
  jobsExist d -> jobsById d jobId = [] ->
  apply c jobId cover file d
  = (Failure 500 "Failed to submit application", d).
Proof.
  intros Hfk Hj.
  destruct (apply_outcomes c jobId cover file d)
    as [[Hex _] | [(_ & _ & E) | (_ & Hj' & _)]];
    [| exact E | congruence].
  exfalso. destruct (applicationsOf d jobId (userId c)) as [|a l] eqn:E;
    [congruence|].
  assert (Hin : In a (applicationsOf d jobId (userId c)))
    by (rewrite E; now left).
  unfold applicationsOf in Hin. apply filter_In in Hin as [Hin Hk].
  apply andb_true_iff in Hk as [Hk _]. apply Z.eqb_eq in Hk.
  apply (Hfk a Hin). now rewrite Hk.
Qed.

Lemma apply_missing_job_witness :
  apply Samples.seeker 6 None None Samples.oneJob
  = (Failure 500 "Failed to submit application", Samples.oneJob).
Proof.
  apply apply_missing_job; [|reflexivity].
  intros a Ha. destruct Ha.
Defined.

(** *** Counters, rows and keys under the three updates *)

Lemma jobsById_updateCount_other (f : Z -> Z) (d : db) (jobId k : Z) :
  k <> jobId -> jobsById (updateCount f d jobId) k = jobsById d k.
Proof.
  intros Hk. rewrite jobsById_updateCount. unfold jobsById.
  induction (jobs d) as [|j l IH]; [reflexivity|]. cbn [filter].
  destruct (job_id j =? k) eqn:E; [|exact IH].
  cbn [map]. rewrite IH.
  assert ((job_id j =? jobId) = false) as ->; [|reflexivity].
  apply Z.eqb_eq in E. apply Z.eqb_neq. congruence.
Qed.

Lemma jobsById_updateCount_nil (f : Z -> Z) (d : db) (jobId k : Z) :
  jobsById (updateCount f d jobId) k = [] <-> jobsById d k = [].
Proof.
  rewrite jobsById_updateCount.
  destruct (jobsById d k); simpl; split; congruence.
Qed.

Lemma filter_length_bound {A : Type} (f : A -> bool) (l : list A) :
  (List.length (filter f l) <= List.length l)%nat.
Proof.
  induction l as [|x l IH]; simpl; [lia|]. destruct (f x); simpl; lia.
Qed.

Lemma filter_swap {A : Type} (f g : A -> bool) (l : list A) :
  filter f (filter g l) = filter g (filter f l).
Proof.
  induction l as [|x l IH]; simpl; [reflexivity|].
  destruct (f x) eqn:F, (g x) eqn:G; simpl; rewrite ?F, ?G, IH; reflexivity.
Qed.

Lemma NoDup_map_filter {A B : Type} (key : A -> B) (f : A -> bool)
      (l : list A) :
  NoDup (map key l) -> NoDup (map key (filter f l)).
Proof.
  induction l as [|x l IH]; simpl; intros H; [constructor|].
  apply NoDup_cons_iff in H as [Hx Hl].
  destruct (f x); [|now apply IH]. simpl. constructor; [|now apply IH].
  intros C. apply Hx. apply in_map_iff in C as (y & E & Hy).
  apply in_map_iff. exists y. split; [exact E|].
  now apply filter_In in Hy.
Qed.

(** With distinct ids, the rows selected by an id are one row at most, and
    taking it away takes one row from the rows of its job. *)
Lemma remove_by_id (P : application -> bool) (l : list application)
      (a : application) (id : Z) :
  NoDup (map application_id l) -> In a l -> application_id a = id ->
  (List.length
     (filter P (filter (fun x => negb (application_id x =? id)%Z) l))
   + (if P a then 1 else 0))%nat
  = List.length (filter P l).
Proof.
  induction l as [|x l IH]; intros Hnd Hin Hid; [destruct Hin|].
  cbn [map] in Hnd. apply NoDup_cons_iff in Hnd as [Hx Hl].
  destruct Hin as [-> | Hin].
  - cbn [filter]. rewrite Hid, Z.eqb_refl. cbn [negb].
    assert (E : filter (fun x => negb (application_id x =? id)) l = l).
    { apply forallb_filter_id, forallb_forall. intros y Hy.
      apply negb_true_iff, Z.eqb_neq. intros C. apply Hx.
      apply in_map_iff. exists y. split; [congruence | exact Hy]. }
    rewrite E. destruct (P a); simpl; lia.
  - assert (Hne : application_id x <> id).
    { intros C. apply Hx. apply in_map_iff. exists a.
      split; [congruence | exact Hin]. }
    cbn [filter]. apply Z.eqb_neq in Hne. rewrite Hne. cbn [negb filter].
    specialize (IH Hl Hin Hid).
    destruct (P x); simpl; lia.
Qed.

Lemma applicationsById_in (d : db) (id : Z) (a : application)
      (rest : list application) :
  applicationsById d id = a :: rest ->
  In a (applications d) /\ application_id a = id.
Proof.
  intros E.
  assert (Hin : In a (applicationsById d id)) by (rewrite E; now left).
  unfold applicationsById in Hin. apply filter_In in Hin as [Hin Hid].
  now apply Z.eqb_eq in Hid.
Qed.

(** The outcomes of [PUT /:id/status]. *)
Lemma updateStatus_store (c : caller) (id : Z) (status : option string)
      (d : db) :
  snd (updateStatus c id status d) = d
  \/ exists s, status = Some s /\ In s validStatuses
                /\ snd (updateStatus c id status d) = updateStatusOf d id s.
Proof.
  unfold updateStatus.
  destruct (negb (authorizeRoles [job_poster; alumni; admin] c));
    [now left|].
  destruct status as [s|]; [|now left].
  destruct (includesStatus (Some s)) eqn:E; cbn [negb]; [|now left].
  destruct (applicationsWithPoster d id) as [|[a p] l]; [now left|].
  destruct (negb (p =? userId c) && negb (role_eqb (callerRole c) admin));
    [now left|].
  right. exists s. repeat split.
  apply includesStatus_spec in E as (s' & E' & Hin). now injection E' as <-.
Qed.

Lemma withdraw_store (c : caller) (id : Z) (d : db) :
  snd (withdraw c id d) = d
  \/ exists a rest,
       applicationsById d id = a :: rest
       /\ (app_user_id a = userId c \/ callerRole c = admin)
       /\ snd (withdraw c id d) = withdrawn d id (app_job_id a).
Proof.
  destruct (withdraw_outcomes c id d)
    as [[_ ->] | (a & rest & E & [(_ & _ & ->) | (H & ->)])];
    [now left | now left |].
  right. now exists a, rest.
Qed.

Lemma apply_store (c : caller) (jobId : Z) (cover file : option string)
      (d : db) :
  snd (apply c jobId cover file d) = d
  \/ (applicationsOf d jobId (userId c) = [] /\ jobsById d jobId <> []
      /\ snd (apply c jobId cover file d) = applied c jobId cover file d).
Proof.
  destruct (apply_outcomes c jobId cover file d)
    as [[_ ->] | [(_ & _ & ->) | (H1 & H2 & ->)]];
    [now left | now left | now right].
Qed.

Lemma wellFormed_applied (c : caller) (jobId : Z) (cover file : option string)
      (d : db) :
  wellFormed d ->
  applicationsOf d jobId (userId c) = [] -> jobsById d jobId <> [] ->
  wellFormed (applied c jobId cover file d).
Proof.
  intros ((Hnd & Hlt) & Hpair & Hfk & Hst) Hnew Hjob.
  unfold wellFormed, idsFresh, onePerPair, jobsExist, statusesValid, applied.
  rewrite !applications_updateCount. cbn [applications next_application_id updateCount set_jobs].
  repeat split.
  - rewrite map_app. apply NoDup_app; [exact Hnd | repeat constructor; tauto |].
    intros x Hx [<- | []]. apply in_map_iff in Hx as (a & E & Ha).
    specialize (Hlt a Ha). cbn [map newApplication application_id] in E. lia.
  - intros a Ha. apply in_app_iff in Ha as [Ha | [<- | []]].
    + specialize (Hlt a Ha). lia.
    + cbn [newApplication application_id]. lia.
  - intros j u. unfold applicationsOf.
    cbn [applications updateCount set_jobs].
    rewrite filter_app, length_app. cbn [filter newApplication app_job_id app_user_id].
    destruct ((jobId =? j) && (userId c =? u)) eqn:E.
    + apply andb_true_iff in E as [Ej Eu].
      apply Z.eqb_eq in Ej, Eu. subst j u.
      unfold applicationsOf in Hnew. rewrite Hnew. simpl. lia.
    + specialize (Hpair j u). unfold applicationsOf in Hpair.
      cbn [List.length]. lia.
  - intros a Ha C.
    apply jobsById_updateCount_nil in C.
    apply in_app_iff in Ha as [Ha | [<- | []]].
    + exact (Hfk a Ha C).
    + exact (Hjob C).
  - intros a Ha. apply in_app_iff in Ha as [Ha | [<- | []]].
    + exact (Hst a Ha).
    + simpl. tauto.
Qed.

Lemma wellFormed_withdrawn (d : db) (id jobId : Z) :
  wellFormed d -> wellFormed (withdrawn d id jobId).
Proof.
  intros ((Hnd & Hlt) & Hpair & Hfk & Hst).
  unfold wellFormed, idsFresh, onePerPair, jobsExist, statusesValid, withdrawn.
  rewrite !applications_updateCount.
  unfold deleteApplication.
  cbn [applications next_application_id updateCount set_jobs set_applications].
  repeat split.
  - now apply NoDup_map_filter.
  - intros a Ha. apply filter_In in Ha as [Ha _]. now apply Hlt.
  - intros j u. unfold applicationsOf.
    cbn [applications updateCount set_jobs set_applications].
    rewrite filter_swap.
    eapply Nat.le_trans; [apply filter_length_bound | apply Hpair].
  - intros a Ha C. apply filter_In in Ha as [Ha _].
    apply jobsById_updateCount_nil in C. exact (Hfk a Ha C).
  - intros a Ha. apply filter_In in Ha as [Ha _]. now apply Hst.
Qed.

Lemma wellFormed_updateStatusOf (d : db) (id : Z) (s : string) :
  wellFormed d -> In s validStatuses -> wellFormed (updateStatusOf d id s).
Proof.
  intros ((Hnd & Hlt) & Hpair & Hfk & Hst) Hs.
  unfold wellFormed, idsFresh, onePerPair, jobsExist, statusesValid,
    updateStatusOf.
  cbn [applications next_application_id set_applications].
  repeat split.
  - rewrite map_map.
    erewrite map_ext; [exact Hnd|].
    intros a. cbn beta. destruct (application_id a =? id); reflexivity.
  - intros a Ha. apply in_map_iff in Ha as (x & <- & Hx).
    specialize (Hlt x Hx). destruct (application_id x =? id); exact Hlt.
  - intros j u. unfold applicationsOf. cbn [applications set_applications].
    rewrite filter_map_preserved.
    + rewrite length_map. apply Hpair.
    + intros a. destruct (application_id a =? id); reflexivity.
  - intros a Ha. apply in_map_iff in Ha as (x & <- & Hx).
    specialize (Hfk x Hx).
    destruct (application_id x =? id); exact Hfk.
  - intros a Ha. apply in_map_iff in Ha as (x & <- & Hx).
    destruct (application_id x =? id); [exact Hs | now apply Hst].
Qed.

(** X16.  The keys of the schema are kept by the three application
    handlers, whatever the request: on a store where the application ids
    differ and lie below the next id, each job and user pair has at most one
    application, every application refers to a job of the store and has one
    of the five statuses, the same holds after [apply], [withdraw] and
    [updateStatus]. *)
Theorem wellFormed_preserved (d : db) :
  wellFormed d ->
  (forall c jobId cover file,
      wellFormed (snd (apply c jobId cover file d)))
  /\ (forall c id, wellFormed (snd (withdraw c id d)))
  /\ (forall c id status, wellFormed (snd (updateStatus c id status d))).
Proof.
  intros H. split; [|split].
  - intros c jobId cover file.
    destruct (apply_store c jobId cover file d) as [-> | (H1 & H2 & ->)];
      [exact H|]. now apply wellFormed_applied.
  - intros c id.
    destruct (withdraw_store c id d) as [-> | (a & rest & _ & _ & ->)];
      [exact H|]. now apply wellFormed_withdrawn.
  - intros c id status.
    destruct (updateStatus_store c id status d) as [-> | (s & _ & Hs & ->)];
      [exact H|]. now apply wellFormed_updateStatusOf.
Qed.

Lemma wellFormed_no_applications (d : db) :
  applications d = [] -> wellFormed d.
Proof.
  intros E.
  unfold wellFormed, idsFresh, onePerPair, jobsExist, statusesValid,
    applicationsOf.
  rewrite E.
  split; [split; [constructor | intros a []]|].
  split; [intros j u; simpl; lia|].
  split; intros a [].
Qed.

Lemma wellFormed_preserved_witness :
  wellFormed Samples.oneJob
  /\ wellFormed (snd (apply Samples.seeker 5 None None Samples.oneJob)).
Proof.
  assert (H : wellFormed Samples.oneJob)
    by (apply wellFormed_no_applications; reflexivity).
  split; [exact H|].
  apply (proj1 (wellFormed_preserved Samples.oneJob H)).
Defined.

(** *** Counters *)

Lemma jobs_updateCount_in (f : Z -> Z) (d : db) (jobId : Z) (j' : job) :
  In j' (jobs (updateCount f d jobId)) ->
  exists j, In j (jobs d) /\ job_id j' = job_id j
            /\ job_user_id j' = job_user_id j
            /\ applications_count j'
               = if job_id j =? jobId then f (applications_count j)
                 else applications_count j.
Proof.
  unfold updateCount. cbn [jobs set_jobs]. intros H.
  apply in_map_iff in H as (j & <- & Hj). exists j.
  split; [exact Hj|]. destruct (job_id j =? jobId); repeat split.
Qed.

Lemma countersMatch_applied (c : caller) (jobId : Z)
      (cover file : option string) (d : db) :
  countersMatch d -> countersMatch (applied c jobId cover file d).
Proof.
  intros H j' Hj'. unfold applied in *.
  apply jobs_updateCount_in in Hj' as (j & Hj & Eid & _ & Ec).
  cbn [jobs] in Hj. rewrite Ec, Eid, (H j Hj).
  unfold applicationsOfJob. rewrite applications_updateCount.
  cbn [applications]. rewrite filter_app, length_app.
  cbn [filter newApplication app_job_id]. rewrite (Z.eqb_sym jobId).
  destruct (job_id j =? jobId); simpl; lia.
Qed.

Lemma countersMatch_withdrawn (d : db) (id : Z) (a : application)
      (rest : list application) :
  idsFresh d -> countersMatch d ->
  applicationsById d id = a :: rest ->
  countersMatch (withdrawn d id (app_job_id a)).
Proof.
  intros [Hnd _] H Hsel j' Hj'. unfold withdrawn in *.
  apply jobs_updateCount_in in Hj' as (j & Hj & Eid & _ & Ec).
  unfold deleteApplication in Hj. cbn [jobs set_applications] in Hj.
  rewrite Ec, Eid, (H j Hj).
  unfold applicationsOfJob. rewrite applications_updateCount.
  unfold deleteApplication. cbn [applications set_applications].
  destruct (applicationsById_in d id a rest Hsel) as [Ha Hid].
  pose proof (remove_by_id (fun x => app_job_id x =? job_id j)
                           (applications d) a id Hnd Ha Hid) as R.
  cbv beta in R. rewrite (Z.eqb_sym (job_id j)).
  destruct (app_job_id a =? job_id j); lia.
Qed.

Lemma countersMatch_updateStatusOf (d : db) (id : Z) (s : string) :
  countersMatch d -> countersMatch (updateStatusOf d id s).
Proof.
  intros H j Hj. unfold updateStatusOf in *. cbn [jobs set_applications] in Hj.
  rewrite (H j Hj). unfold applicationsOfJob.
  cbn [applications set_applications].
  rewrite filter_map_preserved.
  - now rewrite length_map.
  - intros a. destruct (application_id a =? id); reflexivity.
Qed.

(** X17.  The stored counters stay right under the three application
    handlers: on a store with distinct application ids where every job's
    [applications_count] is the number of its application rows, the same
    holds after [apply], [withdraw] and [updateStatus], whatever the
    request. *)
Theorem countersMatch_preserved (d : db) :
  idsFresh d -> countersMatch d ->
  (forall c jobId cover file,
      countersMatch (snd (apply c jobId cover file d)))
  /\ (forall c id, countersMatch (snd (withdraw c id d)))
  /\ (forall c id status, countersMatch (snd (updateStatus c id status d))).
Proof.
  intros Hids H. split; [|split].
  - intros c jobId cover file.
    destruct (apply_store c jobId cover file d) as [-> | (_ & _ & ->)];
      [exact H|]. now apply countersMatch_applied.
  - intros c id.
    destruct (withdraw_store c id d) as [-> | (a & rest & E & _ & ->)];
      [exact H|]. now apply (countersMatch_withdrawn d id a rest).
  - intros c id status.
    destruct (updateStatus_store c id status d) as [-> | (s & _ & _ & ->)];
      [exact H|]. now apply countersMatch_updateStatusOf.
Qed.

Lemma countersMatch_preserved_witness :
  idsFresh Samples.oneJob /\ countersMatch Samples.oneJob
  /\ countersMatch (snd (apply Samples.seeker 5 None None Samples.oneJob)).
Proof.
  assert (H : idsFresh Samples.oneJob)
    by (apply wellFormed_no_applications; reflexivity).
  assert (C : countersMatch Samples.oneJob).
  { intros j [<- | []]. reflexivity. }
  split; [exact H|]. split; [exact C|].
  apply (proj1 (countersMatch_preserved Samples.oneJob H C)).
Defined.

(** X18.  Applying and then withdrawing the new application undoes the
    application: on a well-formed store with right counters, after an
    accepted [apply] the caller can withdraw the application just created
    (its id is the former next id), and then the applications, the jobs with
    their counters, the profiles and the practice rows are what they were;
    only the next id has moved on, so the id is not used again. *)
Theorem apply_then_withdraw (c : caller) (jobId : Z)
        (cover file : option string) (d : db) :
  idsFresh d -> countersMatch d ->
  jobsById d jobId <> [] -> applicationsOf d jobId (userId c) = [] ->
  exists d1 d2,
    apply c jobId cover file d
    = (Success 201 "Application submitted successfully", d1)
    /\ withdraw c (next_application_id d) d1
       = (Success 200 "Application withdrawn successfully", d2)
    /\ applications d2 = applications d
    /\ jobs d2 = jobs d
    /\ profiles d2 = profiles d
    /\ interview_practice d2 = interview_practice d
    /\ next_application_id d2 = next_application_id d + 1.
Proof.
  intros [Hnd Hlt] Hc Hjob Hnew.
  destruct (apply_outcomes c jobId cover file d)
    as [[C _] | [(_ & C & _) | (_ & _ & E)]]; try congruence.
  exists (applied c jobId cover file d).
  assert (Old : filter (fun x => negb (application_id x
                                       =? next_application_id d))
                       (applications d) = applications d).
  { apply forallb_filter_id, forallb_forall. intros a Ha.
    apply negb_true_iff, Z.eqb_neq. specialize (Hlt a Ha). lia. }
  assert (Sel : applicationsById (applied c jobId cover file d)
                                 (next_application_id d)
                = [newApplication c jobId cover file d]).
  { unfold applicationsById, applied. rewrite applications_updateCount.
    cbn [applications]. rewrite filter_app.
    cbn [filter newApplication application_id]. rewrite Z.eqb_refl.
    assert (N : filter (fun a => application_id a =? next_application_id d)
                       (applications d) = []).
    { induction (applications d) as [|a l IH]; [reflexivity|].
      cbn [filter].
      assert ((application_id a =? next_application_id d) = false) as ->.
      { apply Z.eqb_neq. specialize (Hlt a (or_introl eq_refl)). lia. }
      apply IH.
      - cbn [map] in Hnd. now apply NoDup_cons_iff in Hnd.
      - intros x Hx. apply Hlt. now right.
      - cbn [filter] in Old.
        destruct (negb (application_id a =? next_application_id d));
          [now injection Old | ].
        exfalso.
        pose proof (filter_length_bound
                      (fun x => negb (application_id x
                                      =? next_application_id d)) l) as B.
        rewrite Old in B. simpl in B. lia. }
    now rewrite N. }
  destruct (withdraw_outcomes c (next_application_id d)
                              (applied c jobId cover file d))
    as [[C _] | (a & rest & Sel' & [(C & _) | (_ & W)])].
  - rewrite Sel in C. discriminate.
  - rewrite Sel in Sel'. injection Sel' as <- <-. now contradiction C.
  - rewrite Sel in Sel'. injection Sel' as <- <-.
    cbn [newApplication app_job_id] in W.
    exists (withdrawn (applied c jobId cover file d)
                      (next_application_id d) jobId).
    split; [exact E|]. split; [exact W|].
    unfold withdrawn, applied.
    rewrite !applications_updateCount. unfold deleteApplication.
    cbn [applications set_applications updateCount set_jobs jobs profiles
         interview_practice next_application_id].
    split.
    { rewrite filter_app. cbn [filter newApplication application_id].
      rewrite Z.eqb_refl. cbn [negb]. now rewrite Old, app_nil_r. }
    split; [|repeat split].
    rewrite map_map. rewrite <- (map_id (jobs d)) at 2.
    apply map_ext_in. intros j Hj.
    destruct (job_id j =? jobId) eqn:Ej; cbn [job_id]; rewrite ?Ej;
      [|reflexivity].
    cbn [job_id job_user_id applications_count].
    specialize (Hc j Hj). destruct j as [jid ju n]. cbn in *. f_equal. lia.
Qed.

Lemma apply_then_withdraw_witness :
  exists d1 d2,
    apply Samples.seeker 5 (Some "Dear team") None Samples.oneJob
    = (Success 201 "Application submitted successfully", d1)
    /\ withdraw Samples.seeker 1 d1
       = (Success 200 "Application withdrawn successfully", d2)
    /\ applications d2 = [] /\ jobs d2 = jobs Samples.oneJob.
Proof.
  destruct (apply_then_withdraw Samples.seeker 5 (Some "Dear team") None
                                Samples.oneJob)
    as (d1 & d2 & H1 & H2 & H3 & H4 & _).
  - apply wellFormed_no_applications. reflexivity.
  - intros j [<- | []]. reflexivity.
  - vm_compute. discriminate.
  - reflexivity.
  - exists d1, d2. repeat split; assumption.
Defined.

(** *** What an application stores, and what it leaves alone *)

(** X13.  An accepted application appends one row and nothing else: the
    row has the former next id, the job, the caller, the cover letter and
    the status "pending"; its resume is the uploaded file under /uploads/
    when one is attached, otherwise the resume of the caller's profile (NULL
    without a profile).  Jobs other than the one applied to, the profiles
    and the practice rows are untouched, and so are the stats of every other
    user, while the caller's total of applications grows by one. *)
Theorem apply_effect (c : caller) (jobId : Z) (cover file : option string)
        (d : db) :
  jobsById d jobId <> [] -> applicationsOf d jobId (userId c) = [] ->
  let d1 := snd (apply c jobId cover file d) in
  applications d1
  = (applications d
     ++ [ {| application_id := next_application_id d;
             app_job_id := jobId; app_user_id := userId c;
             app_resume := resumePath c file d;
             app_cover_letter := cover;
             app_status := "pending" |} ])%list
  /\ (forall filename, file = Some filename ->
        resumePath c file d = Some ("/uploads/" ++ filename))
  /\ (file = None ->
      resumePath c file d
      = match filter (fun p => profile_user_id p =? userId c) (profiles d) with
        | [] => None
        | p :: _ => profile_resume p
        end)
  /\ (forall k, k <> jobId -> jobsById d1 k = jobsById d k)
  /\ profiles d1 = profiles d
  /\ interview_practice d1 = interview_practice d
  /\ (forall other, userId other <> userId c ->
        Stats.stats other d1 = Stats.stats other d)
  /\ Stats.sqlCount (Stats.applicationsOfUser d1 (userId c))
     = Stats.sqlCount (Stats.applicationsOfUser d (userId c)) + 1.
Proof.
  intros Hjob Hnew d1.
  assert (E : d1 = applied c jobId cover file d).
  { subst d1.
    destruct (apply_outcomes c jobId cover file d)
      as [[C _] | [(_ & C & _) | (_ & _ & ->)]]; try congruence.
    reflexivity. }
  rewrite E. unfold applied.
  split; [reflexivity|].
  split; [intros filename ->; reflexivity|].
  split; [intros ->; reflexivity|].
  split; [intros k Hk; now rewrite jobsById_updateCount_other|].
  split; [reflexivity|]. split; [reflexivity|]. split.
  - intros other Hne. unfold Stats.stats, Stats.applicationsOfUser,
      Stats.practiceOf.
    rewrite applications_updateCount.
    cbn [applications interview_practice updateCount set_jobs].
    rewrite filter_app. cbn [filter newApplication app_user_id].
    assert ((userId c =? userId other) = false) as ->
      by (apply Z.eqb_neq; congruence).
    now rewrite app_nil_r.
  - unfold Stats.sqlCount, Stats.applicationsOfUser.
    rewrite applications_updateCount. cbn [applications].
    rewrite filter_app, length_app.
    cbn [filter newApplication app_user_id]. rewrite Z.eqb_refl. simpl. lia.
Qed.

Lemma apply_effect_witness :
  applications (snd (apply Samples.seeker 5 (Some "Dear team") None
                           Samples.oneJob))
  = [ {| application_id := 1; app_job_id := 5; app_user_id := 7;
         app_resume := Some "/uploads/cv.pdf";
         app_cover_letter := Some "Dear team";
         app_status := "pending" |} ].
Proof.
  refine (proj1 (apply_effect Samples.seeker 5 (Some "Dear team") None
                              Samples.oneJob _ _)).
  - vm_compute. discriminate.
  - reflexivity.
Defined.

(** X14.  Withdrawing answers 404 for an id that no application has and
    403 for an application of somebody else, and changes nothing then: a
    caller who is not an admin and does not own the application never
    changes the store by withdrawing. *)
Theorem withdraw_refused (c : caller) (id : Z) (d : db) :
  (applicationsById d id = [] ->
   withdraw c id d = (Failure 404 "Application not found", d))
  /\ (forall a rest,
        applicationsById d id = a :: rest ->
        app_user_id a <> userId c -> callerRole c <> admin ->
        withdraw c id d
        = (Failure 403 "Not authorized to withdraw this application", d))
  /\ (callerRole c <> admin ->
      (forall a, In a (applications d) -> application_id a = id ->
                 app_user_id a <> userId c) ->
      snd (withdraw c id d) = d).
Proof.
  split; [|split].
  - intros E.
    destruct (withdraw_outcomes c id d) as [[_ W] | (a & rest & E' & _)];
      [exact W | congruence].
  - intros a rest E Hown Hadm.
    destruct (withdraw_outcomes c id d)
      as [[E' _] | (a' & rest' & E' & [(_ & _ & W) | ([C | C] & _)])];
      congruence.
  - intros Hadm Hown.
    destruct (withdraw_store c id d) as [-> | (a & rest & E & [C | C] & _)];
      [reflexivity | | congruence].
    destruct (applicationsById_in d id a rest E) as [Ha Hid].
    now contradiction (Hown a Ha Hid).
Qed.

Lemma withdraw_refused_witness :
  withdraw Samples.poster 1 Samples.staleCounter
  = (Failure 403 "Not authorized to withdraw this application",
     Samples.staleCounter)
  /\ withdraw Samples.seeker 9 Samples.staleCounter
     = (Failure 404 "Application not found", Samples.staleCounter).
Proof.
  split.
  - refine (proj1 (proj2 (withdraw_refused Samples.poster 1
                                           Samples.staleCounter))
                  _ [] eq_refl _ _); discriminate.
  - apply (proj1 (withdraw_refused Samples.seeker 9 Samples.staleCounter)).
    reflexivity.
Defined.

(** X15.  The status update refuses job seekers and students at the role
    gate, answers 404 for an unknown application and 403 for a caller who
    neither posted the job nor is an admin, each time without a change.  No
    call of it ever changes a job or its counter, adds or removes an
    application, or changes anything of a row but its status. *)
Theorem updateStatus_refused (c : caller) (id : Z) (status : option string)
        (d : db) :
  (callerRole c = job_seeker \/ callerRole c = student ->
   updateStatus c id status d = (Denied, d))
  /\ (authorizeRoles [job_poster; alumni; admin] c = true ->
      includesStatus status = true ->
      applicationsWithPoster d id = [] ->
      updateStatus c id status d
      = (Failure 404 "Application not found", d))
  /\ (forall a posterId rest,
        authorizeRoles [job_poster; alumni; admin] c = true ->
        includesStatus status = true ->
        applicationsWithPoster d id = (a, posterId) :: rest ->
        posterId <> userId c -> callerRole c <> admin ->
        updateStatus c id status d = (Failure 403 "Not authorized", d))
  /\ (let d' := snd (updateStatus c id status d) in
      jobs d' = jobs d
      /\ profiles d' = profiles d
      /\ next_application_id d' = next_application_id d
      /\ map (fun a => (application_id a, app_job_id a, app_user_id a,
                        app_resume a, app_cover_letter a)) (applications d')
         = map (fun a => (application_id a, app_job_id a, app_user_id a,
                          app_resume a, app_cover_letter a)) (applications d)
      /\ forall a, In a (applications d) -> application_id a <> id ->
                   In a (applications d')).
Proof.
  split; [|split; [|split]].
  - intros H. unfold updateStatus, authorizeRoles.
    destruct H as [-> | ->]; reflexivity.
  - intros Hgate Hin Hsel. unfold updateStatus.
    rewrite Hgate. cbn [negb]. destruct status as [s|]; [|discriminate].
    now rewrite Hin, Hsel.
  - intros a posterId rest Hgate Hin Hsel Hp Hadm. unfold updateStatus.
    rewrite Hgate. cbn [negb]. destruct status as [s|]; [|discriminate].
    rewrite Hin, Hsel. cbn [negb].
    assert ((posterId =? userId c) = false) as -> by now apply Z.eqb_neq.
    assert (role_eqb (callerRole c) admin = false) as ->.
    { apply not_true_iff_false. intros R. now apply role_eqb_eq in R. }
    reflexivity.
  - cbv zeta.
    destruct (updateStatus_store c id status d) as [-> | (s & _ & _ & ->)].
    + repeat split. auto.
    + unfold updateStatusOf. cbn [jobs profiles next_application_id
                                  applications set_applications].
      repeat split.
      * rewrite map_map. apply map_ext. intros a.
        destruct (application_id a =? id); reflexivity.
      * intros a Ha Hne. apply in_map_iff. exists a. split; [|exact Ha].
        apply Z.eqb_neq in Hne. now rewrite Hne.
Qed.

Lemma updateStatus_refused_witness :
  updateStatus Samples.seeker 1 (Some "accepted") Samples.staleCounter
  = (Denied, Samples.staleCounter).
Proof.
  apply (proj1 (updateStatus_refused Samples.seeker 1 (Some "accepted")
                                     Samples.staleCounter)).
  now left.
Defined.

End ApplicationsMore.
(** ** Deleting jobs and users, uploading a resume *)

Module MaintenanceMore.
Import Store Applications Lifecycle.
Import ApplicationsFacts ApplicationsMore.

Lemma filter_implied {A : Type} (f g : A -> bool) (l : list A) :
  (forall x, In x l -> f x = true -> g x = true) ->
  filter f (filter g l) = filter f l.
Proof.
  induction l as [|x l IH]; intros H; [reflexivity|]. cbn [filter].
  assert (IH' : filter f (filter g l) = filter f l)
    by (apply IH; intros y Hy; apply H; now right).
  destruct (g x) eqn:G.
  - cbn [filter]. now rewrite IH'.
  - destruct (f x) eqn:F; [|exact IH'].
    rewrite (H x (or_introl eq_refl) F) in G. discriminate.
Qed.

Lemma jobsById_deleteJobRows_other (d : db) (id k : Z) :
  k <> id -> jobsById (Jobs.deleteJobRows d id) k = jobsById d k.
Proof.
  intros Hk. unfold jobsById, Jobs.deleteJobRows. cbn [jobs].
  apply filter_implied. intros j _ E. apply Z.eqb_eq in E.
  apply negb_true_iff, Z.eqb_neq. congruence.
Qed.

Lemma applicationsOfJob_deleteJobRows_other (d : db) (id k : Z) :
  k <> id ->
  applicationsOfJob (Jobs.deleteJobRows d id) k = applicationsOfJob d k.
Proof.
  intros Hk. unfold applicationsOfJob, Jobs.deleteJobRows. cbn [applications].
  apply filter_implied. intros a _ E. apply Z.eqb_eq in E.
  apply negb_true_iff, Z.eqb_neq. congruence.
Qed.

Lemma filter_none {A : Type} (f : A -> bool) (l : list A) :
  filter f (filter (fun x => negb (f x)) l) = [].
Proof.
  induction l as [|x l IH]; [reflexivity|]. cbn [filter].
  destruct (f x) eqn:F; cbn [negb filter]; rewrite ?F; exact IH.
Qed.

(** X19.  Deleting a job through the job routes is refused at the role
    gate for job seekers and students, answered 404 for an unknown job and
    403 for a job of somebody else (unless the caller is an admin), without
    a change.  When it goes through, the job and all applications to it are
    gone, and every other job keeps its row, its counter and its
    applications. *)
Theorem deleteJob_cascade (c : caller) (id : Z) (d : db) :
  (callerRole c = job_seeker \/ callerRole c = student ->
   Jobs.deleteJob c id d = (Denied, d))
  /\ (authorizeRoles [job_poster; alumni; admin] c = true ->
      jobsById d id = [] ->
      Jobs.deleteJob c id d = (Failure 404 "Job not found", d))
  /\ (forall j rest,
        authorizeRoles [job_poster; alumni; admin] c = true ->
        jobsById d id = j :: rest ->
        job_user_id j <> userId c -> callerRole c <> admin ->
        Jobs.deleteJob c id d = (Failure 403 "Not authorized", d))
  /\ (forall j rest,
        authorizeRoles [job_poster; alumni; admin] c = true ->
        jobsById d id = j :: rest ->
        job_user_id j = userId c \/ callerRole c = admin ->
        exists d',
          Jobs.deleteJob c id d = (Success 200 "Job deleted successfully", d')
          /\ jobsById d' id = []
          /\ applicationsOfJob d' id = []
          /\ (forall k, k <> id ->
                jobsById d' k = jobsById d k
                /\ applicationsOfJob d' k = applicationsOfJob d k)).
Proof.
  split; [|split; [|split]].
  - intros H. unfold Jobs.deleteJob, authorizeRoles.
    destruct H as [-> | ->]; reflexivity.
  - intros Hgate E. unfold Jobs.deleteJob. now rewrite Hgate, E.
  - intros j rest Hgate E Hown Hadm. unfold Jobs.deleteJob.
    rewrite Hgate, E. cbn [negb].
    assert ((job_user_id j =? userId c) = false) as -> by now apply Z.eqb_neq.
    assert (role_eqb (callerRole c) admin = false) as ->.
    { apply not_true_iff_false. intros R. now apply role_eqb_eq in R. }
    reflexivity.
  - intros j rest Hgate E Hauth. unfold Jobs.deleteJob.
    rewrite Hgate, E. cbn [negb].
    assert (G : negb (job_user_id j =? userId c)
                && negb (role_eqb (callerRole c) admin) = false).
    { destruct Hauth as [-> | ->]; [now rewrite Z.eqb_refl|].
      now rewrite andb_false_r. }
    rewrite G. eexists. split; [reflexivity|].
    split; [apply (filter_none (fun j => job_id j =? id))|].
    split; [apply (filter_none (fun a => app_job_id a =? id))|].
    intros k Hk. split.
    + now apply jobsById_deleteJobRows_other.
    + now apply applicationsOfJob_deleteJobRows_other.
Qed.

Lemma deleteJob_cascade_witness :
  exists d',
    Jobs.deleteJob Samples.poster 5 Samples.staleCounter
    = (Success 200 "Job deleted successfully", d')
    /\ applicationsOfJob d' 5 = [].
Proof.
  destruct (proj2 (proj2 (proj2 (deleteJob_cascade Samples.poster 5
                                                   Samples.staleCounter)))
                  _ [] eq_refl eq_refl (or_introl eq_refl))
    as (d' & H & _ & Ha & _).
  now exists d'.
Defined.

Lemma wellFormed_deleteJobRows (d : db) (id : Z) :
  wellFormed d -> wellFormed (Jobs.deleteJobRows d id).
Proof.
  intros ((Hnd & Hlt) & Hpair & Hfk & Hst).
  unfold wellFormed, idsFresh, onePerPair, jobsExist, statusesValid.
  cbn [Jobs.deleteJobRows applications next_application_id].
  repeat split.
  - now apply NoDup_map_filter.
  - intros a Ha. apply filter_In in Ha as [Ha _]. now apply Hlt.
  - intros j u. unfold applicationsOf. cbn [Jobs.deleteJobRows applications].
    rewrite filter_swap.
    eapply Nat.le_trans; [apply filter_length_bound | apply Hpair].
  - intros a Ha. apply filter_In in Ha as [Ha Hk].
    apply negb_true_iff, Z.eqb_neq in Hk.
    rewrite jobsById_deleteJobRows_other by exact Hk. now apply Hfk.
  - intros a Ha. apply filter_In in Ha as [Ha _]. now apply Hst.
Qed.

Lemma countersMatch_deleteJobRows (d : db) (id : Z) :
  countersMatch d -> countersMatch (Jobs.deleteJobRows d id).
Proof.
  intros H j Hj. cbn [Jobs.deleteJobRows jobs] in Hj.
  apply filter_In in Hj as [Hj Hk]. apply negb_true_iff, Z.eqb_neq in Hk.
  rewrite applicationsOfJob_deleteJobRows_other by exact Hk. now apply H.
Qed.

(** X20.  Deleting a job, through the job routes or the admin console,
    keeps the store sound: the keys of the schema still hold (no
    application is left that refers to a missing job) and the counters of
    the remaining jobs are still the numbers of their applications. *)
Theorem deleteJob_keeps_invariants (d : db) :
  wellFormed d -> countersMatch d ->
  (forall c id,
      wellFormed (snd (Jobs.deleteJob c id d))
      /\ countersMatch (snd (Jobs.deleteJob c id d)))
  /\ (forall c id,
        wellFormed (snd (Admin.deleteJob c id d))
        /\ countersMatch (snd (Admin.deleteJob c id d))).
Proof.
  intros W C. split; intros c id.
  - unfold Jobs.deleteJob.
    destruct (negb (authorizeRoles [job_poster; alumni; admin] c));
      [now split|].
    destruct (jobsById d id) as [|j rest]; [now split|].
    destruct (negb (job_user_id j =? userId c)
              && negb (role_eqb (callerRole c) admin)); [now split|].
    cbn [snd]. split;
      [now apply wellFormed_deleteJobRows
      | now apply countersMatch_deleteJobRows].
  - unfold Admin.deleteJob.
    destruct (negb (authorizeRoles [admin] c)); [now split|].
    cbn [snd]. split;
      [now apply wellFormed_deleteJobRows
      | now apply countersMatch_deleteJobRows].
Qed.

Lemma deleteJob_keeps_invariants_witness :
  wellFormed Samples.oneJob /\ countersMatch Samples.oneJob
  /\ wellFormed (snd (Jobs.deleteJob Samples.poster 5 Samples.oneJob)).
Proof.
  assert (W : wellFormed Samples.oneJob)
    by (apply wellFormed_no_applications; reflexivity).
  assert (C : countersMatch Samples.oneJob).
  { intros j [<- | []]. reflexivity. }
  split; [exact W|]. split; [exact C|].
  apply (proj1 (deleteJob_keeps_invariants Samples.oneJob W C)).
Defined.

(** *** Deleting a user *)

Lemma admin_gate (c : caller) :
  authorizeRoles [admin] c = true <-> callerRole c = admin.
Proof.
  unfold authorizeRoles. destruct (callerRole c); simpl;
    split; congruence.
Qed.

(** The applications a user's deletion takes from a job of somebody
    else are the user's own, when job ids are distinct. *)
Lemma applicationsOfJob_deleteUserRows (d : db) (uid : Z) (j : job) :
  NoDup (map job_id (jobs d)) -> In j (jobs d) -> job_user_id j <> uid ->
  applicationsOfJob (Admin.deleteUserRows d uid) (job_id j)
  = filter (fun a => negb (app_user_id a =? uid))
           (applicationsOfJob d (job_id j)).
Proof.
  intros Hnd Hj Hp. unfold applicationsOfJob, Admin.deleteUserRows.
  cbn [applications]. rewrite filter_swap.
  apply filter_ext_in. intros a Ha. apply filter_In in Ha as [_ Hk].
  apply Z.eqb_eq in Hk.
  assert (E : existsb (fun j0 => (job_id j0 =? app_job_id a)
                                 && (job_user_id j0 =? uid)) (jobs d)
              = false).
  { apply not_true_iff_false. intros C.
    apply existsb_exists in C as (j0 & Hj0 & C).
    apply andb_true_iff in C as [C1 C2]. apply Z.eqb_eq in C1, C2.
    assert (j0 = j).
    { clear - Hnd Hj Hj0 C1 Hk.
      induction (jobs d) as [|x l IH]; [destruct Hj|].
      cbn [map] in Hnd. apply NoDup_cons_iff in Hnd as [Hx Hl].
      destruct Hj as [-> | Hj], Hj0 as [-> | Hj0]; auto.
      - exfalso. apply Hx. apply in_map_iff. exists j0.
        split; [congruence | exact Hj0].
      - exfalso. apply Hx. apply in_map_iff. exists j.
        split; [congruence | exact Hj]. }
    subst j0. congruence. }
  rewrite E. now rewrite andb_true_r.
Qed.

Lemma filter_twice {A : Type} (f g : A -> bool) (l : list A) :
  filter f (filter g l) = filter (fun x => g x && f x) l.
Proof.
  induction l as [|x l IH]; [reflexivity|]. cbn [filter].
  destruct (g x) eqn:G; cbn [filter andb]; [|exact IH].
  destruct (f x); now rewrite IH.
Qed.

Lemma filter_split_length {A : Type} (f : A -> bool) (l : list A) :
  Z.of_nat (List.length l)
  = Z.of_nat (List.length (filter (fun x => negb (f x)) l))
    + Z.of_nat (List.length (filter f l)).
Proof.
  induction l as [|x l IH]; [reflexivity|]. cbn [filter List.length].
  destruct (f x); cbn [negb List.length]; lia.
Qed.

(** X21.  Deleting a user in the admin console is open to admins only and
    is answered 200 whether or not the user exists.  Nothing of the user is
    left: no profile, no practice row, no job, no application of the user
    and no application to a job of the user.  The counters of the remaining
    jobs are not adjusted: on a store with right counters and distinct job
    ids, each remaining job's counter exceeds the number of its
    applications by the number of applications the deleted user had to it. *)
Theorem deleteUser_cascade (c : caller) (uid : Z) (d : db) :
  (callerRole c <> admin -> Admin.deleteUser c uid d = (Denied, d))
  /\ (callerRole c = admin ->
      let d' := Admin.deleteUserRows d uid in
      Admin.deleteUser c uid d = (Success 200 "User deleted successfully", d')
      /\ (forall p, In p (profiles d') -> profile_user_id p <> uid)
      /\ (forall p, In p (interview_practice d') -> ip_user_id p <> uid)
      /\ (forall j, In j (jobs d') -> job_user_id j <> uid)
      /\ (forall a, In a (applications d') -> app_user_id a <> uid)
      /\ (jobsExist d -> jobsExist d')
      /\ (NoDup (map job_id (jobs d)) -> countersMatch d ->
          forall j, In j (jobs d') ->
            applications_count j
            = Z.of_nat (List.length (applicationsOfJob d' (job_id j)))
              + Z.of_nat (List.length (applicationsOf d (job_id j) uid)))).
Proof.
  split.
  - intros H. unfold Admin.deleteUser.
    assert (authorizeRoles [admin] c = false) as ->; [|reflexivity].
    apply not_true_iff_false. intros G. now apply admin_gate in G.
  - intros H. cbv zeta. unfold Admin.deleteUser.
    rewrite (proj2 (admin_gate c) H). cbn [negb].
    split; [reflexivity|].
    unfold Admin.deleteUserRows at 1 2 3 4.
    cbn [profiles interview_practice jobs applications].
    split; [|split; [|split; [|split; [|split]]]].
    + intros p Hp. apply filter_In in Hp as [_ Hp].
      now apply negb_true_iff, Z.eqb_neq in Hp.
    + intros p Hp. apply filter_In in Hp as [_ Hp].
      now apply negb_true_iff, Z.eqb_neq in Hp.
    + intros j Hj. apply filter_In in Hj as [_ Hj].
      now apply negb_true_iff, Z.eqb_neq in Hj.
    + intros a Ha. apply filter_In in Ha as [_ Ha].
      apply andb_true_iff in Ha as [Ha _].
      now apply negb_true_iff, Z.eqb_neq in Ha.
    + intros Hfk a Ha. unfold Admin.deleteUserRows in Ha.
      cbn [applications] in Ha. apply filter_In in Ha as [Ha Hk].
      apply andb_true_iff in Hk as [_ Hk]. apply negb_true_iff in Hk.
      specialize (Hfk a Ha).
      destruct (jobsById d (app_job_id a)) as [|j l] eqn:E; [congruence|].
      assert (Hj : In j (jobsById d (app_job_id a))) by (rewrite E; now left).
      unfold jobsById in Hj. apply filter_In in Hj as [Hj Hid].
      intros C.
      assert (Hj' : In j (jobsById (Admin.deleteUserRows d uid)
                                   (app_job_id a))).
      { unfold jobsById, Admin.deleteUserRows. cbn [jobs].
        apply filter_In. split; [|exact Hid].
        apply filter_In. split; [exact Hj|].
        apply negb_true_iff, not_true_iff_false. intros P.
        assert (existsb (fun j0 => (job_id j0 =? app_job_id a)
                                   && (job_user_id j0 =? uid)) (jobs d)
                = true); [|congruence].
        apply existsb_exists. exists j. split; [exact Hj|].
        now rewrite Hid, P. }
      rewrite C in Hj'. destruct Hj'.
    + intros Hnd Hc j Hj. apply filter_In in Hj as [Hj Hp].
      apply negb_true_iff, Z.eqb_neq in Hp.
      rewrite (applicationsOfJob_deleteUserRows d uid j Hnd Hj Hp).
      rewrite (Hc j Hj).
      rewrite (filter_split_length (fun a => app_user_id a =? uid)
                                   (applicationsOfJob d (job_id j))).
      f_equal. unfold applicationsOfJob, applicationsOf.
      now rewrite filter_twice.
Qed.

Lemma deleteUser_cascade_witness :
  exists d',
    Admin.deleteUser MoreSamples.root 7 Samples.nearlyPerfect
    = (Success 200 "User deleted successfully", d')
    /\ applications d' = []
    /\ countOf d' 1 = Some 1.
Proof.
  destruct (proj2 (deleteUser_cascade MoreSamples.root 7
                                      Samples.nearlyPerfect) eq_refl)
    as (H & _).
  eexists. split; [exact H|]. split; reflexivity.
Defined.

(** *** The resume of the profile *)

Lemma profilesOf_setResume (d : db) (uid k : Z) (path : string) :
  filter (fun p => profile_user_id p =? k)
         (profiles (Users.setResume d uid path))
  = map (fun p => if profile_user_id p =? uid
                  then {| profile_user_id := profile_user_id p;
                          profile_resume := Some path |}
                  else p)
        (filter (fun p => profile_user_id p =? k) (profiles d)).
Proof.
  unfold Users.setResume. cbn [profiles].
  apply filter_map_preserved. intros p.
  destruct (profile_user_id p =? uid); reflexivity.
Qed.

(** X22.  Uploading a resume without a file is answered 400 and changes
    nothing.  With a file the answer is 200 with the path /uploads/ plus the
    file name, and only the resume of the caller's profile changes: an
    application the caller then sends without a file carries the uploaded
    path, the resumes other callers apply with are unchanged, and a caller
    without a profile row still gets the answer 200 while nothing is
    stored. *)
Theorem uploadResume_then_apply (c : caller) (d : db) :
  Users.uploadResume c None d = (Failure 400 "No file uploaded", d)
  /\ forall filename,
       let path := "/uploads/" ++ filename in
       let d' := Users.setResume d (userId c) path in
       Users.uploadResume c (Some filename) d = (Success 200 path, d')
       /\ jobs d' = jobs d /\ applications d' = applications d
       /\ interview_practice d' = interview_practice d
       /\ map profile_user_id (profiles d') = map profile_user_id (profiles d)
       /\ (filter (fun p => profile_user_id p =? userId c) (profiles d) <> []
           -> resumePath c None d' = Some path
              /\ forall jobId cover,
                   jobsById d jobId <> [] ->
                   applicationsOf d jobId (userId c) = [] ->
                   exists a,
                     applications (snd (apply c jobId cover None d'))
                     = (applications d ++ [a])%list
                     /\ app_resume a = Some path)
       /\ (filter (fun p => profile_user_id p =? userId c) (profiles d) = []
           -> d' = d /\ resumePath c None d' = None)
       /\ (forall other, userId other <> userId c ->
             resumePath other None d' = resumePath other None d).
Proof.
  split; [reflexivity|]. intros filename path d'.
  split; [reflexivity|]. split; [reflexivity|]. split; [reflexivity|].
  split; [reflexivity|]. split.
  { subst d'. unfold Users.setResume. cbn [profiles]. rewrite map_map.
    apply map_ext. intros p. destruct (profile_user_id p =? userId c);
      reflexivity. }
  assert (R : filter (fun p => profile_user_id p =? userId c) (profiles d)
              <> [] -> resumePath c None d' = Some path).
  { intros Hp. unfold resumePath. subst d'. rewrite profilesOf_setResume.
    destruct (filter (fun p => profile_user_id p =? userId c) (profiles d))
      as [|p l] eqn:E; [congruence|].
    assert (Hin : In p (filter (fun p => profile_user_id p =? userId c)
                               (profiles d))) by (rewrite E; now left).
    apply filter_In in Hin as [_ Hk]. cbn [map]. now rewrite Hk. }
  split; [|split].
  - intros Hp. split; [now apply R|]. intros jobId cover Hjob Hnew.
    destruct (apply_outcomes c jobId cover None d')
      as [[C _] | [(_ & C & _) | (_ & _ & ->)]].
    + now contradiction C.
    + now contradiction Hjob.
    + exists (newApplication c jobId cover None d'). split; [reflexivity|].
      cbn [newApplication app_resume]. now apply R.
  - intros Hp.
    assert (P : profiles d' = profiles d).
    { subst d'. unfold Users.setResume. cbn [profiles].
      rewrite <- (map_id (profiles d)) at 2. apply map_ext_in.
      intros p Hin. destruct (profile_user_id p =? userId c) eqn:E;
        [|reflexivity].
      exfalso.
      assert (In p (filter (fun p => profile_user_id p =? userId c)
                           (profiles d))) as C
          by (apply filter_In; now split).
      rewrite Hp in C. destruct C. }
    split.
    + subst d'. unfold Users.setResume in *. cbn [profiles] in P.
      rewrite P. now destruct d.
    + unfold resumePath. now rewrite P, Hp.
  - intros other Hne. unfold resumePath. subst d'.
    rewrite profilesOf_setResume. clear R.
    induction (profiles d) as [|p l IH]; [reflexivity|]. cbn [filter].
    destruct (profile_user_id p =? userId other) eqn:E; [|exact IH].
    cbn [map].
    assert ((profile_user_id p =? userId c) = false) as ->; [|reflexivity].
    apply Z.eqb_eq in E. apply Z.eqb_neq. congruence.
Qed.

Lemma uploadResume_then_apply_witness :
  exists a,
    applications
      (snd (apply Samples.seeker 5 None None
                  (Users.setResume Samples.oneJob 7 "/uploads/new.pdf")))
    = [a]
    /\ app_resume a = Some "/uploads/new.pdf".
Proof.
  destruct (uploadResume_then_apply Samples.seeker Samples.oneJob)
    as (_ & H).
  destruct (H "new.pdf") as (_ & _ & _ & _ & _ & Hp & _).
  destruct Hp as (_ & Ha); [vm_compute; discriminate|].
  apply (Ha 5 None); [vm_compute; discriminate | reflexivity].
Defined.

End MaintenanceMore.
(** ** Alumni chapters *)

Module ChaptersMore.
Import JsString Store Chapters.
Import ApplicationsFacts.

Lemma chaptersById_updateMemberCount (f : Z -> Z) (d : cdb) (id k : Z) :
  chaptersById (updateMemberCount f d id) k
  = map (fun ch => if chapter_id ch =? id
                   then {| chapter_id := chapter_id ch;
                           chapter_name := chapter_name ch;
                           college_name := college_name ch;
                           created_by := created_by ch;
                           member_count := f (member_count ch) |}
                   else ch)
        (chaptersById d k).
Proof.
  unfold chaptersById, updateMemberCount. cbn [chapters].
  apply filter_map_preserved. intros ch.
  destruct (chapter_id ch =? id); reflexivity.
Qed.

Lemma memberCountOf_updateMemberCount (f : Z -> Z) (d : cdb) (id : Z) :
  memberCountOf (updateMemberCount f d id) id
  = option_map f (memberCountOf d id).
Proof.
  unfold memberCountOf. rewrite chaptersById_updateMemberCount.
  destruct (chaptersById d id) as [|ch l] eqn:E; [reflexivity|].
  assert (Hc : (chapter_id ch =? id) = true).
  { assert (In ch (chaptersById d id)) as Hin by (rewrite E; now left).
    unfold chaptersById in Hin. now apply filter_In in Hin. }
  cbn [map]. now rewrite Hc.
Qed.

Lemma adminMembership_setMemberStatus (d : cdb) (memberId id uid : Z)
      (s : string) :
  adminMembership (setMemberStatus d memberId s) id uid = []
  <-> adminMembership d id uid = [].
Proof.
  unfold adminMembership, setMemberStatus. cbn [members].
  rewrite filter_map_preserved.
  - destruct (filter _ (members d)); simpl; split; congruence.
  - intros m. destruct (member_id m =? memberId); reflexivity.
Qed.

Lemma setMemberStatus_status (d : cdb) (memberId : Z) (s : string)
      (m : member) :
  In m (members (setMemberStatus d memberId s)) ->
  member_id m = memberId -> m_status m = s.
Proof.
  unfold setMemberStatus. cbn [members]. rewrite in_map_iff.
  intros (x & E & _) Hid.
  destruct (member_id x =? memberId) eqn:Ex.
  - now subst m.
  - subst m. apply Z.eqb_neq in Ex. congruence.
Qed.

(** A caller allowed to decide on members: an admin member of the chapter
    or an admin of the site. *)
Lemma updateMember_allowed (c : caller) (id memberId : Z) (s : string)
      (d : cdb) :
  adminMembership d id (userId c) <> [] \/ callerRole c = admin ->
  s = "approved" \/ s = "rejected" ->
  updateMember c id memberId (Some s) d
  = (Ok 200 ("Member " ++ s),
     if String.eqb s "approved"
     then updateMemberCount (fun n => n + 1)
                            (setMemberStatus d memberId s) id
     else setMemberStatus d memberId s).
Proof.
  intros Hauth Hs. unfold updateMember.
  assert (V : decisionValid (Some s) = true)
    by (destruct Hs as [-> | ->]; reflexivity).
  rewrite V. cbn [negb].
  assert (G : (List.length (adminMembership d id (userId c)) =? 0)%nat
              && negb (role_eqb (callerRole c) admin) = false).
  { destruct Hauth as [H | ->]; [|now rewrite andb_false_r].
    destruct (adminMembership d id (userId c)); [congruence | reflexivity]. }
  now rewrite G.
Qed.

(** X24.  Approving a member adds one to the chapter's member counter on
    every call, whatever the member row is: the counter is not compared
    with the row's chapter or its former status.  For a chapter admin or a
    site admin, approving the same row twice raises the counter by two,
    rejecting leaves the counter as it is, also for a row that was approved
    before, and the row with the given id is updated even when it belongs
    to another chapter. *)
Theorem updateMember_counts (c : caller) (id memberId : Z) (d : cdb) (n : Z) :
  adminMembership d id (userId c) <> [] \/ callerRole c = admin ->
  memberCountOf d id = Some n ->
  exists d1 d2 d3,
    updateMember c id memberId (Some "approved") d
    = (Ok 200 "Member approved", d1)
    /\ memberCountOf d1 id = Some (n + 1)
    /\ (forall m, In m (members d1) -> member_id m = memberId ->
                  m_status m = "approved")
    /\ updateMember c id memberId (Some "approved") d1
       = (Ok 200 "Member approved", d2)
    /\ memberCountOf d2 id = Some (n + 2)
    /\ members d2 = members d1
    /\ updateMember c id memberId (Some "rejected") d1
       = (Ok 200 "Member rejected", d3)
    /\ memberCountOf d3 id = Some (n + 1)
    /\ (forall m, In m (members d3) -> member_id m = memberId ->
                  m_status m = "rejected").
Proof.
  intros Hauth Hn.
  set (d1 := updateMemberCount (fun k => k + 1)
                               (setMemberStatus d memberId "approved") id).
  assert (Hauth1 : adminMembership d1 id (userId c) <> []
                   \/ callerRole c = admin).
  { destruct Hauth as [H | H]; [left | now right].
    intros C. apply H.
    apply (adminMembership_setMemberStatus d memberId id (userId c)
                                           "approved"). exact C. }
  assert (N1 : memberCountOf d1 id = Some (n + 1)).
  { subst d1. rewrite memberCountOf_updateMemberCount.
    change (memberCountOf (setMemberStatus d memberId "approved") id)
      with (memberCountOf d id). now rewrite Hn. }
  exists d1,
    (updateMemberCount (fun k => k + 1)
                       (setMemberStatus d1 memberId "approved") id),
    (setMemberStatus d1 memberId "rejected").
  split; [apply (updateMember_allowed c id memberId "approved" d Hauth);
          now left|].
  split; [exact N1|].
  split; [apply (setMemberStatus_status d memberId "approved")|].
  split; [apply (updateMember_allowed c id memberId "approved" d1 Hauth1);
          now left|].
  split.
  { rewrite memberCountOf_updateMemberCount.
    change (memberCountOf (setMemberStatus d1 memberId "approved") id)
      with (memberCountOf d1 id). rewrite N1. cbn [option_map].
    f_equal. lia. }
  split.
  { subst d1. unfold updateMemberCount, setMemberStatus. cbn [members].
    rewrite map_map. apply map_ext. intros m.
    destruct (member_id m =? memberId) eqn:E; cbn [member_id];
      rewrite ?E; reflexivity. }
  split; [apply (updateMember_allowed c id memberId "rejected" d1 Hauth1);
          now right|].
  split; [exact N1|].
  apply (setMemberStatus_status d1 memberId "rejected").
Qed.

Lemma updateMember_counts_witness :
  exists d1 d2,
    updateMember MoreSamples.alum 2 1 (Some "approved") MoreSamples.oneChapter
    = (Ok 200 "Member approved", d1)
    /\ updateMember MoreSamples.alum 2 1 (Some "approved") d1
       = (Ok 200 "Member approved", d2)
    /\ memberCountOf d2 2 = Some 3
    /\ List.length (members d2) = 1%nat.
Proof.
  destruct (updateMember_counts MoreSamples.alum 2 1 MoreSamples.oneChapter 1)
    as (d1 & d2 & _ & H1 & _ & _ & H2 & H3 & H4 & _).
  - left. vm_compute. discriminate.
  - reflexivity.
  - exists d1, d2. split; [exact H1|]. split; [exact H2|].
    split; [exact H3|]. rewrite H4.
    injection H1 as <-. reflexivity.
Defined.

Lemma chapter_in_chaptersById (d : cdb) (id : Z) :
  chaptersById d id <> [] -> (0 <? List.length (chaptersById d id))%nat = true.
Proof. destruct (chaptersById d id); [congruence | reflexivity]. Qed.

Lemma join_store (c : caller) (id : Z) (d : cdb) :
  chaptersById d id <> [] ->
  membership d id (userId c) = [] ->
  join c id d
  = (Ok 201 "Join request submitted successfully",
     {| chapters := chapters d;
        members :=
          (members d ++
           [ {| member_id := next_member_id d;
                m_chapter_id := id; m_user_id := userId c;
                m_role := "member"; m_status := "pending" |} ])%list;
        posts := posts d;
        next_chapter_id := next_chapter_id d;
        next_member_id := next_member_id d + 1;
        next_post_id := next_post_id d |}).
Proof.
  intros Hc Hm. unfold join, insertMember. rewrite Hm. cbn [List.length Nat.ltb Nat.leb].
  destruct (chaptersById d id); [congruence | reflexivity].
Qed.

(** X23.  Joining a chapter is a request, and only one per user: for an
    existing chapter the caller is not in yet, the first call answers 201
    and adds one row with role member and status pending; the member
    counter stays as it was and the caller is no approved member; a second
    call answers 400 and changes nothing. *)
Theorem join_twice (c : caller) (id : Z) (d : cdb) :
  chaptersById d id <> [] ->
  membership d id (userId c) = [] ->
  exists d1,
    join c id d = (Ok 201 "Join request submitted successfully", d1)
    /\ membership d1 id (userId c)
       = [ {| member_id := next_member_id d;
              m_chapter_id := id; m_user_id := userId c;
              m_role := "member"; m_status := "pending" |} ]
    /\ approvedMembership d1 id (userId c) = []
    /\ memberCountOf d1 id = memberCountOf d id
    /\ join c id d1 = (Fail 400 "Already requested or member", d1).
Proof.
  intros Hc Hm. eexists. split; [apply (join_store c id d Hc Hm)|].
  assert (M : forall k, k = k -> (k =? k) = true) by (intros; apply Z.eqb_refl).
  split.
  { unfold membership in *. cbn [members]. rewrite filter_app, Hm.
    cbn [filter m_chapter_id m_user_id app]. now rewrite !Z.eqb_refl. }
  split.
  { unfold approvedMembership. cbn [members]. rewrite filter_app.
    cbn [filter m_chapter_id m_user_id m_status app].
    rewrite !Z.eqb_refl. cbn.
    unfold membership in Hm.
    assert (E : forall l,
               filter (fun m => (m_chapter_id m =? id)
                                && (m_user_id m =? userId c)) l = [] ->
               filter (fun m => (m_chapter_id m =? id)
                                && (m_user_id m =? userId c)
                                && String.eqb (m_status m) "approved") l = []).
    { induction l as [|x l IH]; simpl; [reflexivity|].
      destruct ((m_chapter_id x =? id) && (m_user_id x =? userId c));
        simpl; [discriminate | exact IH]. }
    rewrite (E _ Hm). reflexivity. }
  split; [reflexivity|].
  unfold join. unfold membership in *. cbn [members].
  rewrite filter_app, Hm.
  cbn [filter m_chapter_id m_user_id app]. now rewrite !Z.eqb_refl.
Qed.

Lemma join_twice_witness :
  exists d1,
    join Samples.seeker 2 MoreSamples.oneChapter
    = (Ok 201 "Join request submitted successfully", d1)
    /\ memberCountOf d1 2 = Some 1
    /\ join Samples.seeker 2 d1 = (Fail 400 "Already requested or member", d1).
Proof.
  destruct (join_twice Samples.seeker 2 MoreSamples.oneChapter)
    as (d1 & H1 & _ & _ & H2 & H3).
  - vm_compute. discriminate.
  - reflexivity.
  - exists d1. split; [exact H1|]. split; [|exact H3].
    rewrite H2. reflexivity.
Defined.

(** X27.  A chapter that does not exist cannot be joined: the store is
    left as it is, and a caller without a row for that chapter id gets the
    500 answer of the refused insert. *)
Theorem join_unknown_chapter (c : caller) (id : Z) (d : cdb) :
  chaptersById d id = [] ->
  snd (join c id d) = d
  /\ (membership d id (userId c) = [] ->
      fst (join c id d) = Fail 500 "Failed to join chapter").
Proof.
  intros Hc. unfold join, insertMember. rewrite Hc. split.
  - destruct (0 <? List.length (membership d id (userId c)))%nat; reflexivity.
  - intros ->. reflexivity.
Qed.

Lemma join_unknown_chapter_witness :
  join Samples.seeker 5 MoreSamples.oneChapter
  = (Fail 500 "Failed to join chapter", MoreSamples.oneChapter).
Proof.
  destruct (join_unknown_chapter Samples.seeker 5 MoreSamples.oneChapter)
    as [H1 H2]; [reflexivity|].
  rewrite (surjective_pairing (join Samples.seeker 5 MoreSamples.oneChapter)).
  rewrite H1, (H2 eq_refl). reflexivity.
Defined.

Lemma filter_nil_forall {A : Type} (p : A -> bool) (l : list A) :
  (forall x, In x l -> p x = false) -> filter p l = [].
Proof.
  induction l as [|x l IH]; intros H; simpl; [reflexivity|].
  rewrite (H x (or_introl eq_refl)). apply IH. intros y Hy. apply H. now right.
Qed.

(** X25.  Creating a chapter with both names given, in a store where the
    next chapter id is not in use: the answer is 201 with that id; the new
    chapter has member counter 1 and exactly one member, the creator, as
    approved admin; the other chapters are untouched. *)
Theorem createChapter_result (c : caller) (name college : string) (d : cdb) :
  name <> EmptyString -> college <> EmptyString ->
  (forall ch, In ch (chapters d) -> chapter_id ch <> next_chapter_id d) ->
  (forall m, In m (members d) -> m_chapter_id m <> next_chapter_id d) ->
  exists d',
    createChapter c (Some name) (Some college) d
    = (OkId 201 "Chapter created successfully" (next_chapter_id d), d')
    /\ chaptersById d' (next_chapter_id d)
       = [ {| chapter_id := next_chapter_id d; chapter_name := name;
              college_name := college; created_by := userId c;
              member_count := 1 |} ]
    /\ filter (fun m => m_chapter_id m =? next_chapter_id d) (members d')
       = [ {| member_id := next_member_id d;
              m_chapter_id := next_chapter_id d; m_user_id := userId c;
              m_role := "admin"; m_status := "approved" |} ]
    /\ (forall k, k <> next_chapter_id d ->
                  chaptersById d' k = chaptersById d k)
    /\ next_chapter_id d' = next_chapter_id d + 1.
Proof.
  intros Hn Hk Hch Hm.
  assert (F1 : filter (fun ch => chapter_id ch =? next_chapter_id d)
                      (chapters d) = []).
  { apply filter_nil_forall. intros ch Hin. apply Z.eqb_neq. now apply Hch. }
  assert (F2 : filter (fun m => m_chapter_id m =? next_chapter_id d)
                      (members d) = []).
  { apply filter_nil_forall. intros m Hin. apply Z.eqb_neq. now apply Hm. }
  assert (F3 : filter (fun m => (m_chapter_id m =? next_chapter_id d)
                                && (m_user_id m =? userId c))
                      (members d) = []).
  { apply filter_nil_forall. intros m Hin.
    apply Hm in Hin. apply Z.eqb_neq in Hin. now rewrite Hin. }
  unfold createChapter, notEmpty.
  rewrite (InterviewFacts.falsy_nonempty _ Hn),
          (InterviewFacts.falsy_nonempty _ Hk).
  cbn [app List.length Nat.eqb negb].
  unfold insertMember, chaptersById, membership. cbn [chapters members].
  rewrite filter_app, F1, F3.
  cbn [filter chapter_id app]. rewrite Z.eqb_refl.
  eexists. split; [reflexivity|].
  split.
  { unfold chaptersById, updateMemberCount. cbn [chapters].
    rewrite map_app, filter_app.
    cbn [map filter chapter_id]. rewrite !Z.eqb_refl. cbn [chapter_id].
    rewrite ?Z.eqb_refl.
    rewrite (filter_nil_forall _ (map _ (chapters d))); [reflexivity|].
    intros ch Hin. apply in_map_iff in Hin. destruct Hin as (x & <- & Hx).
    pose proof (Hch x Hx) as N. apply Z.eqb_neq in N. now rewrite N. }
  split.
  { unfold updateMemberCount. cbn [members].
    rewrite filter_app, F2. cbn [filter m_chapter_id app].
    now rewrite Z.eqb_refl. }
  split; [|reflexivity].
  intros k Hkk. unfold chaptersById, updateMemberCount. cbn [chapters].
  rewrite map_app, filter_app. cbn [map filter chapter_id].
  rewrite Z.eqb_refl. cbn [chapter_id].
  assert (N : (next_chapter_id d =? k) = false) by (apply Z.eqb_neq; congruence).
  rewrite N, app_nil_r.
  induction (chapters d) as [|x l IH]; [reflexivity|].
  cbn [map filter].
  assert (Nx : (chapter_id x =? next_chapter_id d) = false).
  { apply Z.eqb_neq. apply Hch. now left. }
  rewrite Nx. rewrite IH; [reflexivity | |].
  - intros ch Hin. apply Hch. now right.
  - apply filter_nil_forall. intros ch Hin. apply Z.eqb_neq. apply Hch.
    now right.
Qed.

Lemma createChapter_result_witness :
  exists d',
    createChapter MoreSamples.alum (Some "Class of 2021") (Some "Tech")
                  MoreSamples.oneChapter
    = (OkId 201 "Chapter created successfully" 3, d')
    /\ memberCountOf d' 3 = Some 1
    /\ memberCountOf d' 2 = Some 1.
Proof.
  destruct (createChapter_result MoreSamples.alum "Class of 2021" "Tech"
                                 MoreSamples.oneChapter)
    as (d' & H1 & H2 & _ & H3 & _).
  - discriminate.
  - discriminate.
  - intros ch [<- | []]. vm_compute. discriminate.
  - intros m [<- | []]. vm_compute. discriminate.
  - exists d'. split; [exact H1|]. split.
    + unfold memberCountOf.
      change (next_chapter_id MoreSamples.oneChapter) with 3 in H2.
      rewrite H2. reflexivity.
    + unfold memberCountOf. rewrite (H3 2); [reflexivity|].
      vm_compute. discriminate.
Defined.

(** X28.  A chapter is created only with both names: when the chapter name
    or the college name is missing or empty the answer is a list of
    validation errors that is not empty, with the message of the chapter
    name in it exactly when that name is missing or empty and likewise for
    the college name, and the store is unchanged. *)
Theorem createChapter_refuses (c : caller) (name college : option string)
        (d : cdb) :
  falsy name = true \/ falsy college = true ->
  exists errs,
    createChapter c name college d = (Invalid errs, d)
    /\ errs <> []
    /\ (In "Chapter name is required" errs <-> falsy name = true)
    /\ (In "College name is required" errs <-> falsy college = true).
Proof.
  intros H.
  assert (E : createChapter c name college d
              = (Invalid (notEmpty name "Chapter name is required"
                          ++ notEmpty college "College name is required")%list,
                 d)).
  { unfold createChapter, notEmpty.
    destruct name as [n|], college as [k|]; try reflexivity.
    destruct (falsy (Some n)) eqn:En, (falsy (Some k)) eqn:Ek;
      try reflexivity.
    destruct H; discriminate. }
  eexists. split; [exact E|]. unfold notEmpty.
  destruct (falsy name) eqn:En, (falsy college) eqn:Ek; cbn [app];
    try (destruct H; discriminate);
    (split; [discriminate|]); simpl;
    split; split; intros Hx; try reflexivity; try discriminate;
    intuition (discriminate || reflexivity).
Qed.

Lemma createChapter_refuses_witness :
  createChapter MoreSamples.alum (Some EmptyString) None MoreSamples.noChapters
  = (Invalid ["Chapter name is required"; "College name is required"],
     MoreSamples.noChapters).
Proof.
  destruct (createChapter_refuses MoreSamples.alum (Some EmptyString) None
                                  MoreSamples.noChapters)
    as (errs & H & _); [now left|].
  reflexivity.
Defined.

Lemma filter_nil_inv {A : Type} (p : A -> bool) (l : list A) (x : A) :
  filter p l = [] -> In x l -> p x = false.
Proof.
  intros F Hin. destruct (p x) eqn:E; [|reflexivity].
  assert (In x (filter p l)) as H by (apply filter_In; now split).
  rewrite F in H. destruct H.
Qed.

Lemma not_admin (c : caller) :
  callerRole c <> admin -> negb (role_eqb (callerRole c) admin) = true.
Proof. destruct (callerRole c); intros H; try reflexivity. congruence. Qed.

(** The handler once the three validators pass. *)
Lemma createPost_valid (c : caller) (id : Z) (ty ti de : string) (d : cdb) :
  existsb (String.eqb ty) postTypes = true ->
  ti <> EmptyString -> de <> EmptyString ->
  createPost c id (Some ty) (Some ti) (Some de) d
  = if (List.length (approvedMembership d id (userId c)) =? 0)%nat
       && negb (role_eqb (callerRole c) admin)
    then (Fail 403 "Must be a member to post", d)
    else match insertPost d id (userId c) ty ti de with
         | None => (Fail 500 "Failed to create post", d)
         | Some (postId, d1) =>
             (OkId 201 "Post created successfully" postId, d1)
         end.
Proof.
  intros Ht Hti Hde. unfold createPost, isInTypes, notEmpty.
  rewrite Ht, (InterviewFacts.falsy_nonempty _ Hti),
          (InterviewFacts.falsy_nonempty _ Hde).
  reflexivity.
Qed.

Lemma createPost_outsider (c : caller) (id : Z) (ty ti de : string)
      (d : cdb) :
  existsb (String.eqb ty) postTypes = true ->
  ti <> EmptyString -> de <> EmptyString ->
  callerRole c <> admin ->
  approvedMembership d id (userId c) = [] ->
  createPost c id (Some ty) (Some ti) (Some de) d
  = (Fail 403 "Must be a member to post", d).
Proof.
  intros Ht Hti Hde Hr Ha.
  rewrite (createPost_valid c id ty ti de d Ht Hti Hde), Ha.
  now rewrite (not_admin c Hr).
Qed.

(** X26.  Posting in a chapter needs an approved membership.  A caller who
    is no site admin and has no row in an existing chapter gets 403; after
    joining the request is pending and the answer is still 403; once a
    chapter admin (or site admin) approves the request the post is stored
    and its id returned; if the request is rejected instead the caller
    still gets 403 and cannot ask again, since the rejected row remains. *)
Theorem post_needs_approval (c a : caller) (id : Z) (ty ti de : string)
        (d : cdb) :
  callerRole c <> admin ->
  chaptersById d id <> [] ->
  membership d id (userId c) = [] ->
  adminMembership d id (userId a) <> [] \/ callerRole a = admin ->
  existsb (String.eqb ty) postTypes = true ->
  ti <> EmptyString -> de <> EmptyString ->
  exists d1 d2 d3 r,
    createPost c id (Some ty) (Some ti) (Some de) d
    = (Fail 403 "Must be a member to post", d)
    /\ join c id d = (Ok 201 "Join request submitted successfully", d1)
    /\ createPost c id (Some ty) (Some ti) (Some de) d1
       = (Fail 403 "Must be a member to post", d1)
    /\ updateMember a id (next_member_id d) (Some "approved") d1
       = (Ok 200 "Member approved", d2)
    /\ createPost c id (Some ty) (Some ti) (Some de) d2
       = (OkId 201 "Post created successfully" (next_post_id d), d3)
    /\ posts d3
       = (posts d ++
          [ {| post_id := next_post_id d; p_chapter_id := id;
               posted_by := userId c; p_type := ty; p_title := ti;
               p_description := de |} ])%list
    /\ updateMember a id (next_member_id d) (Some "rejected") d1
       = (Ok 200 "Member rejected", r)
    /\ createPost c id (Some ty) (Some ti) (Some de) r
       = (Fail 403 "Must be a member to post", r)
    /\ join c id r = (Fail 400 "Already requested or member", r).
Proof.
  intros Hr Hc Hm Ha Ht Hti Hde.
  set (row := {| member_id := next_member_id d;
                 m_chapter_id := id; m_user_id := userId c;
                 m_role := "member"; m_status := "pending" |}).
  set (d1 := {| chapters := chapters d;
                members := (members d ++ [row])%list;
                posts := posts d;
                next_chapter_id := next_chapter_id d;
                next_member_id := next_member_id d + 1;
                next_post_id := next_post_id d |}).
  assert (J : join c id d
              = (Ok 201 "Join request submitted successfully", d1))
    by apply (join_store c id d Hc Hm).
  assert (K : forall x, In x (members d) ->
                (m_chapter_id x =? id) && (m_user_id x =? userId c) = false).
  { intros x Hx. apply (filter_nil_inv _ _ x Hm Hx). }
  assert (A0 : approvedMembership d id (userId c) = []).
  { apply filter_nil_forall. intros x Hx. now rewrite (K x Hx). }
  assert (A1 : approvedMembership d1 id (userId c) = []).
  { unfold approvedMembership, d1. cbn [members].
    rewrite filter_app. fold (approvedMembership d id (userId c)).
    rewrite A0. cbn. now rewrite !Z.eqb_refl. }
  assert (Ha1 : adminMembership d1 id (userId a) <> []
                \/ callerRole a = admin).
  { destruct Ha as [H | H]; [left | now right].
    unfold adminMembership, d1 in *. cbn [members]. rewrite filter_app.
    destruct (filter _ (members d)); [congruence | discriminate]. }
  set (d2 := updateMemberCount (fun n => n + 1)
               (setMemberStatus d1 (next_member_id d) "approved") id).
  set (r := setMemberStatus d1 (next_member_id d) "rejected").
  assert (C2 : chaptersById d2 id <> []).
  { unfold d2. rewrite chaptersById_updateMemberCount.
    change (chaptersById (setMemberStatus d1 (next_member_id d) "approved") id)
      with (chaptersById d id).
    destruct (chaptersById d id); [congruence | discriminate]. }
  assert (A2 : (List.length (approvedMembership d2 id (userId c)) =? 0)%nat
               = false).
  { unfold approvedMembership, d2, updateMemberCount, setMemberStatus, d1.
    cbn [members]. rewrite map_app, filter_app, length_app.
    cbn [map row member_id]. rewrite Z.eqb_refl.
    cbn [filter m_chapter_id m_user_id m_status].
    rewrite !Z.eqb_refl, String.eqb_refl. cbn [andb List.length].
    apply Nat.eqb_neq. lia. }
  assert (Ar : approvedMembership r id (userId c) = []).
  { unfold approvedMembership, r, setMemberStatus, d1. cbn [members].
    rewrite map_app, filter_app.
    cbn [map row member_id]. rewrite Z.eqb_refl.
    cbn [filter m_chapter_id m_user_id m_status].
    rewrite !Z.eqb_refl. cbn [andb].
    change (String.eqb "rejected" "approved") with false.
    rewrite app_nil_r. apply filter_nil_forall.
    intros x Hx. apply in_map_iff in Hx. destruct Hx as (y & <- & Hy).
    pose proof (K y Hy) as Ky.
    destruct (member_id y =? next_member_id d);
      cbn [m_chapter_id m_user_id]; now rewrite Ky. }
  assert (Mr : (0 <? List.length (membership r id (userId c)))%nat = true).
  { unfold membership, r, setMemberStatus, d1. cbn [members].
    rewrite map_app, filter_app, length_app.
    cbn [map row member_id]. rewrite Z.eqb_refl.
    cbn [filter m_chapter_id m_user_id].
    rewrite !Z.eqb_refl. cbn [andb List.length].
    apply Nat.ltb_lt. lia. }
  destruct (chaptersById d2 id) as [|ch chs] eqn:E2; [congruence|].
  exists d1, d2.
  exists {| chapters := chapters d2; members := members d2;
            posts := (posts d ++
                      [ {| post_id := next_post_id d; p_chapter_id := id;
                           posted_by := userId c; p_type := ty;
                           p_title := ti; p_description := de |} ])%list;
            next_chapter_id := next_chapter_id d2;
            next_member_id := next_member_id d2;
            next_post_id := next_post_id d + 1 |}, r.
  split; [apply (createPost_outsider c id ty ti de d Ht Hti Hde Hr A0)|].
  split; [exact J|].
  split; [apply (createPost_outsider c id ty ti de d1 Ht Hti Hde Hr A1)|].
  split; [apply (updateMember_allowed a id (next_member_id d) "approved" d1
                                      Ha1); now left|].
  split.
  { rewrite (createPost_valid c id ty ti de d2 Ht Hti Hde), A2.
    cbn [andb]. unfold insertPost. rewrite E2. reflexivity. }
  split; [reflexivity|].
  split; [apply (updateMember_allowed a id (next_member_id d) "rejected" d1
                                      Ha1); now right|].
  split; [apply (createPost_outsider c id ty ti de r Ht Hti Hde Hr Ar)|].
  unfold join. now rewrite Mr.
Qed.

Lemma post_needs_approval_witness :
  exists d1 d2 d3,
    join Samples.seeker 2 MoreSamples.oneChapter
    = (Ok 201 "Join request submitted successfully", d1)
    /\ createPost Samples.seeker 2 (Some "event") (Some "Reunion")
                  (Some "Ten years on") d1
       = (Fail 403 "Must be a member to post", d1)
    /\ updateMember MoreSamples.alum 2 2 (Some "approved") d1
       = (Ok 200 "Member approved", d2)
    /\ createPost Samples.seeker 2 (Some "event") (Some "Reunion")
                  (Some "Ten years on") d2
       = (OkId 201 "Post created successfully" 1, d3)
    /\ List.length (posts d3) = 1%nat.
Proof.
  destruct (post_needs_approval Samples.seeker MoreSamples.alum 2
              "event" "Reunion" "Ten years on" MoreSamples.oneChapter)
    as (d1 & d2 & d3 & r & _ & H1 & H2 & H3 & H4 & H5 & _).
  - discriminate.
  - vm_compute. discriminate.
  - reflexivity.
  - left. vm_compute. discriminate.
  - reflexivity.
  - discriminate.
  - discriminate.
  - exists d1, d2, d3. split; [exact H1|]. split; [exact H2|].
    split; [exact H3|]. split; [exact H4|]. rewrite H5. reflexivity.
Defined.

(** X29.  Only a chapter admin or a site admin decides on members: for any
    other caller, and for any status other than approved or rejected, the
    call is refused with 403 or 400 and the store is unchanged. *)
Theorem updateMember_refused (c : caller) (id memberId : Z)
        (status : option string) (d : cdb) :
  (adminMembership d id (userId c) = [] /\ callerRole c <> admin)
  \/ decisionValid status = false ->
  snd (updateMember c id memberId status d) = d
  /\ (decisionValid status = false ->
      fst (updateMember c id memberId status d) = Fail 400 "Invalid status")
  /\ (decisionValid status = true ->
      fst (updateMember c id memberId status d) = Fail 403 "Not authorized").
Proof.
  intros H. unfold updateMember.
  destruct status as [s|]; [|repeat split; intros; discriminate].
  destruct (decisionValid (Some s)) eqn:V; cbn [negb].
  - destruct H as [[Ha Hr] | H]; [|discriminate].
    rewrite Ha, (not_admin c Hr). cbn. repeat split. intros; discriminate.
  - repeat split. intros; discriminate.
Qed.

Lemma updateMember_refused_witness :
  updateMember Samples.seeker 2 1 (Some "rejected") MoreSamples.oneChapter
  = (Fail 403 "Not authorized", MoreSamples.oneChapter)
  /\ updateMember MoreSamples.alum 2 1 (Some "pending") MoreSamples.oneChapter
     = (Fail 400 "Invalid status", MoreSamples.oneChapter).
Proof.
  split.
  - destruct (updateMember_refused Samples.seeker 2 1 (Some "rejected")
                                   MoreSamples.oneChapter) as (H1 & _ & H3).
    + left. split; [reflexivity | discriminate].
    + rewrite (surjective_pairing (updateMember _ _ _ _ _)).
      rewrite H1, (H3 eq_refl). reflexivity.
  - destruct (updateMember_refused MoreSamples.alum 2 1 (Some "pending")
                                   MoreSamples.oneChapter) as (H1 & H2 & _).
    + right. reflexivity.
    + rewrite (surjective_pairing (updateMember _ _ _ _ _)).
      rewrite H1, (H2 eq_refl). reflexivity.
Defined.

(** X30.  What a call of the post handler does to the store: with answer
    201 exactly one post is appended, with the fresh post id that is
    returned, the chapter of the request, the caller as poster and a type
    of the list, and the caller is an approved member of the chapter or a
    site admin; with any other answer the store is unchanged.  Chapters and
    members are never touched. *)
Theorem createPost_effect (c : caller) (id : Z)
        (type title descr : option string) (d : cdb) :
  match createPost c id type title descr d with
  | (OkId code _ pid, d') =>
      code = 201 /\ pid = next_post_id d
      /\ (exists ty ti de,
             type = Some ty /\ title = Some ti /\ descr = Some de
             /\ In ty postTypes /\ ti <> EmptyString /\ de <> EmptyString
             /\ posts d'
                = (posts d ++
                   [ {| post_id := pid; p_chapter_id := id;
                        posted_by := userId c; p_type := ty; p_title := ti;
                        p_description := de |} ])%list)
      /\ (approvedMembership d id (userId c) <> [] \/ callerRole c = admin)
      /\ chapters d' = chapters d /\ members d' = members d
  | (_, d') => d' = d
  end.
Proof.
  unfold createPost.
  destruct type as [ty|], title as [ti|], descr as [de|]; try reflexivity.
  destruct (negb _) eqn:V; [reflexivity|].
  destruct ((List.length (approvedMembership d id (userId c)) =? 0)%nat
            && negb (role_eqb (callerRole c) admin)) eqn:G; [reflexivity|].
  unfold insertPost.
  destruct (chaptersById d id) as [|ch chs]; [reflexivity|].
  split; [reflexivity|]. split; [reflexivity|].
  apply negb_false_iff, Nat.eqb_eq in V.
  assert (V1 : isInTypes (Some ty) = [] /\ notEmpty (Some ti) "Title is required" = []
               /\ notEmpty (Some de) "Description is required" = []).
  { destruct (isInTypes (Some ty)); [|discriminate].
    destruct (notEmpty (Some ti) "Title is required"); [|discriminate].
    destruct (notEmpty (Some de) "Description is required"); [|discriminate].
    repeat split. }
  destruct V1 as (T1 & T2 & T3).
  split.
  { exists ty, ti, de. repeat split.
    - unfold isInTypes in T1.
      destruct (existsb (String.eqb ty) postTypes) eqn:E; [|discriminate].
      apply existsb_exists in E. destruct E as (x & Hx & Ex).
      apply String.eqb_eq in Ex. now subst x.
    - intros ->. discriminate T2.
    - intros ->. discriminate T3. }
  split; [|split; reflexivity].
  apply andb_false_iff in G. destruct G as [G | G].
  - left. intros E. rewrite E in G. discriminate.
  - right. apply negb_false_iff in G.
    now apply ApplicationsFacts.role_eqb_eq in G.
Qed.

End ChaptersMore.
